(** * neo3-boa: type analyser, type lattice and opcode table

    A shallow embedding of
    - [boa3/analyser/astanalyser.py] and [boa3/analyser/typeanalyser.py]
      (the AST walking type checker),
    - [boa3/model/type/inttype.py], [boa3/model/type/itype.py],
    - [boa3/model/operation/binary/arithmetic/concat.py],
    - [boa3/neo/vm/opcode/Opcode.py],
    followed by the properties of these functions.

    Python objects are modelled by their content, exceptions by an explicit
    result type, the mutable analyser ([self]) by state passing, and the
    in-place mutation of the syntax tree by returning the updated node. *)

From Stdlib Require Import ZArith List String Bool Lia.
Import ListNotations.
Set Warnings "-register-all".
Local Open Scope string_scope.
Local Open Scope list_scope.
Local Open Scope Z_scope.

(** ** Exceptions and results *)

(** The built-in Python exceptions the modelled code can raise. *)
Inductive PyException : Set :=
| ValueError | IndexError | KeyError | AttributeError | NotImplementedError.

(** The outcome of a call: a returned value or a raised exception. *)
Inductive result (E A : Type) : Type :=
| Returns (a : A)
| Raises (e : E).
Arguments Returns {E A} a.
Arguments Raises {E A} e.

(** ** boa3/neo/vm/opcode/Opcode.py *)

Module Opcode.

Inductive Opcode : Set :=
  | PUSHINT8 | PUSHINT16 | PUSHINT32 | PUSHINT64 | PUSHINT128 | PUSHINT256 | PUSHA
  | PUSHNULL | PUSHDATA1 | PUSHDATA2 | PUSHDATA4 | PUSHM1 | PUSH0 | PUSH1 | PUSH2 | PUSH3
  | PUSH4 | PUSH5 | PUSH6 | PUSH7 | PUSH8 | PUSH9 | PUSH10 | PUSH11 | PUSH12 | PUSH13
  | PUSH14 | PUSH15 | PUSH16 | NOP | JMP | JMP_L | JMPIF | JMPIF_L | JMPIFNOT | JMPIFNOT_L
  | JMPEQ | JMPEQ_L | JMPNE | JMPNE_L | JMPGT | JMPGT_L | JMPGE | JMPGE_L | JMPLT | JMPLT_L
  | JMPLE | JMPLE_L | CALL | CALL_L | CALLA | ABORT | ASSERT | THROW | TRY | TRY_L | ENDTRY
  | ENDTRY_L | ENDFINALLY | RET | SYSCALL | DEPTH | DROP | NIP | XDROP | CLEAR | DUP | OVER
  | PICK | TUCK | SWAP | ROT | ROLL | REVERSE3 | REVERSE4 | REVERSEN | INITSSLOT | INITSLOT
  | LDSFLD0 | LDSFLD1 | LDSFLD2 | LDSFLD3 | LDSFLD4 | LDSFLD5 | LDSFLD6 | LDSFLD | STSFLD0
  | STSFLD1 | STSFLD2 | STSFLD3 | STSFLD4 | STSFLD5 | STSFLD6 | STSFLD | LDLOC0 | LDLOC1
  | LDLOC2 | LDLOC3 | LDLOC4 | LDLOC5 | LDLOC6 | LDLOC | STLOC0 | STLOC1 | STLOC2 | STLOC3
  | STLOC4 | STLOC5 | STLOC6 | STLOC | LDARG0 | LDARG1 | LDARG2 | LDARG3 | LDARG4 | LDARG5
  | LDARG6 | LDARG | STARG0 | STARG1 | STARG2 | STARG3 | STARG4 | STARG5 | STARG6 | STARG
  | NEWBUFFER | MEMCPY | CAT | SUBSTR | LEFT | RIGHT | INVERT | AND | OR | XOR | EQUAL
  | NOTEQUAL | SIGN | ABS | NEGATE | INC | DEC | ADD | SUB | MUL | DIV | MOD | SHL | SHR
  | NOT | BOOLAND | BOOLOR | NZ | NUMEQUAL | NUMNOTEQUAL | LT | LE | GT | GE | MIN | MAX
  | WITHIN | PACK | UNPACK | NEWARRAY0 | NEWARRAY | NEWARRAY_T | NEWSTRUCT0 | NEWSTRUCT
  | NEWMAP | SIZE | HASKEY | KEYS | VALUES | PICKITEM | APPEND | SETITEM | REVERSEITEMS
  | REMOVE | CLEARITEMS | ISNULL | ISTYPE | CONVERT.

(** The byte each member is declared with ([NAME = b'\xNN']). *)
Definition byte_of (o : Opcode) : Z :=
  match o with
  | PUSHINT8 => 0x00 | PUSHINT16 => 0x01 | PUSHINT32 => 0x02 | PUSHINT64 => 0x03
  | PUSHINT128 => 0x04 | PUSHINT256 => 0x05 | PUSHA => 0x0a | PUSHNULL => 0x0b
  | PUSHDATA1 => 0x0c | PUSHDATA2 => 0x0d | PUSHDATA4 => 0x0e | PUSHM1 => 0x0f
  | PUSH0 => 0x10 | PUSH1 => 0x11 | PUSH2 => 0x12 | PUSH3 => 0x13 | PUSH4 => 0x14
  | PUSH5 => 0x15 | PUSH6 => 0x16 | PUSH7 => 0x17 | PUSH8 => 0x18 | PUSH9 => 0x19
  | PUSH10 => 0x1a | PUSH11 => 0x1b | PUSH12 => 0x1c | PUSH13 => 0x1d | PUSH14 => 0x1e
  | PUSH15 => 0x1f | PUSH16 => 0x20 | NOP => 0x21 | JMP => 0x22 | JMP_L => 0x23
  | JMPIF => 0x24 | JMPIF_L => 0x25 | JMPIFNOT => 0x26 | JMPIFNOT_L => 0x27 | JMPEQ => 0x28
  | JMPEQ_L => 0x29 | JMPNE => 0x2a | JMPNE_L => 0x2b | JMPGT => 0x2c | JMPGT_L => 0x2d
  | JMPGE => 0x2e | JMPGE_L => 0x2f | JMPLT => 0x30 | JMPLT_L => 0x31 | JMPLE => 0x32
  | JMPLE_L => 0x33 | CALL => 0x34 | CALL_L => 0x35 | CALLA => 0x36 | ABORT => 0x37
  | ASSERT => 0x38 | THROW => 0x3a | TRY => 0x3b | TRY_L => 0x3c | ENDTRY => 0x3d
  | ENDTRY_L => 0x3e | ENDFINALLY => 0x3f | RET => 0x40 | SYSCALL => 0x41 | DEPTH => 0x43
  | DROP => 0x45 | NIP => 0x46 | XDROP => 0x48 | CLEAR => 0x49 | DUP => 0x4a | OVER => 0x4b
  | PICK => 0x4d | TUCK => 0x4e | SWAP => 0x50 | ROT => 0x51 | ROLL => 0x52
  | REVERSE3 => 0x53 | REVERSE4 => 0x54 | REVERSEN => 0x55 | INITSSLOT => 0x56
  | INITSLOT => 0x57 | LDSFLD0 => 0x58 | LDSFLD1 => 0x59 | LDSFLD2 => 0x5a
  | LDSFLD3 => 0x5b | LDSFLD4 => 0x5c | LDSFLD5 => 0x5d | LDSFLD6 => 0x5e | LDSFLD => 0x5f
  | STSFLD0 => 0x60 | STSFLD1 => 0x61 | STSFLD2 => 0x62 | STSFLD3 => 0x63 | STSFLD4 => 0x64
  | STSFLD5 => 0x65 | STSFLD6 => 0x66 | STSFLD => 0x67 | LDLOC0 => 0x68 | LDLOC1 => 0x69
  | LDLOC2 => 0x6a | LDLOC3 => 0x6b | LDLOC4 => 0x6c | LDLOC5 => 0x6d | LDLOC6 => 0x6e
  | LDLOC => 0x6f | STLOC0 => 0x70 | STLOC1 => 0x71 | STLOC2 => 0x72 | STLOC3 => 0x73
  | STLOC4 => 0x74 | STLOC5 => 0x75 | STLOC6 => 0x76 | STLOC => 0x77 | LDARG0 => 0x78
  | LDARG1 => 0x79 | LDARG2 => 0x7a | LDARG3 => 0x7b | LDARG4 => 0x7c | LDARG5 => 0x7d
  | LDARG6 => 0x7e | LDARG => 0x7f | STARG0 => 0x80 | STARG1 => 0x81 | STARG2 => 0x82
  | STARG3 => 0x83 | STARG4 => 0x84 | STARG5 => 0x85 | STARG6 => 0x86 | STARG => 0x87
  | NEWBUFFER => 0x88 | MEMCPY => 0x89 | CAT => 0x8b | SUBSTR => 0x8c | LEFT => 0x8d
  | RIGHT => 0x8e | INVERT => 0x90 | AND => 0x91 | OR => 0x92 | XOR => 0x93 | EQUAL => 0x97
  | NOTEQUAL => 0x98 | SIGN => 0x99 | ABS => 0x9a | NEGATE => 0x9b | INC => 0x9c
  | DEC => 0x9d | ADD => 0x9e | SUB => 0x9f | MUL => 0xa0 | DIV => 0xa1 | MOD => 0xa2
  | SHL => 0xa8 | SHR => 0xa9 | NOT => 0xaa | BOOLAND => 0xab | BOOLOR => 0xac | NZ => 0xb1
  | NUMEQUAL => 0xb3 | NUMNOTEQUAL => 0xb4 | LT => 0xb5 | LE => 0xb6 | GT => 0xb7
  | GE => 0xb8 | MIN => 0xb9 | MAX => 0xba | WITHIN => 0xbb | PACK => 0xc0 | UNPACK => 0xc1
  | NEWARRAY0 => 0xc2 | NEWARRAY => 0xc3 | NEWARRAY_T => 0xc4 | NEWSTRUCT0 => 0xc5
  | NEWSTRUCT => 0xc6 | NEWMAP => 0xc8 | SIZE => 0xca | HASKEY => 0xcb | KEYS => 0xcc
  | VALUES => 0xcd | PICKITEM => 0xce | APPEND => 0xcf | SETITEM => 0xd0
  | REVERSEITEMS => 0xd1 | REMOVE => 0xd2 | CLEARITEMS => 0xd3 | ISNULL => 0xd8
  | ISTYPE => 0xd9 | CONVERT => 0xdb
  end.

(** The members in declaration order. *)
Definition members : list Opcode :=
  [PUSHINT8; PUSHINT16; PUSHINT32; PUSHINT64; PUSHINT128; PUSHINT256; PUSHA; PUSHNULL
   ; PUSHDATA1; PUSHDATA2; PUSHDATA4; PUSHM1; PUSH0; PUSH1; PUSH2; PUSH3; PUSH4; PUSH5
   ; PUSH6; PUSH7; PUSH8; PUSH9; PUSH10; PUSH11; PUSH12; PUSH13; PUSH14; PUSH15; PUSH16; NOP
   ; JMP; JMP_L; JMPIF; JMPIF_L; JMPIFNOT; JMPIFNOT_L; JMPEQ; JMPEQ_L; JMPNE; JMPNE_L; JMPGT
   ; JMPGT_L; JMPGE; JMPGE_L; JMPLT; JMPLT_L; JMPLE; JMPLE_L; CALL; CALL_L; CALLA; ABORT
   ; ASSERT; THROW; TRY; TRY_L; ENDTRY; ENDTRY_L; ENDFINALLY; RET; SYSCALL; DEPTH; DROP; NIP
   ; XDROP; CLEAR; DUP; OVER; PICK; TUCK; SWAP; ROT; ROLL; REVERSE3; REVERSE4; REVERSEN
   ; INITSSLOT; INITSLOT; LDSFLD0; LDSFLD1; LDSFLD2; LDSFLD3; LDSFLD4; LDSFLD5; LDSFLD6
   ; LDSFLD; STSFLD0; STSFLD1; STSFLD2; STSFLD3; STSFLD4; STSFLD5; STSFLD6; STSFLD; LDLOC0
   ; LDLOC1; LDLOC2; LDLOC3; LDLOC4; LDLOC5; LDLOC6; LDLOC; STLOC0; STLOC1; STLOC2; STLOC3
   ; STLOC4; STLOC5; STLOC6; STLOC; LDARG0; LDARG1; LDARG2; LDARG3; LDARG4; LDARG5; LDARG6
   ; LDARG; STARG0; STARG1; STARG2; STARG3; STARG4; STARG5; STARG6; STARG; NEWBUFFER; MEMCPY
   ; CAT; SUBSTR; LEFT; RIGHT; INVERT; AND; OR; XOR; EQUAL; NOTEQUAL; SIGN; ABS; NEGATE; INC
   ; DEC; ADD; SUB; MUL; DIV; MOD; SHL; SHR; NOT; BOOLAND; BOOLOR; NZ; NUMEQUAL; NUMNOTEQUAL
   ; LT; LE; GT; GE; MIN; MAX; WITHIN; PACK; UNPACK; NEWARRAY0; NEWARRAY; NEWARRAY_T
   ; NEWSTRUCT0; NEWSTRUCT; NEWMAP; SIZE; HASKEY; KEYS; VALUES; PICKITEM; APPEND; SETITEM
   ; REVERSEITEMS; REMOVE; CLEARITEMS; ISNULL; ISTYPE; CONVERT].

(** The value of a member: a [bytes] object of length one. *)
Definition value (o : Opcode) : list Z := [byte_of o].

Definition bytes_eqb (a b : list Z) : bool :=
  if list_eq_dec Z.eq_dec a b then true else false.

(** [Opcode(bts)]: the enumeration's lookup by value.  It returns the first
    member declared with that value and raises [ValueError] when there is
    none. *)
Definition of_value (bts : list Z) : result PyException Opcode :=
  match find (fun o => bytes_eqb (value o) bts) members with
  | Some o => Returns o
  | None => Raises ValueError
  end.

Section Integer.

(** [boa3.neo.vm.type.Integer] is not part of the modelled sources: its two
    conversions are parameters of [get_literal_push]. *)
Variable Integer_from_bytes : list Z -> Z.
Variable Integer_to_byte_array : Z -> list Z.

(** [Opcode.get_literal_push(integer)] *)
Definition get_literal_push (integer : Z) : result PyException (option Opcode) :=
  if (-1 <=? integer) && (integer <=? 16) then
    let opcode_value := Integer_from_bytes (value PUSH0) + integer in
    match of_value (Integer_to_byte_array opcode_value) with
    | Returns o => Returns (Some o)
    | Raises e => Raises e
    end
  else Returns None.

(** [a == b] on members: they are [bytes] objects, compared by value. *)
Definition eqb (a b : Opcode) : bool := bytes_eqb (value a) (value b).

(** [self in members] *)
Definition member_of (self : Opcode) (members : list Opcode) : bool :=
  existsb (eqb self) members.

(** [Opcode.is_small_jump] *)
Definition is_small_jump (self : Opcode) : bool :=
  member_of self [JMP; JMPIF; JMPIFNOT; JMPEQ; JMPNE; JMPGT; JMPGE; JMPLT; JMPLE].

(** [Opcode.is_large_jump] *)
Definition is_large_jump (self : Opcode) : bool :=
  member_of self
    [JMP_L; JMPIF_L; JMPIFNOT_L; JMPEQ_L; JMPNE_L; JMPGT_L; JMPGE_L; JMPLT_L; JMPLE_L].

(** [Opcode.get_large_jump()] *)
Definition get_large_jump (self : Opcode) : result PyException (option Opcode) :=
  if is_large_jump self then Returns (Some self)
  else if is_small_jump self then
    let opcode_value := Integer_from_bytes (value self) + 1 in
    match of_value (Integer_to_byte_array opcode_value) with
    | Returns o => Returns (Some o)
    | Raises e => Raises e
    end
  else Returns None.

(** [Opcode.get_store(index, local, is_arg)] *)
Definition get_store (index : Z) (local is_arg : bool) : result PyException Opcode :=
  let is_arg := if negb local then false else is_arg in
  if (0 <=? index) && (index <=? 6) then
    let opcode_value :=
      if is_arg then Integer_from_bytes (value STARG0) + index
      else if local then Integer_from_bytes (value STLOC0) + index
      else Integer_from_bytes (value STSFLD0) + index in
    of_value (Integer_to_byte_array opcode_value)
  else
    if is_arg then Returns STARG
    else if local then Returns STLOC
    else Returns STSFLD.

(** [Opcode.get_load(index, local, is_arg)] *)
Definition get_load (index : Z) (local is_arg : bool) : result PyException Opcode :=
  let is_arg := if negb local then false else is_arg in
  if (0 <=? index) && (index <=? 6) then
    let opcode_value :=
      if is_arg then Integer_from_bytes (value LDARG0) + index
      else if local then Integer_from_bytes (value LDLOC0) + index
      else Integer_from_bytes (value LDSFLD0) + index in
    of_value (Integer_to_byte_array opcode_value)
  else
    if is_arg then Returns LDARG
    else if local then Returns LDLOC
    else Returns LDSFLD.

End Integer.

(** A little-endian, unsigned reading of [Integer]'s conversions, used to
    run [get_literal_push] on concrete inputs. *)
Fixpoint le_from_bytes (bts : list Z) : Z :=
  match bts with
  | [] => 0
  | b :: rest => b + 256 * le_from_bytes rest
  end.

Fixpoint le_to_bytes_pos (fuel : nat) (n : Z) : list Z :=
  match fuel with
  | O => []
  | S fuel' => if n <=? 0 then [] else (n mod 256) :: le_to_bytes_pos fuel' (n / 256)
  end.

Definition le_to_byte_array (n : Z) : list Z :=
  le_to_bytes_pos (Z.to_nat (Z.log2_up (n + 1))) n.

End Opcode.

(** ** The type lattice (boa3/model/type) *)

(** Modelled from the spec: the built-in type descriptors of
    boa3/model/type/type.py, which holds them as singletons ([Type.int],
    [Type.bool], [Type.str], [Type.none]); a sequence type carries its
    value type and the type of its keys. *)
Inductive IType : Set :=
| Type_int
| Type_bool
| Type_str
| Type_none
| SequenceType (identifier : string) (value_type valid_key : IType).

(** [IType.identifier] *)
Definition identifier (t : IType) : string :=
  match t with
  | Type_int => "int"
  | Type_bool => "bool"
  | Type_str => "str"
  | Type_none => "none"
  | SequenceType id _ _ => id
  end.

Definition IType_eq_dec (a b : IType) : {a = b} + {a <> b}.
Proof. decide equality; apply string_dec. Defined.

(** [a == b] and [a is b] on type descriptors. *)
Definition IType_eqb (a b : IType) : bool :=
  if IType_eq_dec a b then true else false.

(** Modelled from the spec: [SequenceType.is_valid_key] of
    boa3/model/type/sequencetype.py, true iff the type matches the declared
    key type of the sequence. *)
Definition is_valid_key (valid_key index_type : IType) : bool :=
  IType_eqb index_type valid_key.

(** ** Operators and operations (boa3/model/operation) *)

Module Operator.

(** Modelled from the spec: the members of the enumeration [Operator] of
    boa3/model/operation/operator.py. *)
Inductive t : Set :=
| Plus | Minus | Mult | IntDiv | Mod
| Eq | NotEq | Lt | LtE | Gt | GtE | Is | IsNot
| And | Or | Not
| Subscript.

Definition eq_dec (a b : t) : {a = b} + {a <> b}.
Proof. decide equality. Defined.

Definition eqb (a b : t) : bool := if eq_dec a b then true else false.

End Operator.

Module BinaryOperation.

(** Modelled from the spec: an instance of a subclass of
    [BinaryOperation] (boa3/model/operation/binary/binaryoperation.py), with
    the attributes concat.py and typeanalyser.py use.  [cls] is the name of
    the subclass, [validate_type] takes the tuple of operand types. *)
Record t : Type := Build {
  cls : string;
  operator : Operator.t;
  left_type : IType;
  right_type : IType;
  result : IType;
  validate_type : list IType -> bool;
  opcode : option Opcode.Opcode;
  is_supported : bool
}.

End BinaryOperation.

Module UnaryOperation.

(** Modelled from the spec: an instance of a subclass of [UnaryOperation]
    (boa3/model/operation/unary/unaryoperation.py). *)
Record t : Type := Build {
  cls : string;
  operator : Operator.t;
  operand_type : IType;
  result : IType;
  validate_type : list IType -> bool;
  opcode : option Opcode.Opcode;
  is_supported : bool
}.

End UnaryOperation.

(** *** boa3/model/operation/binary/arithmetic/concat.py *)

Module Concat.

Definition _valid_types : list IType := [Type_str].

(** A binary operation has two operands. *)
Definition _get_number_of_operands : nat := 2.

(** [Concat.validate_type], applied to the tuple [types] *)
Definition validate_type (types : list IType) : bool :=
  if negb (Nat.eqb (List.length types) _get_number_of_operands) then false
  else
    match types with
    | types_0 :: types_1 :: _ =>
        let left := types_0 in
        let right := types_1 in
        IType_eqb left right && existsb (IType_eqb left) _valid_types
    | _ => false
    end.

(** [Concat._get_result(left, right)] *)
Definition _get_result (left right : IType) : IType :=
  if validate_type [left; right] then left else Type_none.

(** [Concat.is_supported] *)
Definition is_supported : bool := false.

(** [Concat.opcode] *)
Definition opcode : option Opcode.Opcode := Some Opcode.CAT.

(** [Concat(left, right)]: the operator is [Operator.Plus]; the constructor
    of [BinaryOperation] stores the operand types and the result computed by
    [_get_result]. *)
Definition init (left right : IType) : BinaryOperation.t :=
  {| BinaryOperation.cls := "Concat";
     BinaryOperation.operator := Operator.Plus;
     BinaryOperation.left_type := left;
     BinaryOperation.right_type := right;
     BinaryOperation.result := _get_result left right;
     BinaryOperation.validate_type := validate_type;
     BinaryOperation.opcode := opcode;
     BinaryOperation.is_supported := is_supported |}.

(** [Concat()], with the default operand types. *)
Definition default : BinaryOperation.t := init Type_str Type_str.

End Concat.

(** *** The operation registries *)

Module BinaryOp.

(** Modelled from the spec: [BinaryOp.validate_type(operator, left, right)]
    of boa3/model/operation/binaryop.py iterates the operations registered
    under the operator and returns the first whose [validate_type] holds. *)
Definition validate_type (table : list BinaryOperation.t)
  (operator : Operator.t) (left right : IType) : option BinaryOperation.t :=
  find (fun op => Operator.eqb (BinaryOperation.operator op) operator
                  && BinaryOperation.validate_type op [left; right]) table.

(** Modelled from the spec: [BinaryOp.get_operation_by_operator(operator)]
    returns the first operation registered under the operator. *)
Definition get_operation_by_operator (table : list BinaryOperation.t)
  (operator : Operator.t) : option BinaryOperation.t :=
  find (fun op => Operator.eqb (BinaryOperation.operator op) operator) table.

End BinaryOp.

Module UnaryOp.

(** Modelled from the spec: [UnaryOp.validate_type(operator, operand)] of
    boa3/model/operation/unaryop.py, the unary counterpart of
    [BinaryOp.validate_type]. *)
Definition validate_type (table : list UnaryOperation.t)
  (operator : Operator.t) (operand : IType) : option UnaryOperation.t :=
  find (fun op => Operator.eqb (UnaryOperation.operator op) operator
                  && UnaryOperation.validate_type op [operand]) table.

(** Modelled from the spec: [UnaryOp.get_operation_by_operator(operator)]. *)
Definition get_operation_by_operator (table : list UnaryOperation.t)
  (operator : Operator.t) : option UnaryOperation.t :=
  find (fun op => Operator.eqb (UnaryOperation.operator op) operator) table.

End UnaryOp.

(** ** Symbols (boa3/model) *)

(** A Python [dict] with string keys, in insertion order. *)
Definition dict (V : Type) : Type := list (string * V).

Fixpoint dict_get {V : Type} (d : dict V) (key : string) : option V :=
  match d with
  | [] => None
  | (k, v) :: rest => if String.eqb k key then Some v else dict_get rest key
  end.

(** [key in d] *)
Definition dict_contains {V : Type} (d : dict V) (key : string) : bool :=
  match dict_get d key with Some _ => true | None => false end.

(** [d[key] = v]: the value of an existing key is replaced in place, a new
    key is appended. *)
Fixpoint dict_set {V : Type} (d : dict V) (key : string) (v : V) : dict V :=
  match d with
  | [] => [(key, v)]
  | (k, v0) :: rest =>
      if String.eqb k key then (k, v) :: rest else (k, v0) :: dict_set rest key v
  end.

(** [d.update(other)] *)
Definition dict_update {V : Type} (d other : dict V) : dict V :=
  fold_left (fun acc kv => dict_set acc (fst kv) (snd kv)) other d.

(** [d.values()] *)
Definition dict_values {V : Type} (d : dict V) : list V := map snd d.

(** Modelled from the spec: the symbols of boa3/model.  A symbol is a
    type, a typed expression (a variable), a method or a module.  A
    variable, a method and a module are objects compared by identity:
    [oid] stands for the identity of the object.  There is one object per
    type. *)
Inductive Symbol : Type :=
| SymType (t : IType)
| SymExpression (oid : nat) (type : IType)
| SymMethod (m : Method)
| SymModule (m : Module_)
with Method : Type :=
| Build_Method (oid : nat) (return_type : IType) (symbols : list (string * Symbol))
with Module_ : Type :=
| Build_Module (oid : nat) (symbols : list (string * Symbol)).

Definition Method_oid (m : Method) : nat :=
  let 'Build_Method oid _ _ := m in oid.
Definition Method_return_type (m : Method) : IType :=
  let 'Build_Method _ return_type _ := m in return_type.
Definition Method_symbols (m : Method) : dict Symbol :=
  let 'Build_Method _ _ symbols := m in symbols.
Definition Module_oid (m : Module_) : nat :=
  let 'Build_Module oid _ := m in oid.
Definition Module_symbols (m : Module_) : dict Symbol :=
  let 'Build_Module _ symbols := m in symbols.

(** Modelled from the spec: the attribute [symbols] of a symbol.  A method
    and a module have it; a type ([IType], boa3/model/type/itype.py) and a
    variable do not, and reading it raises [AttributeError], here [None]. *)
Definition Symbol_symbols (s : Symbol) : option (dict Symbol) :=
  match s with
  | SymMethod m => Some (Method_symbols m)
  | SymModule m => Some (Module_symbols m)
  | SymType _ | SymExpression _ _ => None
  end.

(** Modelled from the spec: the attribute [return_type] of a symbol.  Only
    a method has it; for any other symbol reading it raises
    [AttributeError], here [None]. *)
Definition Symbol_return_type (s : Symbol) : option IType :=
  match s with
  | SymMethod m => Some (Method_return_type m)
  | SymType _ | SymExpression _ _ | SymModule _ => None
  end.

(** ** Compiler errors (boa3/exception/CompilerError.py) *)

Module CompilerError.

(** What a [NotSupportedOperation] names: an operator or a description. *)
Inductive symbol : Set :=
| OfOperator (operator : Operator.t)
| OfText (text : string).

(** Modelled from the spec: the error classes of
    boa3/exception/CompilerError.py, each with the line and column it is
    built with.  The classes are siblings: none is a subclass of another.
    [args] of [MismatchedTypes] holds the positional arguments the exception
    was built with after the line and the column, that is [args[2:]] of the
    Python exception: the expected and actual types when they are passed by
    position, nothing when they are passed by keyword. *)
Inductive t : Set :=
| TypeHintMissing (line col : Z) (symbol_id : option string)
| InvalidType (line col : Z) (symbol_id : string)
| NotSupportedOperation (line col : Z) (symbol_id : symbol)
| UnresolvedReference (line col : Z) (symbol_id : string)
| UnresolvedOperation (line col : Z) (type_id : string) (operation_id : Operator.t)
| MismatchedTypes (line col : Z) (expected_type_id actual_type_id : string)
    (args : list string)
| TooManyReturns (line col : Z)
| IncorrectNumberOfOperands (line col : Z) (expected_count actual_count : Z).

(** [MismatchedTypes(line, col, expected, actual)] *)
Definition MismatchedTypes_positional (line col : Z) (expected actual : string) : t :=
  MismatchedTypes line col expected actual [expected; actual].

(** [MismatchedTypes(line, col, actual_type_id=.., expected_type_id=..)] *)
Definition MismatchedTypes_keywords (line col : Z) (actual expected : string) : t :=
  MismatchedTypes line col expected actual [].

End CompilerError.

(** What a visitor can raise. *)
Inductive exn : Set :=
| CompilerErr (error : CompilerError.t)
| Builtin (e : PyException).

(** ** The syntax tree (Python's [ast] module) *)

Module ast.

(** The operator classes of Python's [ast]: binary, unary, comparison and
    boolean operator tokens. *)
Inductive operator : Set :=
| Add | Sub | Mult | MatMult | Div | Mod | Pow
| LShift | RShift | BitOr | BitXor | BitAnd | FloorDiv
| Invert | Not | UAdd | USub
| Eq | NotEq | Lt | LtE | Gt | GtE | Is | IsNot | In | NotIn
| And | Or.

(** [type(op).__name__] *)
Definition class_name (o : operator) : string :=
  match o with
  | Add => "Add" | Sub => "Sub" | Mult => "Mult" | MatMult => "MatMult"
  | Div => "Div" | Mod => "Mod" | Pow => "Pow" | LShift => "LShift"
  | RShift => "RShift" | BitOr => "BitOr" | BitXor => "BitXor"
  | BitAnd => "BitAnd" | FloorDiv => "FloorDiv" | Invert => "Invert"
  | Not => "Not" | UAdd => "UAdd" | USub => "USub" | Eq => "Eq"
  | NotEq => "NotEq" | Lt => "Lt" | LtE => "LtE" | Gt => "Gt" | GtE => "GtE"
  | Is => "Is" | IsNot => "IsNot" | In => "In" | NotIn => "NotIn"
  | And => "And" | Or => "Or"
  end.

(** The operator slot of a node ([bin_op.op], [un_op.op], [compare.ops[i]],
    [bool_op.op]).  The parser fills it with an operator token; the analyser
    overwrites it with the resolved operation ([None] for a boolean
    operation without a resolved pair); a member of [Operator] is what
    [get_operator] documents as an already visited node. *)
Inductive op_slot : Type :=
| Token (o : operator)
| OperatorMember (o : Operator.t)
| BinaryResolved (operation : BinaryOperation.t)
| UnaryResolved (operation : UnaryOperation.t)
| NoneSlot.

(** The value of a number literal: [int], [float] or [complex]. *)
Inductive number : Set :=
| NInt (n : Z)
| NFloat (literal : string)
| NComplex (literal : string).

(** The value of a [NameConstant]. *)
Inductive constant : Set := CTrue | CFalse | CNone.

(** Expressions.  [Subscript lineno col_offset value index] stands for
    [Subscript(value, slice=Index(index))]: [visit_Index] returns the walk
    of its child. *)
Inductive expr : Type :=
| Num (lineno col_offset : Z) (n : number)
| Str (lineno col_offset : Z) (s : string)
| NameConstant (lineno col_offset : Z) (value : constant)
| Name (lineno col_offset : Z) (id : string)
| Tuple (lineno col_offset : Z) (elts : list expr)
| Subscript (lineno col_offset : Z) (value index : expr)
| IfExp (lineno col_offset : Z) (test body orelse : expr)
| BinOp (lineno col_offset : Z) (left : expr) (op : op_slot) (right : expr)
| UnaryOp (lineno col_offset : Z) (op : op_slot) (operand : expr)
| Compare (lineno col_offset : Z) (left : expr) (ops : list op_slot)
    (comparators : list expr)
| BoolOp (lineno col_offset : Z) (op : op_slot) (values : list expr).

Definition lineno (e : expr) : Z :=
  match e with
  | Num l _ _ | Str l _ _ | NameConstant l _ _ | Name l _ _ | Tuple l _ _
  | Subscript l _ _ _ | IfExp l _ _ _ _ | BinOp l _ _ _ _ | UnaryOp l _ _ _
  | Compare l _ _ _ _ | BoolOp l _ _ _ => l
  end.

Definition col_offset (e : expr) : Z :=
  match e with
  | Num _ c _ | Str _ c _ | NameConstant _ c _ | Name _ c _ | Tuple _ c _
  | Subscript _ c _ _ | IfExp _ c _ _ _ | BinOp _ c _ _ _ | UnaryOp _ c _ _
  | Compare _ c _ _ _ | BoolOp _ c _ _ => c
  end.

(** [isinstance(e, ast.Tuple)] *)
Definition is_Tuple (e : expr) : bool :=
  match e with Tuple _ _ _ => true | _ => false end.

(** A formal argument of a function, [ast.arg]. *)
Record arg : Type := Build_arg {
  arg_lineno : Z;
  arg_col_offset : Z;
  arg_name : string;
  annotation : option expr
}.

(** Statements.  [args] of a [FunctionDef] is the list [arguments.args]. *)
Inductive stmt : Type :=
| FunctionDef (lineno col_offset : Z) (name : string) (args : list arg)
    (body : list stmt)
| Return (lineno col_offset : Z) (value : option expr)
| Assign (lineno col_offset : Z) (targets : list expr) (value : expr)
| While (lineno col_offset : Z) (test : expr) (body orelse : list stmt)
| If (lineno col_offset : Z) (test : expr) (body orelse : list stmt)
| Expr (value : expr)
| Pass
| Break
| Continue.

(** [isinstance(s, ast.If)] *)
Definition is_If (s : stmt) : bool :=
  match s with If _ _ _ _ _ => true | _ => false end.

(** [ast.Module], by its body. *)
Definition Module : Type := list stmt.

End ast.

(** ** Values *)

(** The values the visitors hand to each other ([Any]): literals, a tuple
    of element nodes, a [Name] node (by its id) and symbols. *)
Inductive value : Type :=
| VNone
| VBool (b : bool)
| VInt (n : Z)
| VFloat (literal : string)
| VComplex (literal : string)
| VStr (s : string)
| VTuple (elts : list ast.expr)
| VName (id : string)
| VSymbol (s : Symbol).

(** A type descriptor as a value. *)
Definition VType (t : IType) : value := VSymbol (SymType t).

(** An optional type as a value ([None] or the type). *)
Definition value_of_type (t : option IType) : value :=
  match t with Some t => VType t | None => VNone end.

(** An optional symbol as a value. *)
Definition value_of_symbol (s : option Symbol) : value :=
  match s with Some s => VSymbol s | None => VNone end.

(** The classes of the values, as far as the analyser tells them apart. *)
Inductive PyClass : Set :=
| cls_NoneType | cls_bool | cls_int | cls_float | cls_complex | cls_str
| cls_tuple | cls_Name | cls_IType | cls_Expression | cls_Method | cls_Module.

Definition PyClass_eq_dec (a b : PyClass) : {a = b} + {a <> b}.
Proof. decide equality. Defined.

Definition PyClass_eqb (a b : PyClass) : bool :=
  if PyClass_eq_dec a b then true else false.

(** [type(v)] *)
Definition type_of (v : value) : PyClass :=
  match v with
  | VNone => cls_NoneType
  | VBool _ => cls_bool
  | VInt _ => cls_int
  | VFloat _ => cls_float
  | VComplex _ => cls_complex
  | VStr _ => cls_str
  | VTuple _ => cls_tuple
  | VName _ => cls_Name
  | VSymbol (SymType _) => cls_IType
  | VSymbol (SymExpression _ _) => cls_Expression
  | VSymbol (SymMethod _) => cls_Method
  | VSymbol (SymModule _) => cls_Module
  end.

(** *** boa3/model/type/inttype.py *)

Module IntType.

(** [IntType.is_type_of(value)]: [type(value) == int] *)
Definition is_type_of (v : value) : bool := PyClass_eqb (type_of v) cls_int.

(** [IntType.build(value)]: [Type.int] or [None] *)
Definition build (v : value) : option IType :=
  if is_type_of v then Some Type_int else None.

End IntType.

(** Modelled from the spec: [Type.get_type(value)] of
    boa3/model/type/type.py returns the built-in type whose [is_type_of]
    accepts the value and falls back to [Type.none].  The integer case is
    [IntType.build]; the boolean and string types accept the values of
    class [bool] and [str]. *)
Definition Type_get_type (v : value) : IType :=
  match IntType.build v with
  | Some t => t
  | None =>
      match type_of v with
      | cls_bool => Type_bool
      | cls_str => Type_str
      | _ => Type_none
      end
  end.

(** ** boa3/analyser/astanalyser.py and boa3/analyser/typeanalyser.py *)

Module TypeAnalyser.

(** The analyser object: the fields the walk reads and writes. *)
Record t : Type := Build {
  errors : list CompilerError.t;
  modules : dict Module_;
  symbols : dict Symbol;
  current_method : option Symbol
}.

Definition set_errors (self : t) (errors' : list CompilerError.t) : t :=
  Build errors' (modules self) (symbols self) (current_method self).

Definition set_current_method (self : t) (m : option Symbol) : t :=
  Build (errors self) (modules self) (symbols self) m.

(** [IAstAnalyser.has_errors] *)
Definition has_errors (self : t) : bool :=
  Nat.ltb 0 (List.length (errors self)).

(** What a visitor yields besides the walked node: the analyser after the
    call and the value returned or the exception raised. *)
Definition outcome : Type := t * result exn value.

(** [TypeAnalyser._log_error(error)]: append, then raise. *)
Definition _log_error (self : t) (error : CompilerError.t) : outcome :=
  (set_errors self (errors self ++ [error]), Raises (CompilerErr error)).

(** The table [TypeAnalyser.__operators]. *)
Definition __operators (node_type : ast.operator) : option Operator.t :=
  match node_type with
  | ast.Add => Some Operator.Plus
  | ast.Sub => Some Operator.Minus
  | ast.Mult => Some Operator.Mult
  | ast.FloorDiv => Some Operator.IntDiv
  | ast.Mod => Some Operator.Mod
  | ast.UAdd => Some Operator.Plus
  | ast.USub => Some Operator.Minus
  | ast.Eq => Some Operator.Eq
  | ast.NotEq => Some Operator.NotEq
  | ast.Lt => Some Operator.Lt
  | ast.LtE => Some Operator.LtE
  | ast.Gt => Some Operator.Gt
  | ast.GtE => Some Operator.GtE
  | ast.Is => Some Operator.Is
  | ast.IsNot => Some Operator.IsNot
  | ast.And => Some Operator.And
  | ast.Or => Some Operator.Or
  | ast.Not => Some Operator.Not
  | _ => None
  end.

(** [TypeAnalyser.get_operator(node)]: a member of [Operator] is returned
    as it is; otherwise the class of the node is looked up in
    [__operators].  The class of an operation or of [None] is not a key of
    that table. *)
Definition get_operator (node : ast.op_slot) : option Operator.t :=
  match node with
  | ast.OperatorMember o => Some o
  | ast.Token node_type => __operators node_type
  | ast.BinaryResolved _ | ast.UnaryResolved _ | ast.NoneSlot => None
  end.

(** [type(node).__name__] of the content of an operator slot. *)
Definition slot_class_name (node : ast.op_slot) : string :=
  match node with
  | ast.Token o => ast.class_name o
  | ast.OperatorMember _ => "Operator"
  | ast.BinaryResolved operation => BinaryOperation.cls operation
  | ast.UnaryResolved operation => UnaryOperation.cls operation
  | ast.NoneSlot => "NoneType"
  end.

(** [x == m] for a value [x] of the symbol table and a method [m]:
    methods are compared by identity. *)
Definition Symbol_is_method (m : Method) (s : Symbol) : bool :=
  match s with
  | SymMethod m' => Nat.eqb (Method_oid m') (Method_oid m)
  | _ => false
  end.

(** [x == current] for a value [x] of the symbol table and the object
    [current] held by [__current_method], which is whatever symbol
    [visit_FunctionDef] found under the name of the function. *)
Definition Symbol_is (current : Symbol) (s : Symbol) : bool :=
  match current with
  | SymMethod m => Symbol_is_method m s
  | SymType t =>
      match s with SymType t' => IType_eqb t' t | _ => false end
  | SymExpression oid _ =>
      match s with SymExpression oid' _ => Nat.eqb oid' oid | _ => false end
  | SymModule m =>
      match s with
      | SymModule m' => Nat.eqb (Module_oid m') (Module_oid m)
      | _ => false
      end
  end.

(** [TypeAnalyser.__current_method_id]: the key of the first value of
    [symbols] that is the current method, [None] when there is none. *)
Definition __current_method_id (self : t) : option string :=
  match current_method self with
  | None => None
  | Some current =>
      match find (fun kv => Symbol_is current (snd kv)) (symbols self) with
      | Some (key, _) => Some key
      | None => None
      end
  end.

(** [self.__current_method.return_type] as [visit_Return] reads it:
    [None] stands for the [AttributeError] raised when there is no current
    method ([None] has no such attribute) or when the current method is a
    symbol without that attribute. *)
Definition current_return_type (self : t) : option IType :=
  match current_method self with
  | None => None
  | Some current => Symbol_return_type current
  end.

(** [TypeAnalyser.__modules_symbols]: the symbols of the modules, merged
    in the order of [modules]. *)
Definition __modules_symbols (self : t) : dict Symbol :=
  fold_left (fun symbols module => dict_update symbols (Module_symbols module))
    (dict_values (modules self)) [].

(** [TypeAnalyser.get_symbol(symbol_id)].  The first test reads
    [self.__current_method.symbols] whenever there is a current method:
    for a symbol without that attribute the call raises
    [AttributeError]. *)
Definition get_symbol (self : t) (symbol_id : string) : result exn (option Symbol) :=
  let outer :=
    if dict_contains (modules self) symbol_id then
      option_map SymModule (dict_get (modules self) symbol_id)
    else if dict_contains (symbols self) symbol_id then
      dict_get (symbols self) symbol_id
    else None in
  match current_method self with
  | None => Returns outer
  | Some current =>
      match Symbol_symbols current with
      | None => Raises (Builtin AttributeError)
      | Some local =>
          if dict_contains local symbol_id then Returns (dict_get local symbol_id)
          else Returns outer
      end
  end.

(** [self.get_symbol(name.id)] for a [Name] node, as [get_type] and
    [visit_Subscript] do for the value of a visit; any other value is kept
    ([isinstance(value, ast.Name)] fails). *)
Definition symbol_of_Name (self : t) (v : value) : result exn value :=
  match v with
  | VName id =>
      match get_symbol self id with
      | Returns symbol => Returns (value_of_symbol symbol)
      | Raises e => Raises e
      end
  | _ => Returns v
  end.

(** [IAstAnalyser.get_type(value)].  The only node among the values is a
    [Name], whose visit returns the node itself: its id is resolved with
    [get_symbol], which may raise.  A type is returned as it is, an
    expression gives its type, any other value goes to [Type.get_type]. *)
Definition get_type (self : t) (v : value) : result exn IType :=
  match symbol_of_Name self v with
  | Raises e => Raises e
  | Returns v =>
      Returns
        match v with
        | VSymbol (SymType type) => type
        | VSymbol (SymExpression _ type) => type
        | _ => Type_get_type v
        end
  end.

(** The format string of [get_bin_op]: a, a quote, a comma, a space, a
    quote, b. *)
Definition format_types (a b : string) : string :=
  (a ++ "', '" ++ b)%string.

Section Registry.

(** The tables of [BinaryOp] and [UnaryOp] are not part of the modelled
    sources: the analyser is parameterised by them. *)
Variable BinaryOp_table : list BinaryOperation.t.
Variable UnaryOp_table : list UnaryOperation.t.

(** [TypeAnalyser.get_bin_op(operator, right, left)]: the operation, or
    [MismatchedTypes(0, 0, expected, actual)] raised (not logged). *)
Definition get_bin_op (self : t) (operator : Operator.t) (right left : value)
  : result exn BinaryOperation.t :=
  match get_type self left with
  | Raises e => Raises e
  | Returns l_type =>
  match get_type self right with
  | Raises e => Raises e
  | Returns r_type =>
  let actual_types := format_types (identifier l_type) (identifier r_type) in
  match BinaryOp.validate_type BinaryOp_table operator l_type r_type with
  | Some operation => Returns operation
  | None =>
      match BinaryOp.get_operation_by_operator BinaryOp_table operator with
      | Some expected_op =>
          let expected_types :=
            format_types (identifier (BinaryOperation.left_type expected_op))
                         (identifier (BinaryOperation.right_type expected_op)) in
          Raises (CompilerErr
            (CompilerError.MismatchedTypes_positional 0 0 expected_types actual_types))
      | None => Raises (Builtin AttributeError)
      end
  end
  end
  end.

(** [TypeAnalyser.get_un_op(operator, operand)] *)
Definition get_un_op (self : t) (operator : Operator.t) (operand : value)
  : result exn UnaryOperation.t :=
  match get_type self operand with
  | Raises e => Raises e
  | Returns op_type =>
  let actual_type := identifier op_type in
  match UnaryOp.validate_type UnaryOp_table operator op_type with
  | Some operation => Returns operation
  | None =>
      match UnaryOp.get_operation_by_operator UnaryOp_table operator with
      | Some expected_op =>
          let expected_type := identifier (UnaryOperation.operand_type expected_op) in
          Raises (CompilerErr
            (CompilerError.MismatchedTypes_positional 0 0 expected_type actual_type))
      | None => Raises (Builtin AttributeError)
      end
  end
  end.

(** The handler [except CompilerError.MismatchedTypes as raised_error] of
    the operation visitors: the expected and actual types are read from
    [raised_error.args[2]] and [raised_error.args[3]] and the error is
    logged again with the given line and column.  Any other exception
    passes through. *)
Definition except_MismatchedTypes (line col : Z) (o : outcome) : outcome :=
  match o with
  | (self, Raises (CompilerErr (CompilerError.MismatchedTypes _ _ _ _ args))) =>
      match args with
      | expected_types :: actual_types :: _ =>
          _log_error self
            (CompilerError.MismatchedTypes_positional line col expected_types actual_types)
      | _ => (self, Raises (Builtin IndexError))
      end
  | _ => o
  end.

(** A visitor called for its effects only: the returned value is dropped
    ([generic_visit] returns [None]). *)
Definition discard (o : outcome) : outcome :=
  match o with
  | (self, Returns _) => (self, Returns VNone)
  | _ => o
  end.

(** [for node in nodes: self.visit(node)]: the nodes are walked in list
    order; the first exception ends the loop. *)
Definition visit_each {N : Type} (visit : t -> N -> N * outcome)
  : t -> list N -> list N * outcome :=
  fix each (self : t) (nodes : list N) {struct nodes} : list N * outcome :=
    match nodes with
    | [] => ([], (self, Returns VNone))
    | node :: rest =>
        let '(node', (self1, r)) := visit self node in
        match r with
        | Raises e => (node' :: rest, (self1, Raises e))
        | Returns _ =>
            let '(rest', o) := each self1 rest in
            (node' :: rest', o)
        end
    end.

(** [TypeAnalyser.visit_Num] *)
Definition visit_Num (self : t) (lineno col_offset : Z) (n : ast.number) : outcome :=
  match n with
  | ast.NInt z => (self, Returns (VInt z))
  | ast.NFloat _ =>
      _log_error self (CompilerError.InvalidType lineno col_offset "float")
  | ast.NComplex _ =>
      _log_error self (CompilerError.InvalidType lineno col_offset "complex")
  end.

(** [TypeAnalyser.visit_NameConstant] *)
Definition visit_NameConstant (c : ast.constant) : value :=
  match c with
  | ast.CTrue => VBool true
  | ast.CFalse => VBool false
  | ast.CNone => VNone
  end.

(** [isinstance(v, IType)] *)
Definition is_IType (v : value) : bool :=
  match v with VSymbol (SymType _) => true | _ => false end.

(** [TypeAnalyser.visit_Subscript], after the two children were walked
    (lines 221 to 250). *)
Definition check_Subscript (self : t) (lineno col_offset : Z) (value_ index : value)
  : outcome :=
  match symbol_of_Name self value_ with
  | Raises e => (self, Raises e)
  | Returns value_ =>
  match symbol_of_Name self index with
  | Raises e => (self, Raises e)
  | Returns index =>
  if is_IType value_ && is_IType index then (self, Returns value_)
  else
    match get_type self value_ with
    | Raises e => (self, Raises e)
    | Returns symbol_type =>
    match get_type self index with
    | Raises e => (self, Raises e)
    | Returns index_type =>
    match symbol_type with
    | SequenceType _ value_type valid_key =>
        if negb (is_valid_key valid_key index_type) then
          _log_error self
            (CompilerError.MismatchedTypes_keywords lineno col_offset
               (identifier index_type) (identifier valid_key))
        else (self, Returns (VType value_type))
    | _ =>
        _log_error self
          (CompilerError.UnresolvedOperation lineno col_offset
             (identifier symbol_type) Operator.Subscript)
    end
    end
    end
  end
  end.

(** The test of [visit_While] and [validate_if], after the test expression
    was walked: its type must be [Type.bool]. *)
Definition check_test (self : t) (lineno col_offset : Z) (test : value) : outcome :=
  match get_type self test with
  | Raises e => (self, Raises e)
  | Returns test_type =>
      if negb (IType_eqb test_type Type_bool) then
        _log_error self
          (CompilerError.MismatchedTypes_keywords lineno col_offset
             (identifier test_type) (identifier Type_bool))
      else (self, Returns VNone)
  end.

(** [TypeAnalyser.visit_BinOp], after the operands were walked (lines 333
    to 359).  The first component is the content of [bin_op.op] afterwards.
    [get_bin_op] returns an operation or raises, so the branch
    [operation is None] is never taken. *)
Definition resolve_BinOp (self : t) (lineno col_offset : Z) (op : ast.op_slot)
  (operator : option Operator.t) (r_operand l_operand : value)
  : ast.op_slot * outcome :=
  match operator with
  | None =>
      (op, _log_error self
             (CompilerError.UnresolvedReference lineno col_offset (slot_class_name op)))
  | Some operator =>
      let '(op', try_body) :=
        match get_bin_op self operator r_operand l_operand with
        | Raises e => (op, (self, Raises e))
        | Returns operation =>
            if negb (BinaryOperation.is_supported operation) then
              (op, _log_error self
                     (CompilerError.NotSupportedOperation lineno col_offset
                        (CompilerError.OfOperator operator)))
            else
              (ast.BinaryResolved operation,
               (self, Returns (VType (BinaryOperation.result operation))))
        end in
      (op', except_MismatchedTypes lineno col_offset try_body)
  end.

(** [TypeAnalyser.visit_UnaryOp], after the operand was walked (lines 398
    to 423). *)
Definition resolve_UnaryOp (self : t) (lineno col_offset : Z) (op : ast.op_slot)
  (operator : option Operator.t) (operand : value)
  : ast.op_slot * outcome :=
  match operator with
  | None =>
      (op, _log_error self
             (CompilerError.UnresolvedReference lineno col_offset (slot_class_name op)))
  | Some operator =>
      let '(op', try_body) :=
        match get_un_op self operator operand with
        | Raises e => (op, (self, Raises e))
        | Returns operation =>
            if negb (UnaryOperation.is_supported operation) then
              (op, _log_error self
                     (CompilerError.NotSupportedOperation lineno col_offset
                        (CompilerError.OfOperator operator)))
            else
              (ast.UnaryResolved operation,
               (self, Returns (VType (UnaryOperation.result operation))))
        end in
      (op', except_MismatchedTypes lineno col_offset try_body)
  end.

(** One turn of the loop of [visit_Compare], after the comparator was
    walked (lines 476 to 494): the content of [compare.ops[index]]
    afterwards and, when the turn completes, the new [return_type]. *)
Definition resolve_Compare (self : t) (line col : Z) (op : ast.op_slot)
  (r_operand l_operand : value) : ast.op_slot * outcome :=
  match get_operator op with
  | None =>
      (op, _log_error self
             (CompilerError.UnresolvedReference line col (slot_class_name op)))
  | Some operator =>
      match get_bin_op self operator r_operand l_operand with
      | Raises e => (op, (self, Raises e))
      | Returns operation =>
          if negb (BinaryOperation.is_supported operation) then
            (op, _log_error self
                   (CompilerError.NotSupportedOperation line col
                      (CompilerError.OfOperator operator)))
          else
            (ast.BinaryResolved operation,
             (self, Returns (VType (BinaryOperation.result operation))))
      end
  end.

(** One turn of the loop of [visit_BoolOp], after the operation was
    resolved (lines 540 to 542): only the first operation is recorded. *)
Definition record_BoolOp (return_type : value)
  (bool_operation : option BinaryOperation.t) (operation : BinaryOperation.t)
  : value * option BinaryOperation.t :=
  match bool_operation with
  | None => (VType (BinaryOperation.result operation), Some operation)
  | Some _ => (return_type, bool_operation)
  end.

(** The content of [bool_op.op] after [bool_op.op = bool_operation]. *)
Definition slot_of_operation (bool_operation : option BinaryOperation.t) : ast.op_slot :=
  match bool_operation with
  | Some operation => ast.BinaryResolved operation
  | None => ast.NoneSlot
  end.

(** The loop of [visit_Compare] (lines 472 to 498) over the operators and
    the comparators left to walk.  Besides the lists as the loop leaves
    them it yields the line and column the handler of the enclosing [try]
    reports with, and the outcome: the final [return_type] or the exception
    that ended the loop. *)
Definition loop_Compare (visit : t -> ast.expr -> ast.expr * outcome)
  : list ast.op_slot -> list ast.expr -> t -> Z -> Z -> value -> value ->
    list ast.op_slot * list ast.expr * (Z * Z) * outcome :=
  fix loop (ops : list ast.op_slot) (comparators : list ast.expr)
       (self : t) (line col : Z) (l_operand return_type : value)
       {struct comparators}
     : list ast.op_slot * list ast.expr * (Z * Z) * outcome :=
     match ops with
     | [] => (ops, comparators, (line, col), (self, Returns return_type))
     | op :: ops_rest =>
         match comparators with
         | [] =>
             (ops, comparators, (line, col),
              (self, Raises (Builtin IndexError)))
         | comparator :: comparators_rest =>
             let '(comparator', (self1, r1)) := visit self comparator in
             match r1 with
             | Raises e =>
                 (ops, comparator' :: comparators_rest, (line, col),
                  (self1, Raises e))
             | Returns r_operand =>
                 let '(op', (self2, r2)) :=
                   resolve_Compare self1 line col op r_operand l_operand in
                 match r2 with
                 | Raises e =>
                     (op' :: ops_rest, comparator' :: comparators_rest,
                      (line, col), (self2, Raises e))
                 | Returns return_type' =>
                     let '(ops_rest', comparators_rest', position, o) :=
                       loop ops_rest comparators_rest self2
                         (ast.lineno comparator) (ast.col_offset comparator)
                         r_operand return_type' in
                     (op' :: ops_rest', comparator' :: comparators_rest',
                      position, o)
                 end
             end
         end
     end.

(** The loop of [visit_BoolOp] (lines 532 to 546) over the operands after
    the first.  It also yields the recorded [bool_operation]. *)
Definition loop_BoolOp (visit : t -> ast.expr -> ast.expr * outcome)
  (operator : Operator.t)
  : list ast.expr -> t -> Z -> Z -> value -> value -> option BinaryOperation.t ->
    list ast.expr * (Z * Z) * option BinaryOperation.t * outcome :=
  fix loop (operands : list ast.expr) (self : t) (line col : Z)
       (l_operand return_type : value)
       (bool_operation : option BinaryOperation.t)
       {struct operands}
     : list ast.expr * (Z * Z) * option BinaryOperation.t * outcome :=
     match operands with
     | [] =>
         ([], (line, col), bool_operation, (self, Returns return_type))
     | operand :: operands_rest =>
         let '(operand', (self1, r1)) := visit self operand in
         match r1 with
         | Raises e =>
             (operand' :: operands_rest, (line, col), bool_operation,
              (self1, Raises e))
         | Returns r_operand =>
             match get_bin_op self1 operator r_operand l_operand with
             | Raises e =>
                 (operand' :: operands_rest, (line, col),
                  bool_operation, (self1, Raises e))
             | Returns operation =>
                 let '(return_type', bool_operation') :=
                   record_BoolOp return_type bool_operation operation in
                 let '(operands_rest', position, recorded, o) :=
                   loop operands_rest self1
                     (ast.lineno operand) (ast.col_offset operand)
                     r_operand return_type' bool_operation' in
                 (operand' :: operands_rest', position, recorded, o)
             end
         end
     end.

(** The visitors of the expression nodes.  Each returns the node as the
    walk leaves it (operator slots are overwritten in place) with the
    outcome.  The two loops are [loop_Compare] and [loop_BoolOp]. *)
Fixpoint visit (self : t) (node : ast.expr) {struct node} : ast.expr * outcome :=
  match node with
  | ast.Num lineno col_offset n =>
      (node, visit_Num self lineno col_offset n)
  | ast.Str _ _ s =>
      (node, (self, Returns (VStr s)))
  | ast.NameConstant _ _ c =>
      (node, (self, Returns (visit_NameConstant c)))
  | ast.Name _ _ id =>
      (node, (self, Returns (VName id)))
  | ast.Tuple _ _ elts =>
      (node, (self, Returns (VTuple elts)))
  | ast.Subscript lineno col_offset value_ index =>
      (* visit_Subscript *)
      let '(value', (self1, r1)) := visit self value_ in
      match r1 with
      | Raises e => (ast.Subscript lineno col_offset value' index, (self1, Raises e))
      | Returns v =>
          let '(index', (self2, r2)) := visit self1 index in
          match r2 with
          | Raises e => (ast.Subscript lineno col_offset value' index', (self2, Raises e))
          | Returns i =>
              (ast.Subscript lineno col_offset value' index',
               check_Subscript self2 lineno col_offset v i)
          end
      end
  | ast.IfExp lineno col_offset test body orelse =>
      (* visit_IfExp, validate_if *)
      let '(test', (self1, r1)) := visit self test in
      match r1 with
      | Raises e => (ast.IfExp lineno col_offset test' body orelse, (self1, Raises e))
      | Returns test_value =>
          (ast.IfExp lineno col_offset test' body orelse,
           check_test self1 lineno col_offset test_value)
      end
  | ast.BinOp lineno col_offset left_ op right_ =>
      (* visit_BinOp: the right_ operand is walked first *)
      let operator := get_operator op in
      let '(right', (self1, r1)) := visit self right_ in
      match r1 with
      | Raises e => (ast.BinOp lineno col_offset left_ op right', (self1, Raises e))
      | Returns r_operand =>
          let '(left', (self2, r2)) := visit self1 left_ in
          match r2 with
          | Raises e => (ast.BinOp lineno col_offset left' op right', (self2, Raises e))
          | Returns l_operand =>
              let '(op', o) :=
                resolve_BinOp self2 lineno col_offset op operator r_operand l_operand in
              (ast.BinOp lineno col_offset left' op' right', o)
          end
      end
  | ast.UnaryOp lineno col_offset op operand =>
      (* visit_UnaryOp *)
      let operator := get_operator op in
      let '(operand', (self1, r1)) := visit self operand in
      match r1 with
      | Raises e => (ast.UnaryOp lineno col_offset op operand', (self1, Raises e))
      | Returns operand_value =>
          let '(op', o) :=
            resolve_UnaryOp self1 lineno col_offset op operator operand_value in
          (ast.UnaryOp lineno col_offset op' operand', o)
      end
  | ast.Compare lineno col_offset left_ ops comparators =>
      (* visit_Compare *)
      if negb (Nat.eqb (List.length comparators) (List.length ops)) then
        (node, _log_error self
                 (CompilerError.IncorrectNumberOfOperands lineno col_offset
                    (Z.of_nat (List.length ops))
                    (Z.of_nat (List.length comparators) + 1)))
      else
        let '(left', (self1, r1)) := visit self left_ in
        match r1 with
        | Raises e =>
            (ast.Compare lineno col_offset left' ops comparators,
             except_MismatchedTypes lineno col_offset (self1, Raises e))
        | Returns l_operand =>
            let '(ops', comparators', (line, col), try_body) :=
              loop_Compare visit ops comparators self1 lineno col_offset l_operand VNone in
            (ast.Compare lineno col_offset left' ops' comparators',
             except_MismatchedTypes line col try_body)
        end
  | ast.BoolOp lineno col_offset op values =>
      (* visit_BoolOp *)
      match get_operator op with
      | None =>
          (node,
           except_MismatchedTypes lineno col_offset
             (_log_error self
                (CompilerError.UnresolvedReference lineno col_offset "NoneType")))
      | Some operator =>
          match values with
          | [] => (node, (self, Raises (Builtin IndexError)))
          | first :: rest =>
              let '(first', (self1, r1)) := visit self first in
              match r1 with
              | Raises e =>
                  (ast.BoolOp lineno col_offset op (first' :: rest),
                   except_MismatchedTypes lineno col_offset (self1, Raises e))
              | Returns l_operand =>
                  let '(rest', (line, col), bool_operation, try_body) :=
                    loop_BoolOp visit operator rest self1 lineno col_offset l_operand
                      VNone None in
                  match try_body with
                  | (self2, Returns return_type) =>
                      (ast.BoolOp lineno col_offset (slot_of_operation bool_operation)
                         (first' :: rest'),
                       (self2, Returns return_type))
                  | _ =>
                      (ast.BoolOp lineno col_offset op (first' :: rest'),
                       except_MismatchedTypes line col try_body)
                  end
              end
          end
      end
  end.

(** [TypeAnalyser.visit_arg]: a missing annotation is an error; the
    annotation is walked by [generic_visit]. *)
Definition visit_arg (self : t) (arg : ast.arg) : ast.arg * outcome :=
  match ast.annotation arg with
  | None =>
      (arg, _log_error self
              (CompilerError.TypeHintMissing (ast.arg_lineno arg)
                 (ast.arg_col_offset arg) (Some (ast.arg_name arg))))
  | Some annotation =>
      let '(annotation', o) := visit self annotation in
      (ast.Build_arg (ast.arg_lineno arg) (ast.arg_col_offset arg)
         (ast.arg_name arg) (Some annotation'),
       discard o)
  end.

(** [TypeAnalyser.visit_arguments]: every argument is visited, and visited
    again by [generic_visit]. *)
Definition visit_arguments (self : t) (args : list ast.arg)
  : list ast.arg * outcome :=
  let '(args', (self1, r1)) := visit_each visit_arg self args in
  match r1 with
  | Raises e => (args', (self1, Raises e))
  | Returns _ => visit_each visit_arg self1 args'
  end.

(** The visitors of the statement nodes.  [visit_FunctionDef] makes
    whatever symbol the table holds under the name of the function the
    current method; [visit_Return] reads its [return_type]. *)
Fixpoint visit_stmt (self : t) (node : ast.stmt) {struct node} : ast.stmt * outcome :=
  match node with
  | ast.FunctionDef lineno col_offset name args body =>
      (* visit_FunctionDef *)
      let '(args', (self1, r1)) := visit_arguments self args in
      match r1 with
      | Raises e =>
          (ast.FunctionDef lineno col_offset name args' body, (self1, Raises e))
      | Returns _ =>
          match dict_get (symbols self1) name with
          | None =>
              (ast.FunctionDef lineno col_offset name args' body,
               (self1, Raises (Builtin KeyError)))
          | Some method =>
              let self2 := set_current_method self1 (Some method) in
              let '(body', (self3, r3)) := visit_each visit_stmt self2 body in
              match r3 with
              | Raises e =>
                  (ast.FunctionDef lineno col_offset name args' body',
                   (self3, Raises e))
              | Returns _ =>
                  (ast.FunctionDef lineno col_offset name args' body',
                   (set_current_method self3 None, Returns VNone))
              end
          end
      end
  | ast.Return lineno col_offset ret_value =>
      (* visit_Return *)
      match ret_value with
      | Some value_ =>
          if ast.is_Tuple value_ then
            (node, _log_error self (CompilerError.TooManyReturns lineno col_offset))
          else
            match current_return_type self with
            | None => (node, (self, Raises (Builtin AttributeError)))
            | Some return_type =>
                if IType_eqb return_type Type_none then
                  (node, _log_error self
                           (CompilerError.TypeHintMissing lineno col_offset
                              (__current_method_id self)))
                else
                  (* generic_visit(ret) *)
                  let '(value', o) := visit self value_ in
                  (ast.Return lineno col_offset (Some value'), discard o)
            end
      | None =>
          match current_return_type self with
          | None => (node, (self, Raises (Builtin AttributeError)))
          | Some return_type =>
              if negb (IType_eqb return_type Type_none) then
                (node, _log_error self
                         (CompilerError.MismatchedTypes_keywords lineno col_offset
                            (identifier Type_none)
                            (identifier return_type)))
              else
                (* generic_visit(ret): no child *)
                (node, (self, Returns VNone))
          end
      end
  | ast.Assign lineno col_offset targets value_ =>
      (* visit_Assign *)
      if Nat.ltb 1 (List.length targets) then
        (node, _log_error self
                 (CompilerError.NotSupportedOperation lineno col_offset
                    (CompilerError.OfText "Multiple variable assignments")))
      else
        match targets with
        | [] => (node, (self, Raises (Builtin IndexError)))
        | target :: _ =>
            if ast.is_Tuple target then
              (node, _log_error self
                       (CompilerError.NotSupportedOperation lineno col_offset
                          (CompilerError.OfText "Multiple variable assignments")))
            else
              (* generic_visit(assign) *)
              let '(targets', (self1, r1)) := visit_each visit self targets in
              match r1 with
              | Raises e =>
                  (ast.Assign lineno col_offset targets' value_, (self1, Raises e))
              | Returns _ =>
                  let '(value', o) := visit self1 value_ in
                  (ast.Assign lineno col_offset targets' value', discard o)
              end
        end
  | ast.While lineno col_offset test body orelse =>
      (* visit_While *)
      let '(test', (self1, r1)) := visit self test in
      match r1 with
      | Raises e =>
          (ast.While lineno col_offset test' body orelse, (self1, Raises e))
      | Returns test_value =>
          match check_test self1 lineno col_offset test_value with
          | (self2, Raises e) =>
              (ast.While lineno col_offset test' body orelse, (self2, Raises e))
          | (self2, Returns _) =>
              let '(body', (self3, r3)) := visit_each visit_stmt self2 body in
              match r3 with
              | Raises e =>
                  (ast.While lineno col_offset test' body' orelse, (self3, Raises e))
              | Returns _ =>
                  let '(orelse', o) := visit_each visit_stmt self3 orelse in
                  (ast.While lineno col_offset test' body' orelse', o)
              end
          end
      end
  | ast.If lineno col_offset test body orelse =>
      (* visit_If, validate_if *)
      let '(test', (self1, r1)) := visit self test in
      match r1 with
      | Raises e =>
          (ast.If lineno col_offset test' body orelse, (self1, Raises e))
      | Returns test_value =>
          match check_test self1 lineno col_offset test_value with
          | (self2, Raises e) =>
              (ast.If lineno col_offset test' body orelse, (self2, Raises e))
          | (self2, Returns _) =>
              let '(body', (self3, r3)) := visit_each visit_stmt self2 body in
              match r3 with
              | Raises e =>
                  (ast.If lineno col_offset test' body' orelse, (self3, Raises e))
              | Returns _ =>
                  if Nat.eqb (List.length orelse) 1
                     && match orelse with s :: _ => ast.is_If s | [] => false end
                  then
                    (ast.If lineno col_offset test' body' orelse,
                     (self3, Raises (Builtin NotImplementedError)))
                  else
                    let '(orelse', o) := visit_each visit_stmt self3 orelse in
                    (ast.If lineno col_offset test' body' orelse', o)
              end
          end
      end
  | ast.Expr value_ =>
      (* generic_visit *)
      let '(value', o) := visit self value_ in
      (ast.Expr value', discard o)
  | ast.Pass => (node, (self, Returns VNone))
  | ast.Break => (node, (self, Raises (Builtin NotImplementedError)))
  | ast.Continue => (node, (self, Raises (Builtin NotImplementedError)))
  end.

(** [TypeAnalyser.visit_Module] *)
Definition visit_Module (self : t) (module : ast.Module) : ast.Module * outcome :=
  visit_each visit_stmt self module.

(** The analyser as [TypeAnalyser.__init__] sets it up. *)
Definition init (symbol_table : dict Symbol) : t :=
  Build [] [] symbol_table None.

(** [TypeAnalyser(ast_tree, symbol_table)]: the walk of the tree by a
    fresh analyser.  When the walk raises, so does the constructor. *)
Definition analyse (ast_tree : ast.Module) (symbol_table : dict Symbol)
  : ast.Module * outcome :=
  visit_Module (init symbol_table) ast_tree.

End Registry.

End TypeAnalyser.

(** ** A registry to run the analyser on concrete programs *)

Module Sample.

(** The operand types are exactly the given ones. *)
Definition accepts (expected : list IType) (types : list IType) : bool :=
  if list_eq_dec IType_eq_dec types expected then true else false.

(** Integer addition: [Plus] on two integers, supported. *)
Definition Addition : BinaryOperation.t :=
  {| BinaryOperation.cls := "Addition";
     BinaryOperation.operator := Operator.Plus;
     BinaryOperation.left_type := Type_int;
     BinaryOperation.right_type := Type_int;
     BinaryOperation.result := Type_int;
     BinaryOperation.validate_type := accepts [Type_int; Type_int];
     BinaryOperation.opcode := Some Opcode.ADD;
     BinaryOperation.is_supported := true |}.

(** Integer comparison: [Lt] on two integers, supported. *)
Definition LessThan : BinaryOperation.t :=
  {| BinaryOperation.cls := "LessThan";
     BinaryOperation.operator := Operator.Lt;
     BinaryOperation.left_type := Type_int;
     BinaryOperation.right_type := Type_int;
     BinaryOperation.result := Type_bool;
     BinaryOperation.validate_type := accepts [Type_int; Type_int];
     BinaryOperation.opcode := Some Opcode.LT;
     BinaryOperation.is_supported := true |}.

(** Boolean conjunction: [And] on two booleans, supported. *)
Definition BoolAnd : BinaryOperation.t :=
  {| BinaryOperation.cls := "BoolAnd";
     BinaryOperation.operator := Operator.And;
     BinaryOperation.left_type := Type_bool;
     BinaryOperation.right_type := Type_bool;
     BinaryOperation.result := Type_bool;
     BinaryOperation.validate_type := accepts [Type_bool; Type_bool];
     BinaryOperation.opcode := Some Opcode.BOOLAND;
     BinaryOperation.is_supported := true |}.

(** Integer negation: [Minus] on an integer, supported. *)
Definition Negative : UnaryOperation.t :=
  {| UnaryOperation.cls := "Negative";
     UnaryOperation.operator := Operator.Minus;
     UnaryOperation.operand_type := Type_int;
     UnaryOperation.result := Type_int;
     UnaryOperation.validate_type := accepts [Type_int];
     UnaryOperation.opcode := Some Opcode.NEGATE;
     UnaryOperation.is_supported := true |}.

(** The binary table: the addition is registered before the concatenation
    of concat.py.  The operations other than [Concat.default] stand for
    operations of the repository outside the modelled sources: they are
    inputs of the analyser, not part of it. *)
Definition BinaryOp_table : list BinaryOperation.t :=
  [Addition; Concat.default; LessThan; BoolAnd].

Definition UnaryOp_table : list UnaryOperation.t := [Negative].

(** The analyser run with this registry. *)
Definition visit := TypeAnalyser.visit BinaryOp_table UnaryOp_table.
Definition visit_stmt := TypeAnalyser.visit_stmt BinaryOp_table UnaryOp_table.
Definition analyse := TypeAnalyser.analyse BinaryOp_table UnaryOp_table.

End Sample.

(** ** Concrete programs *)

Module Programs.

(** [1.5] on line 1 and [2.5] on line 2, as expression statements. *)
Definition first_float : ast.stmt := ast.Expr (ast.Num 1 0 (ast.NFloat "1.5")).
Definition second_float : ast.stmt := ast.Expr (ast.Num 2 0 (ast.NFloat "2.5")).

(** [1.5 + 2.5] *)
Definition float_left : ast.expr := ast.Num 1 0 (ast.NFloat "1.5").
Definition float_right : ast.expr := ast.Num 1 6 (ast.NFloat "2.5").
Definition float_sum : ast.expr :=
  ast.BinOp 1 0 float_left (ast.Token ast.Add) float_right.

(** [1 + 2] *)
Definition int_sum (op : ast.op_slot) : ast.expr :=
  ast.BinOp 1 0 (ast.Num 1 0 (ast.NInt 1)) op (ast.Num 1 4 (ast.NInt 2)).

(** [(1 + "a") < 2]: the sum is the one construct with a type error. *)
Definition mismatched_sum : ast.expr :=
  ast.BinOp 1 1 (ast.Num 1 1 (ast.NInt 1)) (ast.Token ast.Add) (ast.Str 1 5 "a").
Definition compare_of_mismatched_sum : ast.expr :=
  ast.Compare 1 0 mismatched_sum [ast.Token ast.Lt] [ast.Num 1 12 (ast.NInt 2)].

(** [(1 if 1 else 2) < 3]: the test of the conditional expression is not
    a boolean. *)
Definition compare_of_ifexp : ast.expr :=
  ast.Compare 1 0
    (ast.IfExp 1 1 (ast.Num 1 6 (ast.NInt 1)) (ast.Num 1 1 (ast.NInt 1))
       (ast.Num 1 13 (ast.NInt 2)))
    [ast.Token ast.Lt] [ast.Num 1 18 (ast.NInt 3)].

(** [1 < 2 < (3 + "a")]: the sum, the last comparator, has a type error. *)
Definition late_mismatched_sum : ast.expr :=
  ast.BinOp 1 9 (ast.Num 1 9 (ast.NInt 3)) (ast.Token ast.Add) (ast.Str 1 13 "a").
Definition chain_with_mismatched_sum : ast.expr :=
  ast.Compare 1 0 (ast.Num 1 0 (ast.NInt 1))
    [ast.Token ast.Lt; ast.Token ast.Lt]
    [ast.Num 1 4 (ast.NInt 2); late_mismatched_sum].

(** [True and False and True] *)
Definition bool_chain (op : ast.op_slot) : ast.expr :=
  ast.BoolOp 1 0 op
    [ast.NameConstant 1 0 ast.CTrue; ast.NameConstant 1 9 ast.CFalse;
     ast.NameConstant 1 19 ast.CTrue].

(** The method of [def f(s: str, t: str) -> str] and the analyser inside
    its body. *)
Definition f_str : Method :=
  Build_Method 0 Type_str
    [("s", SymExpression 1 Type_str); ("t", SymExpression 2 Type_str)].
Definition inside_f_str : TypeAnalyser.t :=
  TypeAnalyser.Build [] [] [("f", SymMethod f_str)] (Some (SymMethod f_str)).

(** [s + t] in that body. *)
Definition s_plus_t : ast.expr :=
  ast.BinOp 1 39 (ast.Name 1 39 "s") (ast.Token ast.Add) (ast.Name 1 43 "t").

(** The method of [def f() -> int] and the analyser inside its body. *)
Definition f_int : Method := Build_Method 1 Type_int [].
Definition inside_f_int : TypeAnalyser.t :=
  TypeAnalyser.Build [] [] [("f", SymMethod f_int)] (Some (SymMethod f_int)).

(** [-1] *)
Definition negation : ast.expr :=
  ast.UnaryOp 1 0 (ast.Token ast.USub) (ast.Num 1 1 (ast.NInt 1)).

(** [1 < 2] *)
Definition one_less_than_two : ast.expr :=
  ast.Compare 1 0 (ast.Num 1 0 (ast.NInt 1)) [ast.Token ast.Lt]
    [ast.Num 1 4 (ast.NInt 2)].

(** [a = 1] *)
Definition assign_one : ast.stmt :=
  ast.Assign 1 0 [ast.Name 1 0 "a"] (ast.Num 1 4 (ast.NInt 1)).

(** The arguments of [def f(a: int, b)]: the second has no annotation. *)
Definition arg_a : ast.arg := ast.Build_arg 1 6 "a" (Some (ast.Name 1 9 "int")).
Definition arg_b : ast.arg := ast.Build_arg 1 14 "b" None.

(** [def f() -> int: pass], with [f] in the symbol table. *)
Definition def_f_pass : ast.stmt := ast.FunctionDef 1 0 "f" [] [ast.Pass].
Definition symbols_f_int : dict Symbol := [("f", SymMethod f_int)].

(** A symbol table that binds [f] to the type [int], not to a method. *)
Definition symbols_f_type : dict Symbol := [("f", SymType Type_int)].

(** [xs[0]] where [xs] is a sequence of integers with integer keys. *)
Definition int_sequence : IType := SequenceType "sequence" Type_int Type_int.
Definition with_xs : TypeAnalyser.t :=
  TypeAnalyser.Build [] [] [("xs", SymExpression 0 int_sequence)] None.
Definition xs_at_0 : ast.expr :=
  ast.Subscript 1 0 (ast.Name 1 0 "xs") (ast.Num 1 3 (ast.NInt 0)).

(** Two modules that both define [x], and the analyser that holds them. *)
Definition module_a : Module_ :=
  Build_Module 0 [("x", SymExpression 1 Type_int); ("y", SymExpression 2 Type_str)].
Definition module_b : Module_ := Build_Module 3 [("x", SymExpression 4 Type_bool)].
Definition with_modules : TypeAnalyser.t :=
  TypeAnalyser.Build [] [("a", module_a); ("b", module_b)] [] None.

End Programs.

(** ** Induction over the syntax tree *)

Section expr_induction.

Variable P : ast.expr -> Prop.

Hypothesis P_Num : forall l c n, P (ast.Num l c n).
Hypothesis P_Str : forall l c s, P (ast.Str l c s).
Hypothesis P_NameConstant : forall l c v, P (ast.NameConstant l c v).
Hypothesis P_Name : forall l c id, P (ast.Name l c id).
Hypothesis P_Tuple : forall l c elts, P (ast.Tuple l c elts).
Hypothesis P_Subscript :
  forall l c v i, P v -> P i -> P (ast.Subscript l c v i).
Hypothesis P_IfExp :
  forall l c test body orelse, P test -> P (ast.IfExp l c test body orelse).
Hypothesis P_BinOp :
  forall l c lhs op rhs, P lhs -> P rhs -> P (ast.BinOp l c lhs op rhs).
Hypothesis P_UnaryOp :
  forall l c op operand, P operand -> P (ast.UnaryOp l c op operand).
Hypothesis P_Compare :
  forall l c lhs ops comparators,
    P lhs -> Forall P comparators -> P (ast.Compare l c lhs ops comparators).
Hypothesis P_BoolOp :
  forall l c op values, Forall P values -> P (ast.BoolOp l c op values).

(** Structural induction on expressions, with the induction hypothesis for
    every comparator and every boolean operand. *)
Fixpoint expr_nested_ind (e : ast.expr) : P e :=
  match e with
  | ast.Num l c n => P_Num l c n
  | ast.Str l c s => P_Str l c s
  | ast.NameConstant l c v => P_NameConstant l c v
  | ast.Name l c id => P_Name l c id
  | ast.Tuple l c elts => P_Tuple l c elts
  | ast.Subscript l c v i =>
      P_Subscript l c v i (expr_nested_ind v) (expr_nested_ind i)
  | ast.IfExp l c test body orelse =>
      P_IfExp l c test body orelse (expr_nested_ind test)
  | ast.BinOp l c lhs op rhs =>
      P_BinOp l c lhs op rhs (expr_nested_ind lhs) (expr_nested_ind rhs)
  | ast.UnaryOp l c op operand =>
      P_UnaryOp l c op operand (expr_nested_ind operand)
  | ast.Compare l c lhs ops comparators =>
      P_Compare l c lhs ops comparators (expr_nested_ind lhs)
        ((fix all (es : list ast.expr) : Forall P es :=
            match es with
            | [] => Forall_nil P
            | x :: xs => Forall_cons x (expr_nested_ind x) (all xs)
            end) comparators)
  | ast.BoolOp l c op values =>
      P_BoolOp l c op values
        ((fix all (es : list ast.expr) : Forall P es :=
            match es with
            | [] => Forall_nil P
            | x :: xs => Forall_cons x (expr_nested_ind x) (all xs)
            end) values)
  end.

End expr_induction.

Section stmt_induction.

Variable P : ast.stmt -> Prop.

Hypothesis P_FunctionDef :
  forall l c name args body, Forall P body -> P (ast.FunctionDef l c name args body).
Hypothesis P_Return : forall l c v, P (ast.Return l c v).
Hypothesis P_Assign : forall l c targets v, P (ast.Assign l c targets v).
Hypothesis P_While :
  forall l c test body orelse,
    Forall P body -> Forall P orelse -> P (ast.While l c test body orelse).
Hypothesis P_If :
  forall l c test body orelse,
    Forall P body -> Forall P orelse -> P (ast.If l c test body orelse).
Hypothesis P_Expr : forall v, P (ast.Expr v).
Hypothesis P_Pass : P ast.Pass.
Hypothesis P_Break : P ast.Break.
Hypothesis P_Continue : P ast.Continue.

(** Structural induction on statements, with the induction hypothesis for
    every statement of the bodies. *)
Fixpoint stmt_nested_ind (s : ast.stmt) : P s :=
  let all :=
    fix all (ss : list ast.stmt) : Forall P ss :=
      match ss with
      | [] => Forall_nil P
      | x :: xs => Forall_cons x (stmt_nested_ind x) (all xs)
      end in
  match s with
  | ast.FunctionDef l c name args body =>
      P_FunctionDef l c name args body (all body)
  | ast.Return l c v => P_Return l c v
  | ast.Assign l c targets v => P_Assign l c targets v
  | ast.While l c test body orelse =>
      P_While l c test body orelse (all body) (all orelse)
  | ast.If l c test body orelse =>
      P_If l c test body orelse (all body) (all orelse)
  | ast.Expr v => P_Expr v
  | ast.Pass => P_Pass
  | ast.Break => P_Break
  | ast.Continue => P_Continue
  end.

End stmt_induction.

(** ** Notions used to state the properties *)

(** The push opcodes of the literals -1 to 16, in this order. *)
Definition literal_pushes : list Opcode.Opcode :=
  [Opcode.PUSHM1; Opcode.PUSH0; Opcode.PUSH1; Opcode.PUSH2; Opcode.PUSH3;
   Opcode.PUSH4; Opcode.PUSH5; Opcode.PUSH6; Opcode.PUSH7; Opcode.PUSH8;
   Opcode.PUSH9; Opcode.PUSH10; Opcode.PUSH11; Opcode.PUSH12; Opcode.PUSH13;
   Opcode.PUSH14; Opcode.PUSH15; Opcode.PUSH16].

(** The entry of an identifier among the symbols of the current method:
    none when there is no current method, and [AttributeError] when the
    current method is a symbol that has no [symbols]. *)
Definition local_symbol (self : TypeAnalyser.t) (symbol_id : string)
  : result exn (option Symbol) :=
  match TypeAnalyser.current_method self with
  | None => Returns None
  | Some current =>
      match Symbol_symbols current with
      | Some local => Returns (dict_get local symbol_id)
      | None => Raises (Builtin AttributeError)
      end
  end.

(** [self'] is [self] with diagnostics appended to [errors]. *)
Definition extends (self self' : TypeAnalyser.t) : Prop :=
  exists new,
    self' = TypeAnalyser.set_errors self (TypeAnalyser.errors self ++ new).

(** An outcome reached from [self]: a visitor that returns leaves the
    analyser as it was; one that raises has at most appended diagnostics. *)
Definition walked (self : TypeAnalyser.t) (o : TypeAnalyser.outcome) : Prop :=
  match o with
  | (self', Returns _) => self' = self
  | (self', Raises _) => extends self self'
  end.

(** An outcome of a statement visitor reached with [before] logged: a
    visitor that returns has logged nothing; one that raises has at most
    appended diagnostics. *)
Definition logged (before : list CompilerError.t) (o : TypeAnalyser.outcome)
  : Prop :=
  match o with
  | (self', Returns _) => TypeAnalyser.errors self' = before
  | (self', Raises _) => exists new, TypeAnalyser.errors self' = before ++ new
  end.

(** Every adjacent pair of a chain resolves: walking the operands after
    [l_operand] in turn, each operand returns and [get_bin_op] returns an
    operation for it and the operand before it. *)
Fixpoint pairs_resolve (BinaryOp_table : list BinaryOperation.t)
  (UnaryOp_table : list UnaryOperation.t)
  (self : TypeAnalyser.t) (operator : Operator.t)
  (l_operand : value) (operands : list ast.expr) {struct operands} : Prop :=
  match operands with
  | [] => True
  | operand :: rest =>
      exists r_operand operation,
        snd (snd (TypeAnalyser.visit BinaryOp_table UnaryOp_table self operand))
        = Returns r_operand
        /\ TypeAnalyser.get_bin_op BinaryOp_table self operator r_operand l_operand
           = Returns operation
        /\ pairs_resolve BinaryOp_table UnaryOp_table self operator r_operand rest
  end.

(** The expression with every operator slot the walk can reach emptied.
    The elements of a tuple and the branches of a conditional expression
    are not walked and are kept as they are. *)
Fixpoint without_slots (e : ast.expr) {struct e} : ast.expr :=
  match e with
  | ast.Subscript l c v i => ast.Subscript l c (without_slots v) (without_slots i)
  | ast.IfExp l c test body orelse => ast.IfExp l c (without_slots test) body orelse
  | ast.BinOp l c lhs _ rhs =>
      ast.BinOp l c (without_slots lhs) ast.NoneSlot (without_slots rhs)
  | ast.UnaryOp l c _ operand => ast.UnaryOp l c ast.NoneSlot (without_slots operand)
  | ast.Compare l c lhs ops comparators =>
      ast.Compare l c (without_slots lhs) (map (fun _ => ast.NoneSlot) ops)
        (map without_slots comparators)
  | ast.BoolOp l c _ values => ast.BoolOp l c ast.NoneSlot (map without_slots values)
  | _ => e
  end.

Definition without_slots_arg (a : ast.arg) : ast.arg :=
  ast.Build_arg (ast.arg_lineno a) (ast.arg_col_offset a) (ast.arg_name a)
    (option_map without_slots (ast.annotation a)).

(** The statement with the operator slots of its expressions emptied. *)
Fixpoint without_slots_stmt (s : ast.stmt) {struct s} : ast.stmt :=
  match s with
  | ast.FunctionDef l c name args body =>
      ast.FunctionDef l c name (map without_slots_arg args)
        (map without_slots_stmt body)
  | ast.Return l c v => ast.Return l c (option_map without_slots v)
  | ast.Assign l c targets v =>
      ast.Assign l c (map without_slots targets) (without_slots v)
  | ast.While l c test body orelse =>
      ast.While l c (without_slots test) (map without_slots_stmt body)
        (map without_slots_stmt orelse)
  | ast.If l c test body orelse =>
      ast.If l c (without_slots test) (map without_slots_stmt body)
        (map without_slots_stmt orelse)
  | ast.Expr v => ast.Expr (without_slots v)
  | ast.Pass | ast.Break | ast.Continue => s
  end.

(** No comparison and no boolean operation lies on the walk of the
    expression: these are the two visitors that walk operands inside their
    [try] block. *)
Fixpoint handler_free (e : ast.expr) {struct e} : bool :=
  match e with
  | ast.Subscript _ _ v i => handler_free v && handler_free i
  | ast.IfExp _ _ test _ _ => handler_free test
  | ast.BinOp _ _ lhs _ rhs => handler_free lhs && handler_free rhs
  | ast.UnaryOp _ _ _ operand => handler_free operand
  | ast.Compare _ _ _ _ _ | ast.BoolOp _ _ _ _ => false
  | _ => true
  end.

(** The walk of the expression reaches a node with an operator: a binary,
    unary or boolean operation, or a comparison with an operator. *)
Fixpoint walks_operator (e : ast.expr) {struct e} : bool :=
  match e with
  | ast.Subscript _ _ v i => walks_operator v || walks_operator i
  | ast.IfExp _ _ test _ _ => walks_operator test
  | ast.BinOp _ _ _ _ _ | ast.UnaryOp _ _ _ _ | ast.BoolOp _ _ _ _ => true
  | ast.Compare _ _ lhs ops comparators =>
      match ops with
      | [] => walks_operator lhs
      | _ :: _ => true
      end
  | _ => false
  end.

(** The content of an operator slot is an operation of the binary table
    that is supported. *)
Definition resolved_supported (table : list BinaryOperation.t) (slot : ast.op_slot)
  : Prop :=
  exists operation,
    slot = ast.BinaryResolved operation
    /\ In operation table
    /\ BinaryOperation.is_supported operation = true.

(** A raised compiler error is the last diagnostic of [errors]. *)
Definition raised_is_logged (o : TypeAnalyser.outcome) : Prop :=
  match o with
  | (self', Raises (CompilerErr error)) =>
      exists before, TypeAnalyser.errors self' = before ++ [error]
  | _ => True
  end.

(** The same inside a [try] block, before the handler runs: the mismatch
    raised by [get_bin_op], with its two types as arguments, is not logged
    yet. *)
Definition raised_or_mismatch (o : TypeAnalyser.outcome) : Prop :=
  match o with
  | (self', Raises (CompilerErr error)) =>
      (exists before, TypeAnalyser.errors self' = before ++ [error])
      \/ (exists l c expected actual a0 a1 args,
            error = CompilerError.MismatchedTypes l c expected actual (a0 :: a1 :: args))
  | _ => True
  end.

(** The tables of the analyser are kept; a call that returns leaves the
    current method as it was or unset. *)
Definition tables_kept (self : TypeAnalyser.t) (o : TypeAnalyser.outcome) : Prop :=
  let '(self', r) := o in
  TypeAnalyser.modules self' = TypeAnalyser.modules self
  /\ TypeAnalyser.symbols self' = TypeAnalyser.symbols self
  /\ match r with
     | Returns _ =>
         TypeAnalyser.current_method self' = TypeAnalyser.current_method self
         \/ TypeAnalyser.current_method self' = None
     | Raises _ => True
     end.

(** An outcome reached from [self] with at most one diagnostic: a call
    that returns or raises a built-in exception has logged nothing, one
    that raises a compiler error has logged that error and nothing else. *)
Definition logs_at_most_once (self : TypeAnalyser.t) (o : TypeAnalyser.outcome)
  : Prop :=
  match o with
  | (self', Raises (CompilerErr error)) =>
      self' = TypeAnalyser.set_errors self (TypeAnalyser.errors self ++ [error])
  | (self', _) => self' = self
  end.

(** The line and column of a node. *)
Definition position (e : ast.expr) : Z * Z := (ast.lineno e, ast.col_offset e).

(** The comparisons of the operators [ops] with the comparators
    [comparators], chained from [l_operand], all resolve: every operator is
    known, every comparator returns, and every pair of adjacent operands
    resolves to a supported operation. *)
Fixpoint compares_resolve (BinaryOp_table : list BinaryOperation.t)
  (UnaryOp_table : list UnaryOperation.t)
  (self : TypeAnalyser.t) (l_operand : value) (ops : list ast.op_slot)
  (comparators : list ast.expr) {struct comparators} : Prop :=
  match comparators, ops with
  | [], [] => True
  | comparator :: rest, op :: ops_rest =>
      exists operator r_operand operation,
        TypeAnalyser.get_operator op = Some operator
        /\ snd (snd (TypeAnalyser.visit BinaryOp_table UnaryOp_table self comparator))
           = Returns r_operand
        /\ TypeAnalyser.get_bin_op BinaryOp_table self operator r_operand l_operand
           = Returns operation
        /\ BinaryOperation.is_supported operation = true
        /\ compares_resolve BinaryOp_table UnaryOp_table self r_operand ops_rest rest
  | _, _ => False
  end.

(** A [MismatchedTypes] as the handler of a comparison or of a boolean
    operation logs it: built with the two types passed by position. *)
Definition relogged (error : CompilerError.t) : Prop :=
  exists line col expected actual,
    error = CompilerError.MismatchedTypes_positional line col expected actual.

(** An outcome reached with [before] logged, with what a raising walk has
    appended spelt out: every diagnostic after the first one is a
    re-logged [MismatchedTypes], and a raised compiler error is the last
    diagnostic appended.  A call that returns has logged nothing. *)
Definition ends_walk (before : list CompilerError.t) (o : TypeAnalyser.outcome)
  : Prop :=
  match o with
  | (self', Returns _) => TypeAnalyser.errors self' = before
  | (self', Raises e) =>
      exists new,
        TypeAnalyser.errors self' = before ++ new
        /\ Forall relogged (tl new)
        /\ match e with
           | CompilerErr error => exists earlier, new = earlier ++ [error]
           | Builtin _ => True
           end
  end.

(** The same inside a [try] block, before the handler runs: the mismatch
    raised by [get_bin_op], with its two types as arguments, is not logged
    yet. *)
Definition ends_try (before : list CompilerError.t) (o : TypeAnalyser.outcome)
  : Prop :=
  match o with
  | (self', Returns _) => TypeAnalyser.errors self' = before
  | (self', Raises e) =>
      exists new,
        TypeAnalyser.errors self' = before ++ new
        /\ Forall relogged (tl new)
        /\ match e with
           | CompilerErr error =>
               (exists earlier, new = earlier ++ [error])
               \/ (exists l c expected actual a0 a1 args,
                     error
                     = CompilerError.MismatchedTypes l c expected actual
                         (a0 :: a1 :: args))
           | Builtin _ => True
           end
  end.

(** * Properties *)

(** ** The opcode table *)

(** An integer from -1 to 16 is one of the first eighteen naturals, less
    one. *)
Lemma small_range_cases (n : Z) :
  -1 <= n <= 16 -> exists k, In k (seq 0 18) /\ n = Z.of_nat k - 1.
Proof.
  intros Hn. exists (Z.to_nat (n + 1)). split; [apply in_seq|]; lia.
Qed.

Lemma le_to_byte_array_one_byte (v : Z) :
  15 <= v <= 32 -> Opcode.le_to_byte_array v = [v].
Proof.
  intros Hv.
  destruct (small_range_cases (v - 0x10) ltac:(lia)) as (k & Hk & Hv').
  replace v with (0x10 + (Z.of_nat k - 1)) by lia. clear Hv Hv'.
  simpl in Hk.
  repeat (destruct Hk as [<-|Hk]; [reflexivity|]). contradiction.
Qed.

(** C10.  Provided [Integer.from_bytes] reads the byte of [PUSH0] as 0x10
    and [Integer.to_byte_array] writes a value from 15 to 32 as that one
    byte: for every integer n with -1 <= n <= 16, [get_literal_push n]
    returns the member whose value is the single byte 0x10 + n, which is
    PUSHM1 for -1, PUSH0 for 0, and so on up to PUSH16 for 16; for every
    other integer it returns [None]. *)
Theorem get_literal_push_spec
  (from_bytes : list Z -> Z) (to_byte_array : Z -> list Z)
  (Hfrom : from_bytes (Opcode.value Opcode.PUSH0) = 0x10)
  (Hto : forall v, 15 <= v <= 32 -> to_byte_array v = [v])
  (n : Z) :
  (-1 <= n <= 16 ->
   exists o,
     Opcode.get_literal_push from_bytes to_byte_array n = Returns (Some o)
     /\ Opcode.value o = [0x10 + n]
     /\ nth_error literal_pushes (Z.to_nat (n + 1)) = Some o)
  /\ (~ (-1 <= n <= 16) ->
      Opcode.get_literal_push from_bytes to_byte_array n = Returns None).
Proof.
  split; intros Hn; unfold Opcode.get_literal_push.
  - replace ((-1 <=? n) && (n <=? 16)) with true
      by (symmetry; apply andb_true_intro; split; apply Z.leb_le; lia).
    rewrite Hfrom, Hto by lia.
    destruct (small_range_cases n Hn) as (k & Hk & ->). simpl in Hk.
    repeat (destruct Hk as [<-|Hk]; [eexists; repeat split; reflexivity|]).
    contradiction.
  - replace ((-1 <=? n) && (n <=? 16)) with false; [reflexivity|].
    symmetry. apply andb_false_iff.
    destruct (Z_le_gt_dec (-1) n); [right | left]; apply Z.leb_gt; lia.
Qed.

Lemma get_literal_push_spec_witness :
  Opcode.get_literal_push Opcode.le_from_bytes Opcode.le_to_byte_array 5
  = Returns (Some Opcode.PUSH5)
  /\ Opcode.get_literal_push Opcode.le_from_bytes Opcode.le_to_byte_array 17
     = Returns None.
Proof.
  destruct (get_literal_push_spec Opcode.le_from_bytes Opcode.le_to_byte_array
              eq_refl le_to_byte_array_one_byte 5) as [Hin _].
  destruct (get_literal_push_spec Opcode.le_from_bytes Opcode.le_to_byte_array
              eq_refl le_to_byte_array_one_byte 17) as [_ Hout].
  split.
  - destruct (Hin ltac:(lia)) as (o & Heq & _ & Hnth).
    simpl in Hnth. injection Hnth as <-. exact Heq.
  - apply Hout. lia.
Defined.

(** ** The type lattice *)

(** C9.  [IntType.is_type_of v] is true exactly when the class of [v] is
    [int], that is when [v] is an integer value; it is false for the
    booleans; [IntType.build v] is the integer type when [is_type_of v]
    holds and [None] otherwise. *)
Theorem IntType_is_type_of_exact (v : value) :
  (IntType.is_type_of v = true <-> type_of v = cls_int)
  /\ (type_of v = cls_int <-> exists n, v = VInt n)
  /\ IntType.is_type_of (VBool true) = false
  /\ IntType.is_type_of (VBool false) = false
  /\ (IntType.is_type_of v = true -> IntType.build v = Some Type_int)
  /\ (IntType.is_type_of v = false -> IntType.build v = None).
Proof.
  unfold IntType.build, IntType.is_type_of, PyClass_eqb.
  repeat split; try reflexivity.
  - destruct (PyClass_eq_dec (type_of v) cls_int); [trivial | discriminate].
  - intros ->. reflexivity.
  - destruct v as [| | n | | | | | |[]]; try discriminate. intros _. now exists n.
  - intros [n ->]. reflexivity.
  - intros ->. reflexivity.
  - intros ->. reflexivity.
Qed.

(** ** Symbol resolution *)

(** C4.  [get_symbol] searches the symbols of the current method, then the
    modules, then the globals, and returns the first hit: a local symbol
    wins whatever the modules and globals hold, a module wins over the
    globals, a global is returned when the two inner scopes miss, and
    [None] when the three scopes miss.  The local scope is the one of
    [local_symbol]: empty without a current method, the [symbols] of the
    current method otherwise. *)
Theorem get_symbol_scope_order (self : TypeAnalyser.t) (symbol_id : string) :
  (forall s, local_symbol self symbol_id = Returns (Some s) ->
             TypeAnalyser.get_symbol self symbol_id = Returns (Some s))
  /\ (forall m, local_symbol self symbol_id = Returns None ->
                dict_get (TypeAnalyser.modules self) symbol_id = Some m ->
                TypeAnalyser.get_symbol self symbol_id = Returns (Some (SymModule m)))
  /\ (forall s, local_symbol self symbol_id = Returns None ->
                dict_get (TypeAnalyser.modules self) symbol_id = None ->
                dict_get (TypeAnalyser.symbols self) symbol_id = Some s ->
                TypeAnalyser.get_symbol self symbol_id = Returns (Some s))
  /\ (local_symbol self symbol_id = Returns None ->
      dict_get (TypeAnalyser.modules self) symbol_id = None ->
      dict_get (TypeAnalyser.symbols self) symbol_id = None ->
      TypeAnalyser.get_symbol self symbol_id = Returns None).
Proof.
  unfold local_symbol, TypeAnalyser.get_symbol, dict_contains.
  destruct (TypeAnalyser.current_method self) as [current|];
    [destruct (Symbol_symbols current) as [local|]|];
    repeat split; intros;
    repeat match goal with
           | H : Returns _ = Returns _ |- _ => injection H as H
           | H : _ = _ |- _ => rewrite H
           end; try reflexivity; try discriminate.
Qed.

(** A current method without the attribute [symbols] makes every lookup
    fail, whatever the identifier and the outer scopes. *)
Lemma get_symbol_without_scope (self : TypeAnalyser.t) (symbol_id : string) e :
  local_symbol self symbol_id = Raises e ->
  TypeAnalyser.get_symbol self symbol_id = Raises e.
Proof.
  unfold local_symbol, TypeAnalyser.get_symbol.
  destruct (TypeAnalyser.current_method self) as [current|]; [|discriminate].
  destruct (Symbol_symbols current) as [local|]; [discriminate|trivial].
Qed.

(** The lookups raise nothing but [AttributeError]. *)
Lemma get_symbol_raises self symbol_id e :
  TypeAnalyser.get_symbol self symbol_id = Raises e -> e = Builtin AttributeError.
Proof.
  unfold TypeAnalyser.get_symbol.
  destruct (TypeAnalyser.current_method self) as [current|]; [|discriminate].
  destruct (Symbol_symbols current) as [local|].
  - destruct (dict_contains local symbol_id); discriminate.
  - now intros [= <-].
Qed.

Lemma symbol_of_Name_raises self v e :
  TypeAnalyser.symbol_of_Name self v = Raises e -> e = Builtin AttributeError.
Proof.
  destruct v; try discriminate. simpl.
  destruct (TypeAnalyser.get_symbol self id) as [s|e'] eqn:H; [discriminate|].
  intros [= <-]. eapply get_symbol_raises, H.
Qed.

Lemma get_type_raises self v e :
  TypeAnalyser.get_type self v = Raises e -> e = Builtin AttributeError.
Proof.
  unfold TypeAnalyser.get_type.
  destruct (TypeAnalyser.symbol_of_Name self v) as [v'|e'] eqn:H; [discriminate|].
  intros [= <-]. eapply symbol_of_Name_raises, H.
Qed.

(** ** The walk logs by appending, and raises when it logs *)

Lemma extends_refl self : extends self self.
Proof.
  exists []. rewrite app_nil_r. now destruct self.
Qed.

Lemma extends_trans self1 self2 self3 :
  extends self1 self2 -> extends self2 self3 -> extends self1 self3.
Proof.
  intros [n1 ->] [n2 ->]. exists (n1 ++ n2).
  unfold TypeAnalyser.set_errors; simpl. now rewrite app_assoc.
Qed.

Lemma extends_errors self self' :
  extends self self' ->
  exists new, TypeAnalyser.errors self' = TypeAnalyser.errors self ++ new.
Proof. intros [new ->]. now exists new. Qed.

Lemma walked_extends self self' r : walked self (self', r) -> extends self self'.
Proof.
  destruct r; simpl; [intros ->; apply extends_refl | trivial].
Qed.

Lemma walked_log_error self error : walked self (TypeAnalyser._log_error self error).
Proof. now exists [error]. Qed.

Lemma extends_log self error :
  extends self
    (TypeAnalyser.set_errors self (TypeAnalyser.errors self ++ [error])).
Proof. now exists [error]. Qed.

Lemma walked_return self v : walked self (self, Returns v).
Proof. reflexivity. Qed.

Lemma walked_raise self e : walked self (self, Raises e).
Proof. apply extends_refl. Qed.

Lemma walked_raise_trans self self1 e :
  extends self self1 -> walked self (self1, Raises e).
Proof. trivial. Qed.

Lemma walked_except self line col o :
  walked self o -> walked self (TypeAnalyser.except_MismatchedTypes line col o).
Proof.
  destruct o as [self' [v|[error|e]]]; simpl; trivial.
  destruct error; trivial.
  destruct args as [|expected [|actual rest]]; trivial.
  intros H. eapply extends_trans; [exact H|]. now eexists [_].
Qed.

Lemma walked_discard self o : walked self o -> walked self (TypeAnalyser.discard o).
Proof. destruct o as [self' [v|e]]; trivial. Qed.

Create HintDb walk.

#[local] Hint Resolve walked_log_error walked_return walked_raise walked_except
  walked_discard extends_refl extends_log : walk.

Lemma walked_check_Subscript self l c v i :
  walked self (TypeAnalyser.check_Subscript self l c v i).
Proof.
  unfold TypeAnalyser.check_Subscript.
  repeat match goal with
         | |- context [if ?b then _ else _] => destruct b
         | |- context [match ?x with _ => _ end] => destruct x
         end; auto with walk.
Qed.

Lemma walked_check_test self l c v :
  walked self (TypeAnalyser.check_test self l c v).
Proof.
  unfold TypeAnalyser.check_test.
  destruct (TypeAnalyser.get_type self v) as [test_type|e];
    [destruct (negb _)|]; auto with walk.
Qed.

Section Walk.

Variable BinaryOp_table : list BinaryOperation.t.
Variable UnaryOp_table : list UnaryOperation.t.

Local Abbreviation visit := (TypeAnalyser.visit BinaryOp_table UnaryOp_table).
Local Abbreviation visit_stmt := (TypeAnalyser.visit_stmt BinaryOp_table UnaryOp_table).
Local Abbreviation get_bin_op := (TypeAnalyser.get_bin_op BinaryOp_table).
Local Abbreviation get_un_op := (TypeAnalyser.get_un_op UnaryOp_table).
Local Abbreviation pairs_resolve := (pairs_resolve BinaryOp_table UnaryOp_table).
Local Abbreviation compares_resolve :=
  (compares_resolve BinaryOp_table UnaryOp_table).

Lemma walked_resolve_BinOp self l c op operator r_operand l_operand :
  walked self
    (snd (TypeAnalyser.resolve_BinOp BinaryOp_table self l c op operator
            r_operand l_operand)).
Proof.
  unfold TypeAnalyser.resolve_BinOp.
  destruct operator as [operator|]; cbn [snd]; auto with walk.
  destruct (get_bin_op self operator r_operand l_operand) as [operation|e];
    [destruct (negb _)|]; cbn [snd]; auto with walk.
Qed.

Lemma walked_resolve_UnaryOp self l c op operator operand :
  walked self
    (snd (TypeAnalyser.resolve_UnaryOp UnaryOp_table self l c op operator operand)).
Proof.
  unfold TypeAnalyser.resolve_UnaryOp.
  destruct operator as [operator|]; cbn [snd]; auto with walk.
  destruct (get_un_op self operator operand) as [operation|e];
    [destruct (negb _)|]; cbn [snd]; auto with walk.
Qed.

Lemma walked_resolve_Compare self l c op r_operand l_operand :
  walked self
    (snd (TypeAnalyser.resolve_Compare BinaryOp_table self l c op r_operand l_operand)).
Proof.
  unfold TypeAnalyser.resolve_Compare.
  destruct (TypeAnalyser.get_operator op) as [operator|]; cbn [snd]; auto with walk.
  destruct (get_bin_op self operator r_operand l_operand) as [operation|e];
    [destruct (negb _)|]; cbn [snd]; auto with walk.
Qed.

(** The loop of [visit_Compare] keeps the invariant when the visit of every
    comparator does. *)
Lemma walked_loop_Compare comparators :
  Forall (fun e => forall self, walked self (snd (visit self e))) comparators ->
  forall ops self line col l_operand return_type,
    walked self
      (snd (TypeAnalyser.loop_Compare BinaryOp_table visit ops comparators self
              line col l_operand return_type)).
Proof.
  induction 1 as [|comparator rest Hhead _ IH]; intros ops self line col l_operand rt.
  - destruct ops; simpl; auto with walk.
  - destruct ops as [|op ops]; simpl; auto with walk.
    specialize (Hhead self).
    destruct (visit self comparator) as [comparator' [self1 [r_operand|e]]];
      simpl in *; [subst self1 | exact Hhead].
    pose proof (walked_resolve_Compare self line col op r_operand l_operand) as Hstep.
    destruct (TypeAnalyser.resolve_Compare _ _ _ _ _ _ _)
      as [op' [self2 [return_type'|e]]]; simpl in *; [subst self2 | exact Hstep].
    specialize (IH ops self (ast.lineno comparator) (ast.col_offset comparator)
                  r_operand return_type').
    destruct (TypeAnalyser.loop_Compare _ _ _ _ _ _ _ _ _) as [[[? ?] ?] ?].
    exact IH.
Qed.

(** The loop of [visit_BoolOp] keeps the invariant when the visit of every
    operand does. *)
Lemma walked_loop_BoolOp operator operands :
  Forall (fun e => forall self, walked self (snd (visit self e))) operands ->
  forall self line col l_operand return_type bool_operation,
    walked self
      (snd (TypeAnalyser.loop_BoolOp BinaryOp_table visit operator operands self
              line col l_operand return_type bool_operation)).
Proof.
  induction 1 as [|operand rest Hhead _ IH];
    intros self line col l_operand rt bool_operation; simpl; auto with walk.
  specialize (Hhead self).
  destruct (visit self operand) as [operand' [self1 [r_operand|e]]];
    simpl in *; [subst self1 | exact Hhead].
  destruct (get_bin_op self operator r_operand l_operand) as [operation|e];
    simpl; auto with walk.
  destruct (TypeAnalyser.record_BoolOp rt bool_operation operation)
    as [return_type' bool_operation'].
  specialize (IH self (ast.lineno operand) (ast.col_offset operand) r_operand
                return_type' bool_operation').
  destruct (TypeAnalyser.loop_BoolOp _ _ _ _ _ _ _ _ _ _) as [[[? ?] ?] ?].
  exact IH.
Qed.

#[local] Arguments TypeAnalyser._log_error : simpl never.
#[local] Arguments TypeAnalyser.except_MismatchedTypes : simpl never.
#[local] Arguments TypeAnalyser.discard : simpl never.
#[local] Arguments TypeAnalyser.visit_Num : simpl never.
#[local] Arguments TypeAnalyser.check_Subscript : simpl never.
#[local] Arguments TypeAnalyser.check_test : simpl never.
#[local] Arguments TypeAnalyser.resolve_BinOp : simpl never.
#[local] Arguments TypeAnalyser.resolve_UnaryOp : simpl never.
#[local] Arguments TypeAnalyser.resolve_Compare : simpl never.
#[local] Arguments TypeAnalyser.loop_Compare : simpl never.
#[local] Arguments TypeAnalyser.loop_BoolOp : simpl never.
#[local] Arguments TypeAnalyser.get_operator : simpl never.

(** Every visitor of an expression returns without a change of the
    analyser, or raises after appending to [errors]. *)
Lemma visit_walked node : forall self, walked self (snd (visit self node)).
Proof.
  induction node as
    [ l c n | l c s | l c v | l c id | l c elts
    | l c v i IHv IHi | l c test body orelse IHtest
    | l c lhs op rhs IHl IHr | l c op operand IHo
    | l c lhs ops comparators IHl IHcs | l c op values IHvs ]
    using expr_nested_ind; intros self; simpl; auto with walk.
  - (* Num *)
    destruct n; unfold TypeAnalyser.visit_Num; auto with walk.
  - (* Subscript *)
    specialize (IHv self).
    destruct (visit self v) as [v' [self1 [value_|e]]]; simpl in *;
      [subst self1 | exact IHv].
    specialize (IHi self).
    destruct (visit self i) as [i' [self2 [index|e]]]; simpl in *;
      [subst self2 | exact IHi].
    apply walked_check_Subscript.
  - (* IfExp *)
    specialize (IHtest self).
    destruct (visit self test) as [test' [self1 [test_value|e]]]; simpl in *;
      [subst self1 | exact IHtest].
    apply walked_check_test.
  - (* BinOp *)
    specialize (IHr self).
    destruct (visit self rhs) as [rhs' [self1 [r_operand|e]]]; simpl in *;
      [subst self1 | exact IHr].
    specialize (IHl self).
    destruct (visit self lhs) as [lhs' [self2 [l_operand|e]]]; simpl in *;
      [subst self2 | exact IHl].
    pose proof (walked_resolve_BinOp self l c op (TypeAnalyser.get_operator op)
                  r_operand l_operand) as H.
    destruct (TypeAnalyser.resolve_BinOp _ _ _ _ _ _ _ _) as [op' o]. exact H.
  - (* UnaryOp *)
    specialize (IHo self).
    destruct (visit self operand) as [operand' [self1 [operand_value|e]]];
      simpl in *; [subst self1 | exact IHo].
    pose proof (walked_resolve_UnaryOp self l c op (TypeAnalyser.get_operator op)
                  operand_value) as H.
    destruct (TypeAnalyser.resolve_UnaryOp _ _ _ _ _ _ _) as [op' o]. exact H.
  - (* Compare *)
    destruct (negb _); simpl; auto with walk.
    specialize (IHl self).
    destruct (visit self lhs) as [lhs' [self1 [l_operand|e]]]; simpl in *.
    + subst self1.
      pose proof (walked_loop_Compare comparators IHcs ops self l c l_operand VNone)
        as H.
      destruct (TypeAnalyser.loop_Compare _ _ _ _ _ _ _ _ _)
        as [[[ops' comparators'] [line col]] o].
      simpl in *. now apply walked_except.
    + now apply (walked_except self l c (self1, Raises e)).
  - (* BoolOp *)
    destruct (TypeAnalyser.get_operator op) as [operator|]; simpl; auto with walk.
    destruct values as [|first rest]; simpl; auto with walk.
    inversion IHvs as [|? ? IHfirst IHrest]; subst.
    specialize (IHfirst self).
    destruct (visit self first) as [first' [self1 [l_operand|e]]]; simpl in *.
    + subst self1.
      pose proof (walked_loop_BoolOp operator rest IHrest self l c l_operand
                    VNone None) as H.
      destruct (TypeAnalyser.loop_BoolOp _ _ _ _ _ _ _ _ _ _)
        as [[[rest' [line col]] bool_operation] [self2 [return_type|e]]];
        simpl in *; [exact H|].
      now apply (walked_except self line col (self2, Raises e)).
    + now apply (walked_except self l c (self1, Raises e)).
Qed.

(** A visitor of an expression that returns has left the analyser as it
    was: in particular it has logged nothing. *)
Lemma visit_returns_unchanged self node node' self' v :
  visit self node = (node', (self', Returns v)) -> self' = self.
Proof.
  intros H. pose proof (visit_walked node self) as Hw. now rewrite H in Hw.
Qed.

Lemma walked_logged self o : walked self o -> logged (TypeAnalyser.errors self) o.
Proof.
  destruct o as [self' [v|e]]; simpl.
  - now intros ->.
  - apply extends_errors.
Qed.

Lemma logged_discard before o :
  logged before o -> logged before (TypeAnalyser.discard o).
Proof. destruct o as [self' [v|e]]; trivial. Qed.

Lemma logged_raise self e : logged (TypeAnalyser.errors self) (self, Raises e).
Proof. exists []. now rewrite app_nil_r. Qed.

Lemma logged_log_error self error :
  logged (TypeAnalyser.errors self) (TypeAnalyser._log_error self error).
Proof. now exists [error]. Qed.

Lemma appended_one (before : list CompilerError.t) error :
  exists new, before ++ [error] = before ++ new.
Proof. now exists [error]. Qed.

Lemma appended_none (before : list CompilerError.t) :
  exists new, before = before ++ new.
Proof. exists []. now rewrite app_nil_r. Qed.

#[local] Hint Resolve walked_logged logged_discard logged_raise logged_log_error
  visit_walked appended_one appended_none : walk.

(** The loop over a list of nodes keeps the invariant of its visitor. *)
Lemma visit_each_logged {N : Type} (f : TypeAnalyser.t -> N -> N * TypeAnalyser.outcome)
  (nodes : list N) :
  Forall (fun n => forall self, logged (TypeAnalyser.errors self) (snd (f self n)))
    nodes ->
  forall self,
    logged (TypeAnalyser.errors self) (snd (TypeAnalyser.visit_each f self nodes)).
Proof.
  induction 1 as [|node rest Hhead _ IH]; intros self; simpl; [reflexivity|].
  specialize (Hhead self).
  destruct (f self node) as [node' [self1 [v|e]]]; simpl in *; [|exact Hhead].
  specialize (IH self1). rewrite Hhead in IH.
  now destruct (TypeAnalyser.visit_each f self1 rest).
Qed.

Lemma visit_expr_logged node self :
  logged (TypeAnalyser.errors self) (snd (visit self node)).
Proof. auto with walk. Qed.

Lemma visit_arg_logged arg self :
  logged (TypeAnalyser.errors self)
    (snd (TypeAnalyser.visit_arg BinaryOp_table UnaryOp_table self arg)).
Proof.
  unfold TypeAnalyser.visit_arg.
  destruct (ast.annotation arg) as [annotation|]; simpl; auto with walk.
  pose proof (visit_expr_logged annotation self) as H.
  destruct (visit self annotation) as [annotation' o]. simpl in *.
  auto with walk.
Qed.

Lemma visit_arguments_logged args self :
  logged (TypeAnalyser.errors self)
    (snd (TypeAnalyser.visit_arguments BinaryOp_table UnaryOp_table self args)).
Proof.
  unfold TypeAnalyser.visit_arguments.
  pose proof (visit_each_logged
                (TypeAnalyser.visit_arg BinaryOp_table UnaryOp_table) args
                (proj2 (Forall_forall _ _) (fun a _ => visit_arg_logged a)) self)
    as H1.
  destruct (TypeAnalyser.visit_each _ self args) as [args' [self1 [v|e]]];
    simpl in *; [|exact H1].
  rewrite <- H1.
  apply visit_each_logged, Forall_forall. intros a _. apply visit_arg_logged.
Qed.

(** Every visitor of a statement returns without having logged, or raises
    after appending to [errors]. *)
Lemma visit_stmt_logged node :
  forall self, logged (TypeAnalyser.errors self) (snd (visit_stmt self node)).
Proof.
  induction node as
    [ l c name args body IHbody | l c v | l c targets v
    | l c test body orelse IHbody IHorelse
    | l c test body orelse IHbody IHorelse | v | | | ]
    using stmt_nested_ind; intros self; simpl; auto with walk.
  - (* FunctionDef *)
    pose proof (visit_arguments_logged args self) as Hargs.
    destruct (TypeAnalyser.visit_arguments _ _ self args) as [args' [self1 [v|e]]];
      simpl in *; [|exact Hargs].
    destruct (dict_get (TypeAnalyser.symbols self1) name) as [method|];
      simpl; rewrite <- Hargs; auto with walk.
    pose proof (visit_each_logged visit_stmt body IHbody
                  (TypeAnalyser.set_current_method self1 (Some method))) as Hbody.
    destruct (TypeAnalyser.visit_each _ _ body) as [body' [self3 [v'|e]]];
      simpl in *; exact Hbody.
  - (* Return *)
    destruct v as [value_|].
    + destruct (ast.is_Tuple value_); simpl; auto with walk.
      destruct (TypeAnalyser.current_return_type self) as [return_type|]; simpl; auto with walk.
      destruct (IType_eqb _ _); simpl; auto with walk.
      pose proof (visit_expr_logged value_ self) as H.
      destruct (visit self value_) as [value' o]. simpl in *. auto with walk.
    + destruct (TypeAnalyser.current_return_type self) as [return_type|]; simpl; auto with walk.
      destruct (negb _); simpl; auto with walk.
  - (* Assign *)
    destruct (Nat.ltb _ _); simpl; auto with walk.
    destruct targets as [|target rest]; simpl; auto with walk.
    destruct (ast.is_Tuple target); simpl; auto with walk.
    pose proof (visit_each_logged visit (target :: rest)
                  (proj2 (Forall_forall _ _) (fun e _ => visit_expr_logged e)) self)
      as Htargets.
    simpl in Htargets.
    destruct (visit self target) as [target' [self0 [v0|e0]]]; simpl in *;
      [|exact Htargets].
    destruct (TypeAnalyser.visit_each visit self0 rest) as [rest' [self1 [v1|e]]];
      simpl in *; [|exact Htargets].
    pose proof (visit_expr_logged v self1) as Hv. rewrite Htargets in Hv.
    destruct (visit self1 v) as [v' o]. simpl in *. auto with walk.
  - (* While *)
    pose proof (visit_walked test self) as Htest.
    destruct (visit self test) as [test' [self1 [test_value|e]]]; simpl in *;
      [subst self1 | now apply extends_errors].
    pose proof (walked_check_test self l c test_value) as Hcheck.
    destruct (TypeAnalyser.check_test self l c test_value) as [self2 [u|e]];
      simpl in *; [subst self2 | now apply extends_errors].
    pose proof (visit_each_logged visit_stmt body IHbody self) as Hbody.
    destruct (TypeAnalyser.visit_each visit_stmt self body) as [body' [self3 [u'|e]]];
      simpl in *; [|exact Hbody].
    pose proof (visit_each_logged visit_stmt orelse IHorelse self3) as Horelse.
    rewrite Hbody in Horelse.
    destruct (TypeAnalyser.visit_each visit_stmt self3 orelse) as [orelse' o].
    exact Horelse.
  - (* If *)
    pose proof (visit_walked test self) as Htest.
    destruct (visit self test) as [test' [self1 [test_value|e]]]; simpl in *;
      [subst self1 | now apply extends_errors].
    pose proof (walked_check_test self l c test_value) as Hcheck.
    destruct (TypeAnalyser.check_test self l c test_value) as [self2 [u|e]];
      simpl in *; [subst self2 | now apply extends_errors].
    pose proof (visit_each_logged visit_stmt body IHbody self) as Hbody.
    destruct (TypeAnalyser.visit_each visit_stmt self body) as [body' [self3 [u'|e]]];
      simpl in *; [|exact Hbody].
    destruct (_ && _); simpl.
    + rewrite <- Hbody. auto with walk.
    + pose proof (visit_each_logged visit_stmt orelse IHorelse self3) as Horelse.
      rewrite Hbody in Horelse.
      destruct (TypeAnalyser.visit_each visit_stmt self3 orelse) as [orelse' o].
      exact Horelse.
  - (* Expr *)
    pose proof (visit_expr_logged v self) as H.
    destruct (visit self v) as [v' o]. simpl in *. auto with walk.
Qed.

(** ** The first logged error ends the walk *)

Lemma relogged_tl_app new error :
  Forall relogged (tl new) -> relogged error ->
  Forall relogged (tl (new ++ [error])).
Proof.
  destruct new as [|first rest]; simpl; intros H Hr; [constructor|].
  apply Forall_app. split; [exact H | now constructor].
Qed.

Lemma ends_log_error self error :
  ends_walk (TypeAnalyser.errors self) (TypeAnalyser._log_error self error).
Proof.
  exists [error]. split; [reflexivity|]. split; [constructor | now exists []].
Qed.

Lemma ends_builtin self e :
  ends_walk (TypeAnalyser.errors self) (self, Raises (Builtin e)).
Proof.
  exists []. rewrite app_nil_r. split; [reflexivity|]. split; [constructor | exact I].
Qed.

Lemma ends_return self v : ends_walk (TypeAnalyser.errors self) (self, Returns v).
Proof. reflexivity. Qed.

Lemma ends_weaken before o : ends_walk before o -> ends_try before o.
Proof.
  destruct o as [self [v|[error|e]]]; simpl; trivial.
  intros (new & H & Ht & Hl). exists new. repeat split; auto.
Qed.

Lemma ends_except line col before o :
  ends_try before o ->
  ends_walk before (TypeAnalyser.except_MismatchedTypes line col o).
Proof.
  unfold TypeAnalyser.except_MismatchedTypes.
  destruct o as [self [v|[error|e]]]; trivial.
  intros (new & Herrors & Htl & Hlast).
  destruct error;
    try (destruct Hlast as [Hlast|(? & ? & ? & ? & ? & ? & ? & Heq)];
         [now exists new | discriminate Heq]).
  destruct args as [|a0 [|a1 args]].
  - exists new. repeat split; trivial.
  - exists new. repeat split; trivial.
  - exists (new ++ [CompilerError.MismatchedTypes_positional line col a0 a1]).
    split; [cbn; rewrite Herrors; now rewrite app_assoc|].
    split; [|now exists new].
    apply relogged_tl_app; [exact Htl | now exists line, col, a0, a1].
Qed.

Lemma ends_discard before o :
  ends_walk before o -> ends_walk before (TypeAnalyser.discard o).
Proof. destruct o as [self' [v|e]]; trivial. Qed.

Lemma ends_raise_AttributeError self e :
  e = Builtin AttributeError -> ends_walk (TypeAnalyser.errors self) (self, Raises e).
Proof. intros ->. apply ends_builtin. Qed.

Lemma ends_get_bin_op self operator right_ left_ e :
  get_bin_op self operator right_ left_ = Raises e ->
  ends_try (TypeAnalyser.errors self) (self, Raises e).
Proof.
  unfold TypeAnalyser.get_bin_op.
  destruct (TypeAnalyser.get_type self left_) as [l_type|e'] eqn:Hl;
    [|intros [= <-]; now apply ends_weaken, ends_raise_AttributeError,
                          (get_type_raises _ _ _ Hl)].
  destruct (TypeAnalyser.get_type self right_) as [r_type|e'] eqn:Hr;
    [|intros [= <-]; now apply ends_weaken, ends_raise_AttributeError,
                          (get_type_raises _ _ _ Hr)].
  destruct (BinaryOp.validate_type _ _ _ _); [discriminate|].
  destruct (BinaryOp.get_operation_by_operator _ _); intros H; injection H as <-.
  - exists []. rewrite app_nil_r. split; [reflexivity|]. split; [constructor|].
    right. now eexists _, _, _, _, _, _, _.
  - apply ends_weaken, ends_builtin.
Qed.

Lemma ends_get_un_op self operator operand e :
  get_un_op self operator operand = Raises e ->
  ends_try (TypeAnalyser.errors self) (self, Raises e).
Proof.
  unfold TypeAnalyser.get_un_op.
  destruct (TypeAnalyser.get_type self operand) as [op_type|e'] eqn:Ho;
    [|intros [= <-]; now apply ends_weaken, ends_raise_AttributeError,
                          (get_type_raises _ _ _ Ho)].
  destruct (UnaryOp.validate_type _ _ _); [discriminate|].
  destruct (UnaryOp.get_operation_by_operator _ _); intros H; injection H as <-.
  - exists []. rewrite app_nil_r. split; [reflexivity|]. split; [constructor|].
    right. now eexists _, _, _, _, _, _, _.
  - apply ends_weaken, ends_builtin.
Qed.

Lemma ends_resolve_BinOp self l c op operator r_operand l_operand :
  ends_walk (TypeAnalyser.errors self)
    (snd (TypeAnalyser.resolve_BinOp BinaryOp_table self l c op operator
            r_operand l_operand)).
Proof.
  unfold TypeAnalyser.resolve_BinOp.
  destruct operator as [operator|]; cbn [snd]; [|apply ends_log_error].
  destruct (get_bin_op self operator r_operand l_operand) as [operation|e] eqn:Hop.
  - destruct (negb _); cbn [snd]; apply ends_except.
    + apply ends_weaken, ends_log_error.
    + reflexivity.
  - cbn [snd]. apply ends_except. eapply ends_get_bin_op, Hop.
Qed.

Lemma ends_resolve_UnaryOp self l c op operator operand :
  ends_walk (TypeAnalyser.errors self)
    (snd (TypeAnalyser.resolve_UnaryOp UnaryOp_table self l c op operator operand)).
Proof.
  unfold TypeAnalyser.resolve_UnaryOp.
  destruct operator as [operator|]; cbn [snd]; [|apply ends_log_error].
  destruct (get_un_op self operator operand) as [operation|e] eqn:Hop.
  - destruct (negb _); cbn [snd]; apply ends_except.
    + apply ends_weaken, ends_log_error.
    + reflexivity.
  - cbn [snd]. apply ends_except. eapply ends_get_un_op, Hop.
Qed.

Lemma ends_resolve_Compare self l c op r_operand l_operand :
  ends_try (TypeAnalyser.errors self)
    (snd (TypeAnalyser.resolve_Compare BinaryOp_table self l c op r_operand l_operand)).
Proof.
  unfold TypeAnalyser.resolve_Compare.
  destruct (TypeAnalyser.get_operator op) as [operator|]; cbn [snd];
    [|apply ends_weaken, ends_log_error].
  destruct (get_bin_op self operator r_operand l_operand) as [operation|e] eqn:Hop.
  - destruct (negb _); cbn [snd]; [apply ends_weaken, ends_log_error | reflexivity].
  - cbn [snd]. eapply ends_get_bin_op, Hop.
Qed.

Lemma ends_check_Subscript self l c v i :
  ends_walk (TypeAnalyser.errors self) (TypeAnalyser.check_Subscript self l c v i).
Proof.
  unfold TypeAnalyser.check_Subscript.
  destruct (TypeAnalyser.symbol_of_Name self v) as [v'|e] eqn:Hv;
    [|now apply ends_raise_AttributeError, (symbol_of_Name_raises _ _ _ Hv)].
  destruct (TypeAnalyser.symbol_of_Name self i) as [i'|e] eqn:Hi;
    [|now apply ends_raise_AttributeError, (symbol_of_Name_raises _ _ _ Hi)].
  destruct (TypeAnalyser.is_IType v' && TypeAnalyser.is_IType i'); [reflexivity|].
  destruct (TypeAnalyser.get_type self v') as [symbol_type|e] eqn:Hst;
    [|now apply ends_raise_AttributeError, (get_type_raises _ _ _ Hst)].
  destruct (TypeAnalyser.get_type self i') as [index_type|e] eqn:Hit;
    [|now apply ends_raise_AttributeError, (get_type_raises _ _ _ Hit)].
  destruct symbol_type; try apply ends_log_error.
  destruct (negb _); [apply ends_log_error | reflexivity].
Qed.

Lemma ends_check_test self l c v :
  ends_walk (TypeAnalyser.errors self) (TypeAnalyser.check_test self l c v).
Proof.
  unfold TypeAnalyser.check_test.
  destruct (TypeAnalyser.get_type self v) as [test_type|e] eqn:Ht.
  - destruct (negb _); [apply ends_log_error | reflexivity].
  - now apply ends_raise_AttributeError, (get_type_raises _ _ _ Ht).
Qed.

Lemma ends_loop_Compare comparators :
  Forall (fun e => forall self,
            ends_walk (TypeAnalyser.errors self) (snd (visit self e))) comparators ->
  forall ops self line col l_operand return_type,
    ends_try (TypeAnalyser.errors self)
      (snd (TypeAnalyser.loop_Compare BinaryOp_table visit ops comparators self
              line col l_operand return_type)).
Proof.
  induction 1 as [|comparator rest Hhead _ IH]; intros ops self line col l_operand rt;
    unfold TypeAnalyser.loop_Compare;
    fold (TypeAnalyser.loop_Compare BinaryOp_table visit).
  - destruct ops; [reflexivity | apply ends_weaken, ends_builtin].
  - destruct ops as [|op ops]; [reflexivity|].
    specialize (Hhead self).
    destruct (visit self comparator) as [comparator' [self1 [r_operand|e]]];
      cbn [snd] in *; [|now apply ends_weaken].
    rewrite <- Hhead.
    pose proof (ends_resolve_Compare self1 line col op r_operand l_operand) as Hstep.
    destruct (TypeAnalyser.resolve_Compare _ _ _ _ _ _ _)
      as [op' [self2 [return_type'|e]]]; cbn [snd] in *; [|exact Hstep].
    rewrite <- Hstep.
    specialize (IH ops self2 (ast.lineno comparator) (ast.col_offset comparator)
                  r_operand return_type').
    destruct (TypeAnalyser.loop_Compare _ _ ops rest _ _ _ _ _) as [[[? ?] ?] ?].
    exact IH.
Qed.

Lemma ends_loop_BoolOp operator operands :
  Forall (fun e => forall self,
            ends_walk (TypeAnalyser.errors self) (snd (visit self e))) operands ->
  forall self line col l_operand return_type bool_operation,
    ends_try (TypeAnalyser.errors self)
      (snd (TypeAnalyser.loop_BoolOp BinaryOp_table visit operator operands self
              line col l_operand return_type bool_operation)).
Proof.
  induction 1 as [|operand rest Hhead _ IH];
    intros self line col l_operand rt bo;
    unfold TypeAnalyser.loop_BoolOp;
    fold (TypeAnalyser.loop_BoolOp BinaryOp_table visit operator); [reflexivity|].
  specialize (Hhead self).
  destruct (visit self operand) as [operand' [self1 [r_operand|e]]];
    cbn [snd] in *; [|now apply ends_weaken].
  rewrite <- Hhead.
  destruct (get_bin_op self1 operator r_operand l_operand) as [operation|e] eqn:Hop;
    [|cbn [snd]; eapply ends_get_bin_op, Hop].
  destruct (TypeAnalyser.record_BoolOp rt bo operation) as [rt' bo'].
  specialize (IH self1 (ast.lineno operand) (ast.col_offset operand) r_operand rt' bo').
  destruct (TypeAnalyser.loop_BoolOp _ _ _ rest _ _ _ _ _ _) as [[[? ?] ?] ?].
  exact IH.
Qed.

(** Every visitor of an expression returns with nothing logged, or raises
    with its diagnostics appended as [ends_walk] says. *)
Lemma visit_ends node :
  forall self, ends_walk (TypeAnalyser.errors self) (snd (visit self node)).
Proof.
  induction node as
    [ l c n | l c s | l c v | l c id | l c elts
    | l c v i IHv IHi | l c test body orelse IHtest
    | l c lhs op rhs IHl IHr | l c op operand IHo
    | l c lhs ops comparators IHl IHcs | l c op values IHvs ]
    using expr_nested_ind; intros self; cbn [TypeAnalyser.visit snd];
    try reflexivity.
  - (* Num *)
    destruct n; unfold TypeAnalyser.visit_Num;
      first [reflexivity | apply ends_log_error].
  - (* Subscript *)
    specialize (IHv self).
    destruct (visit self v) as [v' [self1 [value_|e]]]; cbn [snd] in *;
      [|exact IHv].
    rewrite <- IHv. specialize (IHi self1).
    destruct (visit self1 i) as [i' [self2 [index|e]]]; cbn [snd] in *;
      [|exact IHi].
    rewrite <- IHi. apply ends_check_Subscript.
  - (* IfExp *)
    specialize (IHtest self).
    destruct (visit self test) as [test' [self1 [test_value|e]]]; cbn [snd] in *;
      [|exact IHtest].
    rewrite <- IHtest. apply ends_check_test.
  - (* BinOp *)
    specialize (IHr self).
    destruct (visit self rhs) as [rhs' [self1 [r_operand|e]]]; cbn [snd] in *;
      [|exact IHr].
    rewrite <- IHr. specialize (IHl self1).
    destruct (visit self1 lhs) as [lhs' [self2 [l_operand|e]]]; cbn [snd] in *;
      [|exact IHl].
    rewrite <- IHl.
    pose proof (ends_resolve_BinOp self2 l c op (TypeAnalyser.get_operator op)
                  r_operand l_operand) as H.
    destruct (TypeAnalyser.resolve_BinOp _ _ _ _ _ _ _ _) as [op' o]. exact H.
  - (* UnaryOp *)
    specialize (IHo self).
    destruct (visit self operand) as [operand' [self1 [operand_value|e]]];
      cbn [snd] in *; [|exact IHo].
    rewrite <- IHo.
    pose proof (ends_resolve_UnaryOp self1 l c op (TypeAnalyser.get_operator op)
                  operand_value) as H.
    destruct (TypeAnalyser.resolve_UnaryOp _ _ _ _ _ _ _) as [op' o]. exact H.
  - (* Compare *)
    destruct (negb _); cbn [snd]; [apply ends_log_error|].
    specialize (IHl self).
    destruct (visit self lhs) as [lhs' [self1 [l_operand|e]]]; cbn [snd] in *.
    + rewrite <- IHl.
      pose proof (ends_loop_Compare comparators IHcs ops self1 l c l_operand VNone)
        as H.
      destruct (TypeAnalyser.loop_Compare _ _ _ _ _ _ _ _ _)
        as [[[ops' comparators'] [line col]] o].
      cbn [snd] in *. now apply ends_except.
    + apply ends_except. now apply ends_weaken.
  - (* BoolOp *)
    destruct (TypeAnalyser.get_operator op) as [operator|]; cbn [snd];
      [|apply ends_except, ends_weaken, ends_log_error].
    destruct values as [|first rest]; cbn [snd]; [apply ends_builtin|].
    inversion IHvs as [|? ? IHfirst IHrest]; subst.
    specialize (IHfirst self).
    destruct (visit self first) as [first' [self1 [l_operand|e]]]; cbn [snd] in *.
    + rewrite <- IHfirst.
      pose proof (ends_loop_BoolOp operator rest IHrest self1 l c l_operand
                    VNone None) as H.
      destruct (TypeAnalyser.loop_BoolOp _ _ _ _ _ _ _ _ _ _)
        as [[[rest' [line col]] recorded] [self2 [rt|e]]];
        cbn [snd] in *; [exact H|].
      now apply (ends_except line col _ (self2, Raises e)).
    + apply ends_except. now apply ends_weaken.
Qed.

Lemma visit_each_ends {N : Type} (f : TypeAnalyser.t -> N -> N * TypeAnalyser.outcome)
  (nodes : list N) :
  Forall (fun n => forall self,
            ends_walk (TypeAnalyser.errors self) (snd (f self n))) nodes ->
  forall self,
    ends_walk (TypeAnalyser.errors self) (snd (TypeAnalyser.visit_each f self nodes)).
Proof.
  induction 1 as [|node rest Hhead _ IH]; intros self; simpl; [reflexivity|].
  specialize (Hhead self).
  destruct (f self node) as [node' [self1 [v|e]]]; cbn [snd] in *; [|exact Hhead].
  rewrite <- Hhead. specialize (IH self1).
  now destruct (TypeAnalyser.visit_each f self1 rest).
Qed.

Lemma visit_arg_ends arg self :
  ends_walk (TypeAnalyser.errors self)
    (snd (TypeAnalyser.visit_arg BinaryOp_table UnaryOp_table self arg)).
Proof.
  unfold TypeAnalyser.visit_arg.
  destruct (ast.annotation arg) as [annotation|]; cbn [snd];
    [|apply ends_log_error].
  pose proof (visit_ends annotation self) as H.
  destruct (visit self annotation) as [annotation' o]. cbn [snd] in *.
  now apply ends_discard.
Qed.

Lemma visit_arguments_ends args self :
  ends_walk (TypeAnalyser.errors self)
    (snd (TypeAnalyser.visit_arguments BinaryOp_table UnaryOp_table self args)).
Proof.
  unfold TypeAnalyser.visit_arguments.
  pose proof (visit_each_ends
                (TypeAnalyser.visit_arg BinaryOp_table UnaryOp_table) args
                (proj2 (Forall_forall _ _) (fun a _ => visit_arg_ends a)) self) as H1.
  destruct (TypeAnalyser.visit_each _ self args) as [args' [self1 [v|e]]];
    cbn [snd] in *; [|exact H1].
  rewrite <- H1.
  apply visit_each_ends, Forall_forall. intros a _. apply visit_arg_ends.
Qed.

(** Every visitor of a statement returns with nothing logged, or raises
    with its diagnostics appended as [ends_walk] says. *)
Lemma visit_stmt_ends node :
  forall self, ends_walk (TypeAnalyser.errors self) (snd (visit_stmt self node)).
Proof.
  induction node as
    [ l c name args body IHbody | l c v | l c targets v
    | l c test body orelse IHbody IHorelse
    | l c test body orelse IHbody IHorelse | v | | | ]
    using stmt_nested_ind; intros self; cbn [TypeAnalyser.visit_stmt];
    try reflexivity; try apply ends_builtin.
  - (* FunctionDef *)
    pose proof (visit_arguments_ends args self) as Hargs.
    destruct (TypeAnalyser.visit_arguments _ _ self args) as [args' [self1 [v|e]]];
      cbn [snd] in *; [|exact Hargs].
    rewrite <- Hargs.
    destruct (dict_get (TypeAnalyser.symbols self1) name) as [method|];
      cbn [snd]; [|apply ends_builtin].
    pose proof (visit_each_ends visit_stmt body IHbody
                  (TypeAnalyser.set_current_method self1 (Some method))) as Hbody.
    destruct (TypeAnalyser.visit_each _ _ body) as [body' [self3 [v'|e]]];
      cbn [snd] in *; exact Hbody.
  - (* Return *)
    destruct v as [value_|].
    + destruct (ast.is_Tuple value_); cbn [snd]; [apply ends_log_error|].
      destruct (TypeAnalyser.current_return_type self) as [return_type|]; cbn [snd];
        [|apply ends_builtin].
      destruct (IType_eqb _ _); cbn [snd]; [apply ends_log_error|].
      pose proof (visit_ends value_ self) as H.
      destruct (visit self value_) as [value' o]. cbn [snd] in *.
      now apply ends_discard.
    + destruct (TypeAnalyser.current_return_type self) as [return_type|]; cbn [snd];
        [|apply ends_builtin].
      destruct (negb _); cbn [snd]; [apply ends_log_error | reflexivity].
  - (* Assign *)
    destruct (Nat.ltb _ _); cbn [snd]; [apply ends_log_error|].
    destruct targets as [|target rest]; cbn [snd]; [apply ends_builtin|].
    destruct (ast.is_Tuple target); cbn [snd]; [apply ends_log_error|].
    pose proof (visit_each_ends visit (target :: rest)
                  (proj2 (Forall_forall _ _) (fun e _ => visit_ends e)) self)
      as Htargets.
    destruct (TypeAnalyser.visit_each visit self (target :: rest))
      as [targets' [self1 [v1|e]]]; cbn [snd] in *; [|exact Htargets].
    rewrite <- Htargets.
    pose proof (visit_ends v self1) as Hv.
    destruct (visit self1 v) as [v' o]. cbn [snd] in *. now apply ends_discard.
  - (* While *)
    pose proof (visit_ends test self) as Htest.
    destruct (visit self test) as [test' [self1 [test_value|e]]]; cbn [snd] in *;
      [|exact Htest].
    rewrite <- Htest.
    pose proof (ends_check_test self1 l c test_value) as Hcheck.
    destruct (TypeAnalyser.check_test self1 l c test_value) as [self2 [u|e]];
      cbn [snd] in *; [|exact Hcheck].
    rewrite <- Hcheck.
    pose proof (visit_each_ends visit_stmt body IHbody self2) as Hbody.
    destruct (TypeAnalyser.visit_each visit_stmt self2 body) as [body' [self3 [u'|e]]];
      cbn [snd] in *; [|exact Hbody].
    rewrite <- Hbody.
    pose proof (visit_each_ends visit_stmt orelse IHorelse self3) as Horelse.
    destruct (TypeAnalyser.visit_each visit_stmt self3 orelse) as [orelse' o].
    exact Horelse.
  - (* If *)
    pose proof (visit_ends test self) as Htest.
    destruct (visit self test) as [test' [self1 [test_value|e]]]; cbn [snd] in *;
      [|exact Htest].
    rewrite <- Htest.
    pose proof (ends_check_test self1 l c test_value) as Hcheck.
    destruct (TypeAnalyser.check_test self1 l c test_value) as [self2 [u|e]];
      cbn [snd] in *; [|exact Hcheck].
    rewrite <- Hcheck.
    pose proof (visit_each_ends visit_stmt body IHbody self2) as Hbody.
    destruct (TypeAnalyser.visit_each visit_stmt self2 body) as [body' [self3 [u'|e]]];
      cbn [snd] in *; [|exact Hbody].
    rewrite <- Hbody.
    destruct (_ && _); cbn [snd]; [apply ends_builtin|].
    pose proof (visit_each_ends visit_stmt orelse IHorelse self3) as Horelse.
    destruct (TypeAnalyser.visit_each visit_stmt self3 orelse) as [orelse' o].
    exact Horelse.
  - (* Expr *)
    pose proof (visit_ends v self) as H.
    destruct (visit self v) as [v' o]. cbn [snd] in *. now apply ends_discard.
Qed.

(** The loop over [pre ++ rest], when the walk of [pre] returns, goes on
    with [rest] from the analyser the walk of [pre] leaves. *)
Lemma visit_each_app {N : Type} (f : TypeAnalyser.t -> N -> N * TypeAnalyser.outcome)
  (pre rest : list N) :
  forall self pre' self1 v,
    TypeAnalyser.visit_each f self pre = (pre', (self1, Returns v)) ->
    TypeAnalyser.visit_each f self (pre ++ rest)
    = (pre' ++ fst (TypeAnalyser.visit_each f self1 rest),
       snd (TypeAnalyser.visit_each f self1 rest)).
Proof.
  induction pre as [|node pre IH]; intros self pre' self1 v H; simpl in *.
  - injection H as <- <-. now destruct (TypeAnalyser.visit_each f self rest).
  - destruct (f self node) as [node' [self0 [v0|e0]]]; [|discriminate].
    destruct (TypeAnalyser.visit_each f self0 pre) as [pre0 [self2 r2]] eqn:Hpre.
    injection H as <- <- ->.
    now rewrite (IH self0 pre0 self2 v Hpre).
Qed.

(** C1 (amended).  When an error is logged during the walk of an
    expression or of a statement, that walk ends with an exception: it
    does not resume.  The exception need not be the error logged first: a
    raised compiler error is the last diagnostic the walk appended, and
    every diagnostic appended after the first one is a [MismatchedTypes]
    logged again by a handler.  In the loop over the statements of a
    module, the statement that logs ends the loop with its exception:
    the statements after it are left as they were and the analyser is the
    one that statement left, so no subsequent statement is analysed.  A
    function definition whose body raises passes the exception on. *)
Theorem log_error_ends_walk :
  (forall self node,
     TypeAnalyser.errors (fst (snd (visit self node))) <> TypeAnalyser.errors self ->
     exists e, snd (snd (visit self node)) = Raises e)
  /\ (forall self node,
        TypeAnalyser.errors (fst (snd (visit_stmt self node)))
        <> TypeAnalyser.errors self ->
        exists e, snd (snd (visit_stmt self node)) = Raises e)
  /\ (forall self node node' self' e,
        visit self node = (node', (self', Raises e)) ->
        exists new,
          self' = TypeAnalyser.set_errors self (TypeAnalyser.errors self ++ new)
          /\ Forall relogged (tl new)
          /\ match e with
             | CompilerErr error => exists earlier, new = earlier ++ [error]
             | Builtin _ => True
             end)
  /\ (forall self node node' self' e,
        visit_stmt self node = (node', (self', Raises e)) ->
        exists new,
          TypeAnalyser.errors self' = TypeAnalyser.errors self ++ new
          /\ Forall relogged (tl new)
          /\ match e with
             | CompilerErr error => exists earlier, new = earlier ++ [error]
             | Builtin _ => True
             end)
  /\ (forall self pre s post pre' self1 v,
        TypeAnalyser.visit_Module BinaryOp_table UnaryOp_table self pre
        = (pre', (self1, Returns v)) ->
        TypeAnalyser.errors (fst (snd (visit_stmt self1 s)))
        <> TypeAnalyser.errors self1 ->
        exists e,
          snd (snd (visit_stmt self1 s)) = Raises e
          /\ TypeAnalyser.visit_Module BinaryOp_table UnaryOp_table self
               (pre ++ s :: post)
             = (pre' ++ fst (visit_stmt self1 s) :: post,
                (fst (snd (visit_stmt self1 s)), Raises e)))
  /\ (forall self l c name args body args' self1 v method body' self3 e,
        TypeAnalyser.visit_arguments BinaryOp_table UnaryOp_table self args
        = (args', (self1, Returns v)) ->
        dict_get (TypeAnalyser.symbols self1) name = Some method ->
        TypeAnalyser.visit_each visit_stmt
          (TypeAnalyser.set_current_method self1 (Some method)) body
        = (body', (self3, Raises e)) ->
        visit_stmt self (ast.FunctionDef l c name args body)
        = (ast.FunctionDef l c name args' body', (self3, Raises e))).
Proof.
  assert (Hstmt : forall self node,
             TypeAnalyser.errors (fst (snd (visit_stmt self node)))
             <> TypeAnalyser.errors self ->
             exists e, snd (snd (visit_stmt self node)) = Raises e).
  { intros self node Hne. pose proof (visit_stmt_logged node self) as H.
    destruct (visit_stmt self node) as [node' [self' [v|e]]]; simpl in *.
    - contradiction.
    - now exists e. }
  split; [|split; [exact Hstmt|split; [|split; [|split]]]].
  - intros self node Hne. pose proof (visit_walked node self) as H.
    destruct (visit self node) as [node' [self' [v|e]]]; simpl in *.
    + now subst self'.
    + now exists e.
  - intros self node node' self' e H.
    pose proof (visit_ends node self) as He. rewrite H in He.
    destruct He as (new & Herrors & Htl & Hlast).
    pose proof (visit_walked node self) as Hw. rewrite H in Hw.
    destruct Hw as [new' ->]. cbn in Herrors.
    apply app_inv_head in Herrors. subst new'. now exists new.
  - intros self node node' self' e H.
    pose proof (visit_stmt_ends node self) as He. now rewrite H in He.
  - intros self pre s post pre' self1 v Hpre Hne.
    destruct (Hstmt self1 s Hne) as [e He]. exists e. split; [exact He|].
    unfold TypeAnalyser.visit_Module in *.
    rewrite (visit_each_app _ pre (s :: post) self pre' self1 v Hpre).
    simpl. destruct (visit_stmt self1 s) as [s' [self2 r]]. simpl in He.
    now subst r.
  - intros self l c name args body args' self1 v method body' self3 e
      Hargs Hname Hbody.
    simpl. rewrite Hargs, Hname. now rewrite Hbody.
Qed.

(** ** The order of the diagnostics *)

(** A visitor of an expression that returns, spelt out. *)
Lemma visit_returns self node v :
  snd (snd (visit self node)) = Returns v ->
  visit self node = (fst (visit self node), (self, Returns v)).
Proof.
  destruct (visit self node) as [node' [self' r]] eqn:H. simpl. intros ->.
  now rewrite (visit_returns_unchanged _ _ _ _ _ H).
Qed.

Lemma last_cons {A : Type} (a : A) (l : list A) (d : A) :
  last (a :: l) d = last l a.
Proof.
  revert a d. induction l as [|b l IH]; intros a d; [reflexivity|].
  change (last (a :: b :: l) d) with (last (b :: l) d). now rewrite !IH.
Qed.

Lemma compares_resolve_length pre :
  forall self l_operand ops_pre,
    compares_resolve self l_operand ops_pre pre ->
    List.length ops_pre = List.length pre.
Proof.
  induction pre as [|comparator pre IH]; intros self l_operand [|op ops_pre] H;
    try contradiction; [reflexivity|].
  destruct H as (operator & r_operand & operation & _ & _ & _ & _ & Hrest).
  simpl. f_equal. eapply IH, Hrest.
Qed.

(** The loop of [visit_Compare] reaches a comparator when the comparisons
    before it resolve; when its walk raises, the loop ends there, with the
    position of the comparator before it. *)
Lemma loop_Compare_raising_comparator pre :
  forall ops_pre self line col l_operand return_type op ops_post comparator post
         comparator' self1 e,
    compares_resolve self l_operand ops_pre pre ->
    visit self comparator = (comparator', (self1, Raises e)) ->
    exists ops_pre',
      List.length ops_pre' = List.length ops_pre
      /\ TypeAnalyser.loop_Compare BinaryOp_table visit (ops_pre ++ op :: ops_post)
           (pre ++ comparator :: post) self line col l_operand return_type
         = (ops_pre' ++ op :: ops_post,
            map (fun x => fst (visit self x)) pre ++ comparator' :: post,
            last (map position pre) (line, col), (self1, Raises e)).
Proof.
  induction pre as [|comparator0 pre IH];
    intros [|op0 ops_pre] self line col l_operand rt op ops_post comparator post
      comparator' self1 e Hres Hraise; try contradiction;
    cbn [app map]; unfold TypeAnalyser.loop_Compare;
    fold (TypeAnalyser.loop_Compare BinaryOp_table visit).
  - exists []. split; [reflexivity|]. now rewrite Hraise.
  - destruct Hres as (operator & r_operand & operation & Hop & Hvisit & Hget & Hsup
                      & Hrest).
    rewrite (visit_returns _ _ _ Hvisit).
    unfold TypeAnalyser.resolve_Compare. rewrite Hop, Hget, Hsup. cbn [negb].
    destruct (IH ops_pre self (ast.lineno comparator0) (ast.col_offset comparator0)
                r_operand (VType (BinaryOperation.result operation)) op ops_post
                comparator post comparator' self1 e Hrest Hraise)
      as (ops_pre' & Hlen & Hloop).
    exists (ast.BinaryResolved operation :: ops_pre').
    split; [simpl; now rewrite Hlen|].
    rewrite Hloop, last_cons. reflexivity.
Qed.

(** The loop of [visit_BoolOp] reaches an operand when the pairs before it
    resolve; when its walk raises, the loop ends there, with the position
    of the operand before it. *)
Lemma loop_BoolOp_raising_operand operator pre :
  forall self line col l_operand return_type bool_operation operand post
         operand' self1 e,
    pairs_resolve self operator l_operand pre ->
    visit self operand = (operand', (self1, Raises e)) ->
    exists recorded,
      TypeAnalyser.loop_BoolOp BinaryOp_table visit operator (pre ++ operand :: post)
        self line col l_operand return_type bool_operation
      = (map (fun x => fst (visit self x)) pre ++ operand' :: post,
         last (map position pre) (line, col), recorded, (self1, Raises e)).
Proof.
  induction pre as [|operand0 pre IH];
    intros self line col l_operand rt bo operand post operand' self1 e Hpairs Hraise;
    cbn [app map]; unfold TypeAnalyser.loop_BoolOp;
    fold (TypeAnalyser.loop_BoolOp BinaryOp_table visit operator).
  - exists bo. now rewrite Hraise.
  - destruct Hpairs as (r_operand & operation & Hvisit & Hop & Hrest).
    rewrite (visit_returns _ _ _ Hvisit). rewrite Hop.
    destruct (TypeAnalyser.record_BoolOp rt bo operation) as [rt' bo'].
    destruct (IH self (ast.lineno operand0) (ast.col_offset operand0) r_operand rt' bo'
                operand post operand' self1 e Hrest Hraise) as (recorded & Hloop).
    exists recorded. rewrite Hloop, last_cons. reflexivity.
Qed.


(** ** Operations that are typed but not supported *)

Lemma Concat_validate_type_iff l r :
  Concat.validate_type [l; r] = true <-> l = Type_str /\ r = Type_str.
Proof.
  unfold Concat.validate_type, IType_eqb; simpl.
  destruct (IType_eq_dec l r) as [<-|Hne]; simpl.
  - destruct (IType_eq_dec l Type_str) as [->|Hl]; simpl.
    + now split.
    + split; [discriminate | intros [? _]; contradiction].
  - split; [discriminate|]. intros [-> ->]. contradiction.
Qed.

(** C5.  [Concat.validate_type] holds exactly for two strings (and for no
    other number of operands), the result type is then the string type,
    and the operation is not supported.  Hence, when the registry resolves
    [Plus] on two strings to the concatenation, a binary operation with the
    operator [Plus] whose operands both have the string type logs
    [NotSupportedOperation] for [Plus] (and no [MismatchedTypes]), raises
    it, and leaves the operator slot as it was. *)
Theorem Concat_typed_not_supported :
  (forall l r, Concat.validate_type [l; r] = true <-> l = Type_str /\ r = Type_str)
  /\ (forall types, List.length types <> 2%nat -> Concat.validate_type types = false)
  /\ (forall l r, Concat.validate_type [l; r] = true ->
                  BinaryOperation.result (Concat.init l r) = Type_str)
  /\ BinaryOperation.result Concat.default = Type_str
  /\ (forall l r, BinaryOperation.is_supported (Concat.init l r) = false)
  /\ (forall self l c lhs op rhs r_operand l_operand,
        BinaryOp.validate_type BinaryOp_table Operator.Plus Type_str Type_str
        = Some Concat.default ->
        TypeAnalyser.get_operator op = Some Operator.Plus ->
        snd (snd (visit self rhs)) = Returns r_operand ->
        snd (snd (visit self lhs)) = Returns l_operand ->
        TypeAnalyser.get_type self l_operand = Returns Type_str ->
        TypeAnalyser.get_type self r_operand = Returns Type_str ->
        visit self (ast.BinOp l c lhs op rhs)
        = (ast.BinOp l c (fst (visit self lhs)) op (fst (visit self rhs)),
           (TypeAnalyser.set_errors self
              (TypeAnalyser.errors self
               ++ [CompilerError.NotSupportedOperation l c
                     (CompilerError.OfOperator Operator.Plus)]),
            Raises (CompilerErr
                      (CompilerError.NotSupportedOperation l c
                         (CompilerError.OfOperator Operator.Plus)))))).
Proof.
  split; [exact Concat_validate_type_iff|].
  split.
  { intros types Hlen. unfold Concat.validate_type, Concat._get_number_of_operands.
    destruct (Nat.eqb_spec (List.length types) 2); [contradiction | reflexivity]. }
  split.
  { intros l r H. simpl. unfold Concat._get_result. rewrite H.
    now apply Concat_validate_type_iff in H. }
  split; [reflexivity|].
  split; [reflexivity|].
  intros self l c lhs op rhs r_operand l_operand Hreg Hop Hr Hl Hlt Hrt.
  simpl. rewrite (visit_returns _ _ _ Hr). rewrite (visit_returns _ _ _ Hl).
  simpl. rewrite Hop.
  unfold TypeAnalyser.resolve_BinOp, TypeAnalyser.get_bin_op.
  rewrite Hlt, Hrt, Hreg. reflexivity.
Qed.

(** ** Return statements *)

(** The identifier [__current_method_id] reports for the current method:
    the key of the first entry of the symbol table that is this method. *)
Lemma current_method_id_first self method name pre post :
  TypeAnalyser.current_method self = Some (SymMethod method) ->
  TypeAnalyser.symbols self = pre ++ (name, SymMethod method) :: post ->
  Forall (fun kv => TypeAnalyser.Symbol_is_method method (snd kv) = false) pre ->
  TypeAnalyser.__current_method_id self = Some name.
Proof.
  intros Hm Hs Hpre. unfold TypeAnalyser.__current_method_id.
  rewrite Hm, Hs. clear Hm Hs. cbn [TypeAnalyser.Symbol_is].
  induction Hpre as [|kv pre Hkv _ IH]; simpl.
  - now rewrite Nat.eqb_refl.
  - now rewrite Hkv.
Qed.

(** C6.  A return statement visited inside a method: a returned tuple logs
    [TooManyReturns]; otherwise a returned value in a method declared with
    the return type none logs [TypeHintMissing] with the identifier of the
    method; otherwise a return without a value in a method declared with
    another return type logs [MismatchedTypes] with the actual type none
    and the declared type expected; in the remaining cases the statement
    logs nothing of its own: its outcome is that of the walk of the
    returned expression, or a plain return when there is none. *)
Theorem visit_Return_cases self l c ret_value method
  (Hmethod : TypeAnalyser.current_method self = Some (SymMethod method)) :
  (forall e, ret_value = Some e -> ast.is_Tuple e = true ->
     visit_stmt self (ast.Return l c ret_value)
     = (ast.Return l c ret_value,
        TypeAnalyser._log_error self (CompilerError.TooManyReturns l c)))
  /\ (forall e, ret_value = Some e -> ast.is_Tuple e = false ->
        Method_return_type method = Type_none ->
        visit_stmt self (ast.Return l c ret_value)
        = (ast.Return l c ret_value,
           TypeAnalyser._log_error self
             (CompilerError.TypeHintMissing l c
                (TypeAnalyser.__current_method_id self))))
  /\ (forall name pre post,
        TypeAnalyser.symbols self = pre ++ (name, SymMethod method) :: post ->
        Forall (fun kv => TypeAnalyser.Symbol_is_method method (snd kv) = false) pre ->
        TypeAnalyser.__current_method_id self = Some name)
  /\ (ret_value = None -> Method_return_type method <> Type_none ->
      visit_stmt self (ast.Return l c ret_value)
      = (ast.Return l c ret_value,
         TypeAnalyser._log_error self
           (CompilerError.MismatchedTypes l c
              (identifier (Method_return_type method)) (identifier Type_none) [])))
  /\ (forall e, ret_value = Some e -> ast.is_Tuple e = false ->
        Method_return_type method <> Type_none ->
        visit_stmt self (ast.Return l c ret_value)
        = (ast.Return l c (Some (fst (visit self e))),
           TypeAnalyser.discard (snd (visit self e))))
  /\ (ret_value = None -> Method_return_type method = Type_none ->
      visit_stmt self (ast.Return l c ret_value)
      = (ast.Return l c ret_value, (self, Returns VNone))).
Proof.
  assert (Hnone : forall t, t <> Type_none -> IType_eqb t Type_none = false).
  { intros t Ht. unfold IType_eqb. now destruct (IType_eq_dec t Type_none). }
  assert (Hreturn_type :
            TypeAnalyser.current_return_type self = Some (Method_return_type method)).
  { unfold TypeAnalyser.current_return_type. now rewrite Hmethod. }
  repeat apply conj.
  - intros e -> Htuple. simpl. now rewrite Htuple.
  - intros e -> Htuple Hrt. simpl. now rewrite Htuple, Hreturn_type, Hrt.
  - intros name pre post. now apply current_method_id_first.
  - intros -> Hrt. simpl. now rewrite Hreturn_type, (Hnone _ Hrt).
  - intros e -> Htuple Hrt. simpl. rewrite Htuple, Hreturn_type, (Hnone _ Hrt).
    now destruct (visit self e).
  - intros -> Hrt. simpl. now rewrite Hreturn_type, Hrt.
Qed.

(** ** Boolean operations *)

(** Once an operation is recorded, the loop of [visit_BoolOp] keeps it to
    the end, whatever the later pairs resolve to. *)
Lemma loop_BoolOp_keeps_recorded operator operands :
  forall self line col l_operand return_type recorded,
    pairs_resolve self operator l_operand operands ->
    exists position,
      TypeAnalyser.loop_BoolOp BinaryOp_table visit operator operands self line col
        l_operand return_type (Some recorded)
      = (map (fun e => fst (visit self e)) operands, position, Some recorded,
         (self, Returns return_type)).
Proof.
  induction operands as [|operand rest IH];
    intros self line col l_operand return_type recorded Hpairs.
  - now exists (line, col).
  - destruct Hpairs as (r_operand & operation & Hvisit & Hop & Hrest).
    destruct (IH self (ast.lineno operand) (ast.col_offset operand) r_operand
                return_type recorded Hrest) as [position Hloop].
    exists position.
    unfold TypeAnalyser.loop_BoolOp in *. cbn [map].
    rewrite (visit_returns _ _ _ Hvisit). rewrite Hop. cbn [TypeAnalyser.record_BoolOp].
    rewrite Hloop. reflexivity.
Qed.

(** C7.  In a boolean operation whose operator is known, whose operands
    all return and whose adjacent pairs all resolve to an operation, the
    operator slot is overwritten with the operation of the first pair and
    the visitor returns the result type of that operation; the later pairs
    are processed but not recorded. *)
Theorem BoolOp_records_first_operation self l c op first second rest
  operator l_operand r_operand operation
  (Hoperator : TypeAnalyser.get_operator op = Some operator)
  (Hfirst : snd (snd (visit self first)) = Returns l_operand)
  (Hsecond : snd (snd (visit self second)) = Returns r_operand)
  (Hpair : get_bin_op self operator r_operand l_operand = Returns operation)
  (Hrest : pairs_resolve self operator r_operand rest) :
  visit self (ast.BoolOp l c op (first :: second :: rest))
  = (ast.BoolOp l c (ast.BinaryResolved operation)
       (map (fun e => fst (visit self e)) (first :: second :: rest)),
     (self, Returns (VType (BinaryOperation.result operation)))).
Proof.
  destruct (loop_BoolOp_keeps_recorded operator rest self (ast.lineno second)
              (ast.col_offset second) r_operand
              (VType (BinaryOperation.result operation)) operation Hrest)
    as [position Hloop].
  cbn [TypeAnalyser.visit]. rewrite Hoperator.
  rewrite (visit_returns _ _ _ Hfirst).
  unfold TypeAnalyser.loop_BoolOp in *.
  rewrite (visit_returns _ _ _ Hsecond). rewrite Hpair.
  cbn [TypeAnalyser.record_BoolOp]. rewrite Hloop.
  destruct position. reflexivity.
Qed.

(** ** Operands that raise a mismatch, and slots that are resolved *)

(** A comparison logs again the mismatch its left operand raised. *)
Lemma Compare_logs_mismatch_again self l c lhs ops comparators lhs' self1
  l0 c0 expected actual a0 a1 rest :
  List.length comparators = List.length ops ->
  visit self lhs
  = (lhs', (self1, Raises (CompilerErr
              (CompilerError.MismatchedTypes l0 c0 expected actual
                 (a0 :: a1 :: rest))))) ->
  visit self (ast.Compare l c lhs ops comparators)
  = (ast.Compare l c lhs' ops comparators,
     TypeAnalyser._log_error self1
       (CompilerError.MismatchedTypes_positional l c a0 a1)).
Proof.
  intros Hlen H. cbn [TypeAnalyser.visit].
  rewrite Hlen, Nat.eqb_refl. cbn [negb]. now rewrite H.
Qed.

(** A boolean operation logs again the mismatch its first operand raised. *)
Lemma BoolOp_logs_mismatch_again self l c op operator first rest first' self1
  l0 c0 expected actual a0 a1 args :
  TypeAnalyser.get_operator op = Some operator ->
  visit self first
  = (first', (self1, Raises (CompilerErr
                (CompilerError.MismatchedTypes l0 c0 expected actual
                   (a0 :: a1 :: args))))) ->
  visit self (ast.BoolOp l c op (first :: rest))
  = (ast.BoolOp l c op (first' :: rest),
     TypeAnalyser._log_error self1
       (CompilerError.MismatchedTypes_positional l c a0 a1)).
Proof.
  intros Hop H. cbn [TypeAnalyser.visit]. now rewrite Hop, H.
Qed.

(** A binary operation does not log again what an operand raised. *)
Lemma BinOp_passes_operand_error self l c lhs op rhs :
  forall e, snd (snd (visit self rhs)) = Raises e ->
  snd (visit self (ast.BinOp l c lhs op rhs)) = snd (visit self rhs).
Proof.
  intros e H. cbn [TypeAnalyser.visit].
  destruct (visit self rhs) as [rhs' [self1 r]]. simpl in H. now subst r.
Qed.

(** A binary operation whose slot holds a resolved operation, as a first
    walk leaves it, is rejected: [get_operator] knows members of [Operator]
    and operator tokens only. *)
Lemma BinOp_resolved_slot_rejected self l c lhs operation rhs r_operand l_operand :
  snd (snd (visit self rhs)) = Returns r_operand ->
  snd (snd (visit self lhs)) = Returns l_operand ->
  visit self (ast.BinOp l c lhs (ast.BinaryResolved operation) rhs)
  = (ast.BinOp l c (fst (visit self lhs)) (ast.BinaryResolved operation)
       (fst (visit self rhs)),
     TypeAnalyser._log_error self
       (CompilerError.UnresolvedReference l c (BinaryOperation.cls operation))).
Proof.
  intros Hr Hl. cbn [TypeAnalyser.visit].
  rewrite (visit_returns _ _ _ Hr). rewrite (visit_returns _ _ _ Hl).
  reflexivity.
Qed.

End Walk.

(** * The properties on concrete programs *)

(** C1, as stated, fails here.  Of two statements that each hold a float
    literal, only the first is analysed: the walk of the module raises with the diagnostic of the first
    statement, and the diagnostic the second statement produces when it is
    analysed is never logged. *)
Lemma later_statement_not_analysed :
  TypeAnalyser.errors (fst (snd (Sample.analyse [Programs.second_float] [])))
  = [CompilerError.InvalidType 2 0 "float"]
  /\ Sample.analyse [Programs.first_float; Programs.second_float] []
     = ([Programs.first_float; Programs.second_float],
        (TypeAnalyser.Build [CompilerError.InvalidType 1 0 "float"] [] [] None,
         Raises (CompilerErr (CompilerError.InvalidType 1 0 "float"))))
  /\ ~ In (CompilerError.InvalidType 2 0 "float")
         (TypeAnalyser.errors
            (fst (snd (Sample.analyse
                         [Programs.first_float; Programs.second_float] [])))).
Proof.
  split; [reflexivity|]. split; [reflexivity|].
  simpl. intros [H|[]]. discriminate.
Qed.


(** C3.  The comparison [(1 + "a") < 2] holds one construct with a type
    error, the sum; the walk logs two diagnostics: the mismatch of the sum
    and the same mismatch again at the comparison. *)
Theorem Compare_logs_nested_mismatch_twice :
  Sample.visit (TypeAnalyser.init []) Programs.mismatched_sum
  = (Programs.mismatched_sum,
     TypeAnalyser._log_error (TypeAnalyser.init [])
       (CompilerError.MismatchedTypes_positional 1 1 "int', 'int" "int', 'str"))
  /\ TypeAnalyser.errors
       (fst (snd (Sample.visit (TypeAnalyser.init [])
                    Programs.compare_of_mismatched_sum)))
     = [CompilerError.MismatchedTypes_positional 1 1 "int', 'int" "int', 'str";
        CompilerError.MismatchedTypes_positional 1 0 "int', 'int" "int', 'str"].
Proof. split; reflexivity. Qed.

(** C8.  The first run on [1 + 2] logs nothing and overwrites the operator
    slot with the integer addition; the second run, on the tree the first
    run left, logs [UnresolvedReference] for the class of that operation
    and raises. *)
Theorem second_run_rejects_resolved_slot :
  Sample.analyse [ast.Expr (Programs.int_sum (ast.Token ast.Add))] []
  = ([ast.Expr (Programs.int_sum (ast.BinaryResolved Sample.Addition))],
     (TypeAnalyser.init [], Returns VNone))
  /\ Sample.analyse [ast.Expr (Programs.int_sum (ast.BinaryResolved Sample.Addition))] []
     = ([ast.Expr (Programs.int_sum (ast.BinaryResolved Sample.Addition))],
        TypeAnalyser._log_error (TypeAnalyser.init [])
          (CompilerError.UnresolvedReference 1 0 "Addition")).
Proof. split; reflexivity. Qed.

Lemma Concat_typed_not_supported_witness :
  Sample.visit Programs.inside_f_str Programs.s_plus_t
  = (Programs.s_plus_t,
     TypeAnalyser._log_error Programs.inside_f_str
       (CompilerError.NotSupportedOperation 1 39
          (CompilerError.OfOperator Operator.Plus))).
Proof.
  destruct (Concat_typed_not_supported Sample.BinaryOp_table Sample.UnaryOp_table)
    as (_ & _ & _ & _ & _ & H).
  exact (H Programs.inside_f_str 1 39 (ast.Name 1 39 "s") (ast.Token ast.Add)
           (ast.Name 1 43 "t") (VName "t") (VName "s")
           eq_refl eq_refl eq_refl eq_refl eq_refl eq_refl).
Defined.

Lemma visit_Return_cases_witness :
  Sample.visit_stmt Programs.inside_f_int (ast.Return 1 16 None)
  = (ast.Return 1 16 None,
     TypeAnalyser._log_error Programs.inside_f_int
       (CompilerError.MismatchedTypes 1 16 "int" "none" [])).
Proof.
  destruct (visit_Return_cases Sample.BinaryOp_table Sample.UnaryOp_table
              Programs.inside_f_int 1 16 None Programs.f_int eq_refl)
    as (_ & _ & _ & H & _).
  apply H; [reflexivity | discriminate].
Defined.

Lemma BoolOp_records_first_operation_witness :
  Sample.visit (TypeAnalyser.init []) (Programs.bool_chain (ast.Token ast.And))
  = (Programs.bool_chain (ast.BinaryResolved Sample.BoolAnd),
     (TypeAnalyser.init [], Returns (VType Type_bool))).
Proof.
  exact (BoolOp_records_first_operation Sample.BinaryOp_table Sample.UnaryOp_table
           (TypeAnalyser.init []) 1 0 (ast.Token ast.And)
           (ast.NameConstant 1 0 ast.CTrue) (ast.NameConstant 1 9 ast.CFalse)
           [ast.NameConstant 1 19 ast.CTrue]
           Operator.And (VBool true) (VBool false) Sample.BoolAnd
           eq_refl eq_refl eq_refl eq_refl
           (ex_intro _ (VBool true)
              (ex_intro _ Sample.BoolAnd (conj eq_refl (conj eq_refl I))))).
Defined.

(** In [(1 if 1 else 2) < 3] the conditional expression logs a
    [MismatchedTypes] built with keywords; the handler of the comparison
    catches it, finds no positional argument and fails with [IndexError]:
    the exception that ends the walk is not the error that was logged. *)
Lemma handler_fails_on_keyword_mismatch :
  Sample.visit (TypeAnalyser.init []) Programs.compare_of_ifexp
  = (Programs.compare_of_ifexp,
     (TypeAnalyser.Build [CompilerError.MismatchedTypes_keywords 1 1 "int" "bool"]
        [] [] None,
      Raises (Builtin IndexError))).
Proof. reflexivity. Qed.

Lemma log_error_ends_walk_witness :
  Sample.analyse [ast.Pass; Programs.first_float; Programs.second_float] []
  = ([ast.Pass; Programs.first_float; Programs.second_float],
     (TypeAnalyser.Build [CompilerError.InvalidType 1 0 "float"] [] [] None,
      Raises (CompilerErr (CompilerError.InvalidType 1 0 "float"))))
  /\ exists new,
       fst (snd (Sample.visit (TypeAnalyser.init []) Programs.compare_of_ifexp))
       = TypeAnalyser.set_errors (TypeAnalyser.init []) ([] ++ new)
       /\ Forall relogged (tl new).
Proof.
  destruct (log_error_ends_walk Sample.BinaryOp_table Sample.UnaryOp_table)
    as (_ & _ & Hexpr & _ & H & _).
  split.
  - destruct (H (TypeAnalyser.init []) [ast.Pass] Programs.first_float
                [Programs.second_float] [ast.Pass] (TypeAnalyser.init []) VNone
                eq_refl ltac:(discriminate)) as (e & He & Hwalk).
    injection He as <-. exact Hwalk.
  - destruct (Hexpr (TypeAnalyser.init []) Programs.compare_of_ifexp _ _ _ eq_refl)
      as (new & Hself & Htl & _).
    exists new. split; assumption.
Defined.


(** * Further properties of the opcode table *)

Section OpcodeTable.

Variable from_bytes : list Z -> Z.
Variable to_byte_array : Z -> list Z.

(** [Integer.from_bytes] reads the value of a member as its byte, and
    [Integer.to_byte_array] writes a positive number below 256 as one
    byte. *)
Hypothesis Hfrom : forall o, from_bytes (Opcode.value o) = Opcode.byte_of o.
Hypothesis Hto : forall v, 0 < v < 256 -> to_byte_array v = [v].

Local Abbreviation get_large_jump := (Opcode.get_large_jump from_bytes to_byte_array).
Local Abbreviation get_store := (Opcode.get_store from_bytes to_byte_array).
Local Abbreviation get_load := (Opcode.get_load from_bytes to_byte_array).

Lemma slot_index_cases (index : Z) :
  (0 <=? index) && (index <=? 6) = true ->
  exists k, In k (seq 0 7) /\ index = Z.of_nat k.
Proof.
  intros H. apply andb_prop in H as [H0 H6].
  apply Z.leb_le in H0, H6.
  exists (Z.to_nat index). split; [apply in_seq|]; lia.
Qed.

Lemma get_large_jump_cases (o : Opcode.Opcode) :
  (Opcode.is_large_jump o = true -> get_large_jump o = Returns (Some o))
  /\ (Opcode.is_small_jump o = true ->
      Opcode.is_large_jump o = false
      /\ exists o',
           get_large_jump o = Returns (Some o')
           /\ Opcode.byte_of o' = Opcode.byte_of o + 1
           /\ Opcode.is_large_jump o' = true)
  /\ (Opcode.is_large_jump o = false -> Opcode.is_small_jump o = false ->
      get_large_jump o = Returns None).
Proof.
  unfold Opcode.get_large_jump.
  split; [|split].
  - now intros ->.
  - intros Hs.
    destruct o; try discriminate Hs;
      (split; [reflexivity|]);
      rewrite Hfrom, Hto by (simpl; lia);
      eexists; repeat split; reflexivity.
  - now intros -> ->.
Qed.

(** The jump opcodes: a large jump is its own large jump; a small jump
    has the member declared with the next byte as its large jump, and that
    member is a large jump; any other opcode has none.  No opcode is both a
    small and a large jump. *)
Theorem get_large_jump_classifies (o : Opcode.Opcode) :
  (Opcode.is_large_jump o = true -> get_large_jump o = Returns (Some o))
  /\ (Opcode.is_small_jump o = true ->
      Opcode.is_large_jump o = false
      /\ exists o',
           get_large_jump o = Returns (Some o')
           /\ Opcode.byte_of o' = Opcode.byte_of o + 1
           /\ Opcode.is_large_jump o' = true)
  /\ (Opcode.is_large_jump o = false -> Opcode.is_small_jump o = false ->
      get_large_jump o = Returns None).
Proof. apply get_large_jump_cases. Qed.

(** Taking the large jump twice is taking it once. *)
Theorem get_large_jump_idempotent (o o' : Opcode.Opcode) :
  get_large_jump o = Returns (Some o') ->
  get_large_jump o' = Returns (Some o').
Proof.
  intros H.
  destruct (get_large_jump_cases o) as (Hl & Hs & Hn).
  destruct (get_large_jump_cases o') as (Hl' & _ & _).
  destruct (Opcode.is_large_jump o) eqn:El.
  - rewrite (Hl eq_refl) in H. injection H as <-. now apply Hl'.
  - destruct (Opcode.is_small_jump o) eqn:Es.
    + destruct (Hs eq_refl) as (_ & o2 & H2 & _ & Hl2).
      rewrite H2 in H. injection H as <-. now apply Hl'.
    + rewrite (Hn eq_refl eq_refl) in H. discriminate.
Qed.

(** The first byte of the three families of slot opcodes: static fields,
    locals, arguments ([is_arg] counts for locals only). *)
Lemma get_load_byte (index : Z) (local is_arg : bool) :
  exists o,
    get_load index local is_arg = Returns o
    /\ Opcode.byte_of o
       = Opcode.byte_of (if local then if is_arg then Opcode.LDARG0 else Opcode.LDLOC0
                         else Opcode.LDSFLD0)
         + (if (0 <=? index) && (index <=? 6) then index else 7).
Proof.
  unfold Opcode.get_load.
  destruct ((0 <=? index) && (index <=? 6)) eqn:Hin.
  - destruct (slot_index_cases index Hin) as (k & Hk & ->). simpl in Hk.
    destruct local, is_arg; cbn [negb];
      rewrite Hfrom;
      repeat (destruct Hk as [<-|Hk];
              [rewrite Hto by (simpl; lia); eexists; split; reflexivity|]);
      contradiction.
  - destruct local, is_arg; cbn [negb]; eexists; split; reflexivity.
Qed.

Lemma get_store_byte (index : Z) (local is_arg : bool) :
  exists o,
    get_store index local is_arg = Returns o
    /\ Opcode.byte_of o
       = Opcode.byte_of (if local then if is_arg then Opcode.STARG0 else Opcode.STLOC0
                         else Opcode.STSFLD0)
         + (if (0 <=? index) && (index <=? 6) then index else 7).
Proof.
  unfold Opcode.get_store.
  destruct ((0 <=? index) && (index <=? 6)) eqn:Hin.
  - destruct (slot_index_cases index Hin) as (k & Hk & ->). simpl in Hk.
    destruct local, is_arg; cbn [negb];
      rewrite Hfrom;
      repeat (destruct Hk as [<-|Hk];
              [rewrite Hto by (simpl; lia); eexists; split; reflexivity|]);
      contradiction.
  - destruct local, is_arg; cbn [negb]; eexists; split; reflexivity.
Qed.

(** [get_store] and [get_load] never raise, whatever the index.  For an
    index from 0 to 6 the load opcode is the member declared with the first
    byte of the family (static fields, locals or arguments) plus the index;
    for any other index, negative ones included, it is the generic opcode
    of the family, declared right after slot 6.  The store opcode of a slot
    is the member declared eight bytes after its load opcode. *)
Theorem get_store_eight_after_get_load (index : Z) (local is_arg : bool) :
  exists store load,
    get_store index local is_arg = Returns store
    /\ get_load index local is_arg = Returns load
    /\ Opcode.byte_of load
       = Opcode.byte_of (if local then if is_arg then Opcode.LDARG0 else Opcode.LDLOC0
                         else Opcode.LDSFLD0)
         + (if (0 <=? index) && (index <=? 6) then index else 7)
    /\ Opcode.byte_of store = Opcode.byte_of load + 8.
Proof.
  destruct (get_store_byte index local is_arg) as (store & Hs & Hsb).
  destruct (get_load_byte index local is_arg) as (load & Hl & Hlb).
  exists store, load. repeat split; trivial.
  rewrite Hsb, Hlb.
  destruct ((0 <=? index) && (index <=? 6)), local, is_arg;
    cbn [Opcode.byte_of]; lia.
Qed.

(** Within 0..6 the load opcodes tell the slots apart: equal opcodes mean
    the same index and the same family. *)
Theorem get_load_injective (index index' : Z) (local local' is_arg is_arg' : bool) :
  0 <= index <= 6 -> 0 <= index' <= 6 ->
  get_load index local is_arg = get_load index' local' is_arg' ->
  index = index' /\ local = local' /\ (local = true -> is_arg = is_arg').
Proof.
  intros Hi Hi' Heq.
  destruct (get_load_byte index local is_arg) as (o & Ho & Hb).
  destruct (get_load_byte index' local' is_arg') as (o' & Ho' & Hb').
  rewrite Ho, Ho' in Heq. injection Heq as <-.
  replace ((0 <=? index) && (index <=? 6)) with true in Hb
    by (symmetry; apply andb_true_intro; split; apply Z.leb_le; lia).
  replace ((0 <=? index') && (index' <=? 6)) with true in Hb'
    by (symmetry; apply andb_true_intro; split; apply Z.leb_le; lia).
  rewrite Hb in Hb'.
  destruct local, local', is_arg, is_arg'; cbn [Opcode.byte_of] in Hb';
    try (exfalso; lia);
    repeat split; try lia; try reflexivity; intros; discriminate.
Qed.

End OpcodeTable.

(** The little-endian conversions meet the two assumptions on [Integer]. *)
Lemma le_from_bytes_value (o : Opcode.Opcode) :
  Opcode.le_from_bytes (Opcode.value o) = Opcode.byte_of o.
Proof. simpl. lia. Qed.

Lemma le_to_byte_array_byte (v : Z) :
  0 < v < 256 -> Opcode.le_to_byte_array v = [v].
Proof.
  intros Hv. unfold Opcode.le_to_byte_array.
  assert (Hlog : 0 < Z.log2_up (v + 1)) by (apply Z.log2_up_pos; lia).
  destruct (Z.to_nat (Z.log2_up (v + 1))) as [|fuel] eqn:Hfuel; [lia|].
  simpl. replace (v <=? 0) with false by (symmetry; apply Z.leb_gt; lia).
  rewrite Z.mod_small, Z.div_small by lia.
  now destruct fuel.
Qed.

Lemma get_large_jump_classifies_witness :
  exists o',
    Opcode.get_large_jump Opcode.le_from_bytes Opcode.le_to_byte_array Opcode.JMPIF
    = Returns (Some o')
    /\ Opcode.byte_of o' = 0x25
    /\ Opcode.is_large_jump o' = true.
Proof.
  destruct (get_large_jump_classifies Opcode.le_from_bytes Opcode.le_to_byte_array
              le_from_bytes_value le_to_byte_array_byte Opcode.JMPIF)
    as (_ & Hsmall & _).
  destruct (Hsmall eq_refl) as (_ & o' & Hjump & Hbyte & Hlarge).
  exists o'. repeat split; assumption.
Defined.

Lemma get_large_jump_idempotent_witness :
  Opcode.get_large_jump Opcode.le_from_bytes Opcode.le_to_byte_array Opcode.JMPGT_L
  = Returns (Some Opcode.JMPGT_L).
Proof.
  exact (get_large_jump_idempotent Opcode.le_from_bytes Opcode.le_to_byte_array
           le_from_bytes_value le_to_byte_array_byte Opcode.JMPGT Opcode.JMPGT_L
           eq_refl).
Defined.

Lemma get_store_eight_after_get_load_witness :
  exists store load,
    Opcode.get_store Opcode.le_from_bytes Opcode.le_to_byte_array 3 true false
    = Returns store
    /\ Opcode.get_load Opcode.le_from_bytes Opcode.le_to_byte_array 3 true false
       = Returns load
    /\ Opcode.byte_of load = 0x6b
    /\ Opcode.byte_of store = Opcode.byte_of load + 8.
Proof.
  exact (get_store_eight_after_get_load Opcode.le_from_bytes Opcode.le_to_byte_array
           le_from_bytes_value le_to_byte_array_byte 3 true false).
Defined.

Lemma get_load_injective_witness : 2 = 2 /\ true = true /\ (true = true -> false = false).
Proof.
  exact (get_load_injective Opcode.le_from_bytes Opcode.le_to_byte_array
           le_from_bytes_value le_to_byte_array_byte 2 2 true true false false
           ltac:(lia) ltac:(lia) eq_refl).
Defined.

(** * Further properties of the analyser *)

Section Coverage.

Variable BinaryOp_table : list BinaryOperation.t.
Variable UnaryOp_table : list UnaryOperation.t.

Local Abbreviation visit := (TypeAnalyser.visit BinaryOp_table UnaryOp_table).
Local Abbreviation visit_stmt := (TypeAnalyser.visit_stmt BinaryOp_table UnaryOp_table).
Local Abbreviation visit_arg := (TypeAnalyser.visit_arg BinaryOp_table UnaryOp_table).
Local Abbreviation visit_arguments :=
  (TypeAnalyser.visit_arguments BinaryOp_table UnaryOp_table).
Local Abbreviation get_bin_op := (TypeAnalyser.get_bin_op BinaryOp_table).
Local Abbreviation get_un_op := (TypeAnalyser.get_un_op UnaryOp_table).
Local Abbreviation visit_returns_unchanged :=
  (visit_returns_unchanged BinaryOp_table UnaryOp_table).

#[local] Arguments TypeAnalyser._log_error : simpl never.
#[local] Arguments TypeAnalyser.except_MismatchedTypes : simpl never.
#[local] Arguments TypeAnalyser.discard : simpl never.
#[local] Arguments TypeAnalyser.visit_Num : simpl never.
#[local] Arguments TypeAnalyser.check_Subscript : simpl never.
#[local] Arguments TypeAnalyser.check_test : simpl never.
#[local] Arguments TypeAnalyser.resolve_BinOp : simpl never.
#[local] Arguments TypeAnalyser.resolve_UnaryOp : simpl never.
#[local] Arguments TypeAnalyser.resolve_Compare : simpl never.
#[local] Arguments TypeAnalyser.loop_Compare : simpl never.
#[local] Arguments TypeAnalyser.loop_BoolOp : simpl never.
#[local] Arguments TypeAnalyser.get_operator : simpl never.
#[local] Arguments TypeAnalyser.get_bin_op : simpl never.
#[local] Arguments TypeAnalyser.get_un_op : simpl never.

(** ** What a returning operation visitor has established *)

(** An operation [get_bin_op] returns is registered under the operator and
    accepts the types of the operands. *)
Lemma get_bin_op_returns self operator right_ left_ operation :
  get_bin_op self operator right_ left_ = Returns operation ->
  exists l_type r_type,
    TypeAnalyser.get_type self left_ = Returns l_type
    /\ TypeAnalyser.get_type self right_ = Returns r_type
    /\ In operation BinaryOp_table
    /\ BinaryOperation.operator operation = operator
    /\ BinaryOperation.validate_type operation [l_type; r_type] = true.
Proof.
  unfold TypeAnalyser.get_bin_op, BinaryOp.validate_type.
  destruct (TypeAnalyser.get_type self left_) as [l_type|e]; [|discriminate].
  destruct (TypeAnalyser.get_type self right_) as [r_type|e]; [|discriminate].
  destruct (find _ BinaryOp_table) as [found|] eqn:Hfind.
  - intros H. injection H as <-.
    apply find_some in Hfind as [Hin Hok].
    apply andb_prop in Hok as [Hop Hval].
    exists l_type, r_type. repeat split; trivial.
    unfold Operator.eqb in Hop.
    now destruct (Operator.eq_dec (BinaryOperation.operator found) operator).
  - destruct (BinaryOp.get_operation_by_operator _ _); discriminate.
Qed.

Lemma get_un_op_returns self operator operand operation :
  get_un_op self operator operand = Returns operation ->
  exists op_type,
    TypeAnalyser.get_type self operand = Returns op_type
    /\ In operation UnaryOp_table
    /\ UnaryOperation.operator operation = operator
    /\ UnaryOperation.validate_type operation [op_type] = true.
Proof.
  unfold TypeAnalyser.get_un_op, UnaryOp.validate_type.
  destruct (TypeAnalyser.get_type self operand) as [op_type|e]; [|discriminate].
  destruct (find _ UnaryOp_table) as [found|] eqn:Hfind.
  - intros H. injection H as <-.
    apply find_some in Hfind as [Hin Hok].
    apply andb_prop in Hok as [Hop Hval].
    exists op_type. repeat split; trivial.
    unfold Operator.eqb in Hop.
    now destruct (Operator.eq_dec (UnaryOperation.operator found) operator).
  - destruct (UnaryOp.get_operation_by_operator _ _); discriminate.
Qed.

(** What [resolve_BinOp] has done when it returns. *)
Lemma resolve_BinOp_returns self l c op operator r_operand l_operand op' self' v :
  TypeAnalyser.resolve_BinOp BinaryOp_table self l c op operator r_operand l_operand
  = (op', (self', Returns v)) ->
  exists op_ operation,
    operator = Some op_
    /\ get_bin_op self op_ r_operand l_operand = Returns operation
    /\ BinaryOperation.is_supported operation = true
    /\ op' = ast.BinaryResolved operation
    /\ self' = self
    /\ v = VType (BinaryOperation.result operation).
Proof.
  unfold TypeAnalyser.resolve_BinOp.
  destruct operator as [op_|]; [|discriminate].
  destruct (get_bin_op self op_ r_operand l_operand) as [operation|[error|e]] eqn:Hop.
  - destruct (BinaryOperation.is_supported operation) eqn:Hs; cbn [negb].
    + intros H. injection H as <- <- <-. now exists op_, operation.
    + discriminate.
  - unfold TypeAnalyser.except_MismatchedTypes.
    destruct error; try discriminate.
    destruct args as [|a0 [|a1 args]]; discriminate.
  - discriminate.
Qed.

Lemma resolve_UnaryOp_returns self l c op operator operand op' self' v :
  TypeAnalyser.resolve_UnaryOp UnaryOp_table self l c op operator operand
  = (op', (self', Returns v)) ->
  exists op_ operation,
    operator = Some op_
    /\ get_un_op self op_ operand = Returns operation
    /\ UnaryOperation.is_supported operation = true
    /\ op' = ast.UnaryResolved operation
    /\ self' = self
    /\ v = VType (UnaryOperation.result operation).
Proof.
  unfold TypeAnalyser.resolve_UnaryOp.
  destruct operator as [op_|]; [|discriminate].
  destruct (get_un_op self op_ operand) as [operation|[error|e]] eqn:Hop.
  - destruct (UnaryOperation.is_supported operation) eqn:Hs; cbn [negb].
    + intros H. injection H as <- <- <-. now exists op_, operation.
    + discriminate.
  - unfold TypeAnalyser.except_MismatchedTypes.
    destruct error; try discriminate.
    destruct args as [|a0 [|a1 args]]; discriminate.
  - discriminate.
Qed.

(** The walk of a binary operation that returns, taken apart. *)
Lemma BinOp_returns_inv self l c lhs op rhs node' self' v :
  visit self (ast.BinOp l c lhs op rhs) = (node', (self', Returns v)) ->
  exists operator operation r_operand l_operand,
    TypeAnalyser.get_operator op = Some operator
    /\ visit self rhs = (fst (visit self rhs), (self, Returns r_operand))
    /\ visit self lhs = (fst (visit self lhs), (self, Returns l_operand))
    /\ get_bin_op self operator r_operand l_operand = Returns operation
    /\ BinaryOperation.is_supported operation = true
    /\ node' = ast.BinOp l c (fst (visit self lhs)) (ast.BinaryResolved operation)
                 (fst (visit self rhs))
    /\ self' = self
    /\ v = VType (BinaryOperation.result operation).
Proof.
  cbn [TypeAnalyser.visit].
  destruct (visit self rhs) as [rhs' [self1 [r_operand|e]]] eqn:Hr; [|discriminate].
  apply visit_returns_unchanged in Hr as ->.
  destruct (visit self lhs) as [lhs' [self2 [l_operand|e]]] eqn:Hl; [|discriminate].
  apply visit_returns_unchanged in Hl as ->.
  destruct (TypeAnalyser.resolve_BinOp _ _ _ _ _ _ _ _) as [op' [self3 r]] eqn:Hres.
  intros H. injection H as <- <- ->.
  apply resolve_BinOp_returns in Hres
    as (operator & operation & Hop & Hget & Hsup & -> & -> & ->).
  exists operator, operation, r_operand, l_operand. repeat split; trivial.
Qed.

Lemma UnaryOp_returns_inv self l c op operand node' self' v :
  visit self (ast.UnaryOp l c op operand) = (node', (self', Returns v)) ->
  exists operator operation operand_value,
    TypeAnalyser.get_operator op = Some operator
    /\ visit self operand = (fst (visit self operand), (self, Returns operand_value))
    /\ get_un_op self operator operand_value = Returns operation
    /\ UnaryOperation.is_supported operation = true
    /\ node' = ast.UnaryOp l c (ast.UnaryResolved operation) (fst (visit self operand))
    /\ self' = self
    /\ v = VType (UnaryOperation.result operation).
Proof.
  cbn [TypeAnalyser.visit].
  destruct (visit self operand) as [operand' [self1 [operand_value|e]]] eqn:Ho;
    [|discriminate].
  apply visit_returns_unchanged in Ho as ->.
  destruct (TypeAnalyser.resolve_UnaryOp _ _ _ _ _ _ _) as [op' [self3 r]] eqn:Hres.
  intros H. injection H as <- <- ->.
  apply resolve_UnaryOp_returns in Hres
    as (operator & operation & Hop & Hget & Hsup & -> & -> & ->).
  exists operator, operation, operand_value. repeat split; trivial.
Qed.

Lemma except_returns_inv line col o self' v :
  TypeAnalyser.except_MismatchedTypes line col o = (self', Returns v) ->
  o = (self', Returns v).
Proof.
  unfold TypeAnalyser.except_MismatchedTypes.
  destruct o as [self0 [v0|[error|e]]]; trivial; try discriminate.
  destruct error; trivial; try discriminate.
  destruct args as [|a0 [|a1 args]]; discriminate.
Qed.

Lemma except_raises line col self e :
  exists self' e',
    TypeAnalyser.except_MismatchedTypes line col (self, Raises e) = (self', Raises e').
Proof.
  unfold TypeAnalyser.except_MismatchedTypes.
  destruct e as [error|e]; [|now eexists _, _].
  destruct error; try (now eexists _, _).
  destruct args as [|a0 [|a1 args]]; now eexists _, _.
Qed.

Lemma resolve_Compare_returns self l c op r_operand l_operand op' self' v :
  TypeAnalyser.resolve_Compare BinaryOp_table self l c op r_operand l_operand
  = (op', (self', Returns v)) ->
  exists operator operation,
    TypeAnalyser.get_operator op = Some operator
    /\ get_bin_op self operator r_operand l_operand = Returns operation
    /\ BinaryOperation.is_supported operation = true
    /\ op' = ast.BinaryResolved operation
    /\ self' = self
    /\ v = VType (BinaryOperation.result operation).
Proof.
  unfold TypeAnalyser.resolve_Compare.
  destruct (TypeAnalyser.get_operator op) as [operator|]; [|discriminate].
  destruct (get_bin_op self operator r_operand l_operand) as [operation|e] eqn:Hop;
    [|discriminate].
  destruct (BinaryOperation.is_supported operation) eqn:Hs; cbn [negb];
    [|discriminate].
  intros H. injection H as <- <- <-. now exists operator, operation.
Qed.

Lemma Forall_last {A : Type} (P : A -> Prop) (l : list A) (d : A) :
  Forall P l -> l <> [] -> P (last l d).
Proof.
  induction 1 as [|x l Hx Hl IH]; [contradiction|]. intros _.
  destruct l as [|y l]; [exact Hx|]. apply IH. discriminate.
Qed.

(** The result type a chain of resolved operator slots gives: that of the
    last one, [None] without operators. *)
Lemma loop_Compare_returns comparators :
  forall ops self line col l_operand return_type ops' comparators' position self' v,
    List.length comparators = List.length ops ->
    TypeAnalyser.loop_Compare BinaryOp_table visit ops comparators self line col
      l_operand return_type
    = (ops', comparators', position, (self', Returns v)) ->
    self' = self
    /\ comparators' = map (fun e => fst (visit self e)) comparators
    /\ Forall (fun e => exists r, snd (snd (visit self e)) = Returns r) comparators
    /\ Forall (resolved_supported BinaryOp_table) ops'
    /\ List.length ops' = List.length ops
    /\ v = match last ops' ast.NoneSlot with
           | ast.BinaryResolved operation => VType (BinaryOperation.result operation)
           | _ => return_type
           end.
Proof.
  induction comparators as [|comparator rest IH];
    intros ops self line col l_operand rt ops' cs' position self' v Hlen H;
    destruct ops as [|op ops]; try discriminate Hlen;
    unfold TypeAnalyser.loop_Compare in H.
  - injection H as <- <- _ <- <-. repeat split; constructor.
  - fold (TypeAnalyser.loop_Compare BinaryOp_table visit) in H.
    destruct (visit self comparator) as [comparator' [self1 [r_operand|e]]] eqn:Hc;
      [|discriminate].
    pose proof (visit_returns_unchanged _ _ _ _ _ Hc) as ->.
    destruct (TypeAnalyser.resolve_Compare _ _ _ _ _ _ _) as [op' [self2 [rt'|e]]]
      eqn:Hres; [|discriminate].
    apply resolve_Compare_returns in Hres
      as (operator & operation & Hop & Hget & Hsup & -> & -> & ->).
    destruct (TypeAnalyser.loop_Compare _ _ ops rest _ _ _ _ _)
      as [[[ops_rest' rest'] position'] o] eqn:Hloop.
    injection H as <- <- _ ->.
    injection Hlen as Hlen.
    apply IH in Hloop as (-> & -> & Hret & Hall & Hlen' & ->); trivial.
    repeat split.
    + cbn [map]. now rewrite Hc.
    + constructor; trivial. exists r_operand. now rewrite Hc.
    + constructor; trivial. exists operation. repeat split; trivial.
      now apply get_bin_op_returns in Hget as (? & ? & ? & ? & ? & ?).
    + simpl. now rewrite Hlen'.
    + destruct ops_rest' as [|x xs]; [reflexivity|].
      change (last (ast.BinaryResolved operation :: x :: xs) ast.NoneSlot)
        with (last (x :: xs) ast.NoneSlot).
      assert (Hlast : resolved_supported BinaryOp_table (last (x :: xs) ast.NoneSlot))
        by (apply Forall_last; [exact Hall | discriminate]).
      destruct Hlast as (o & -> & _). reflexivity.
Qed.

(** The walk of a comparison that returns, taken apart. *)
Lemma Compare_returns_inv self l c lhs ops comparators node' self' v :
  visit self (ast.Compare l c lhs ops comparators) = (node', (self', Returns v)) ->
  exists ops' l_operand,
    List.length comparators = List.length ops
    /\ visit self lhs = (fst (visit self lhs), (self, Returns l_operand))
    /\ Forall (fun e => exists r, snd (snd (visit self e)) = Returns r) comparators
    /\ node' = ast.Compare l c (fst (visit self lhs)) ops'
                 (map (fun e => fst (visit self e)) comparators)
    /\ Forall (resolved_supported BinaryOp_table) ops'
    /\ List.length ops' = List.length ops
    /\ self' = self
    /\ v = match last ops' ast.NoneSlot with
           | ast.BinaryResolved operation => VType (BinaryOperation.result operation)
           | _ => VNone
           end.
Proof.
  cbn [TypeAnalyser.visit].
  destruct (Nat.eqb_spec (List.length comparators) (List.length ops)) as [Hlen|];
    cbn [negb]; [|discriminate].
  destruct (visit self lhs) as [lhs' [self1 [l_operand|e]]] eqn:Hl.
  - pose proof (visit_returns_unchanged _ _ _ _ _ Hl) as ->.
    destruct (TypeAnalyser.loop_Compare _ _ _ _ _ _ _ _ _)
      as [[[ops' comparators'] [line col]] o] eqn:Hloop.
    intros H. injection H as <- H. apply except_returns_inv in H as ->.
    apply loop_Compare_returns in Hloop as (-> & -> & Hret & Hall & Hlen' & ->);
      trivial.
    exists ops', l_operand. repeat split; trivial.
  - intros H. injection H as _ H.
    destruct (except_raises l c self1 e) as (s & e' & He).
    rewrite He in H. discriminate.
Qed.

Lemma loop_BoolOp_returns operator operands :
  forall self line col l_operand return_type bool_operation operands' position
         recorded self' v,
    TypeAnalyser.loop_BoolOp BinaryOp_table visit operator operands self line col
      l_operand return_type bool_operation
    = (operands', position, recorded, (self', Returns v)) ->
    self' = self
    /\ operands' = map (fun e => fst (visit self e)) operands
    /\ Forall (fun e => exists r, snd (snd (visit self e)) = Returns r) operands.
Proof.
  induction operands as [|operand rest IH];
    intros self line col l_operand rt bo operands' position recorded self' v H;
    unfold TypeAnalyser.loop_BoolOp in H.
  - injection H as <- _ _ <- _. repeat split; constructor.
  - fold (TypeAnalyser.loop_BoolOp BinaryOp_table visit operator) in H.
    destruct (visit self operand) as [operand' [self1 [r_operand|e]]] eqn:Hc;
      [|discriminate].
    pose proof (visit_returns_unchanged _ _ _ _ _ Hc) as ->.
    destruct (get_bin_op self operator r_operand l_operand) as [operation|e];
      [|discriminate].
    destruct (TypeAnalyser.record_BoolOp rt bo operation) as [rt' bo'].
    destruct (TypeAnalyser.loop_BoolOp _ _ _ rest _ _ _ _ _ _)
      as [[[rest' position'] recorded'] o] eqn:Hloop.
    injection H as <- _ _ ->.
    apply IH in Hloop as (-> & -> & Hret).
    repeat split.
    + cbn [map]. now rewrite Hc.
    + constructor; trivial. exists r_operand. now rewrite Hc.
Qed.

(** The walk of a boolean operation that returns, taken apart. *)
Lemma BoolOp_returns_inv self l c op values node' self' v :
  visit self (ast.BoolOp l c op values) = (node', (self', Returns v)) ->
  exists operator recorded,
    TypeAnalyser.get_operator op = Some operator
    /\ values <> []
    /\ Forall (fun e => exists r, snd (snd (visit self e)) = Returns r) values
    /\ node' = ast.BoolOp l c (TypeAnalyser.slot_of_operation recorded)
                 (map (fun e => fst (visit self e)) values)
    /\ self' = self.
Proof.
  cbn [TypeAnalyser.visit].
  destruct (TypeAnalyser.get_operator op) as [operator|]; [|discriminate].
  destruct values as [|first rest]; [discriminate|].
  destruct (visit self first) as [first' [self1 [l_operand|e]]] eqn:Hf.
  - pose proof (visit_returns_unchanged _ _ _ _ _ Hf) as ->.
    destruct (TypeAnalyser.loop_BoolOp _ _ _ _ _ _ _ _ _ _)
      as [[[rest' [line col]] recorded] [self2 [rt|e]]] eqn:Hloop.
    + intros H. injection H as <- <- <-.
      apply loop_BoolOp_returns in Hloop as (-> & -> & Hret).
      exists operator, recorded. repeat split; try discriminate.
      * constructor; trivial. exists l_operand. now rewrite Hf.
      * cbn [map]. now rewrite Hf.
    + intros H. injection H as _ H.
      destruct (except_raises line col self2 e) as (s & e' & He).
      rewrite He in H. discriminate.
  - intros H. injection H as _ H.
    destruct (except_raises l c self1 e) as (s & e' & He).
    rewrite He in H. discriminate.
Qed.

(** When [visit_BinOp] returns, nothing was logged, [bin_op.op] holds an
    operation of the binary table that is registered under the operator of
    the node, accepts the types of the two operands and is supported, and
    the value returned is the result type of that operation. *)
Theorem BinOp_returns_supported_operation self l c lhs op rhs node' self' v :
  visit self (ast.BinOp l c lhs op rhs) = (node', (self', Returns v)) ->
  exists operator operation r_operand l_operand lhs' rhs',
    node' = ast.BinOp l c lhs' (ast.BinaryResolved operation) rhs'
    /\ TypeAnalyser.get_operator op = Some operator
    /\ snd (snd (visit self rhs)) = Returns r_operand
    /\ snd (snd (visit self lhs)) = Returns l_operand
    /\ In operation BinaryOp_table
    /\ BinaryOperation.operator operation = operator
    /\ (exists l_type r_type,
          TypeAnalyser.get_type self l_operand = Returns l_type
          /\ TypeAnalyser.get_type self r_operand = Returns r_type
          /\ BinaryOperation.validate_type operation [l_type; r_type] = true)
    /\ BinaryOperation.is_supported operation = true
    /\ v = VType (BinaryOperation.result operation)
    /\ self' = self.
Proof.
  intros H.
  apply BinOp_returns_inv in H
    as (operator & operation & r_operand & l_operand
        & Hop & Hr & Hl & Hget & Hsup & -> & -> & ->).
  apply get_bin_op_returns in Hget
    as (l_type & r_type & Hlt & Hrt & Hin & Hoperator & Hval).
  exists operator, operation, r_operand, l_operand, (fst (visit self lhs)),
    (fst (visit self rhs)).
  rewrite Hr, Hl. repeat split; trivial.
  now exists l_type, r_type.
Qed.

(** When [visit_UnaryOp] returns, nothing was logged, [un_op.op] holds an
    operation of the unary table that is registered under the operator of
    the node, accepts the type of the operand and is supported, and the
    value returned is the result type of that operation. *)
Theorem UnaryOp_returns_supported_operation self l c op operand node' self' v :
  visit self (ast.UnaryOp l c op operand) = (node', (self', Returns v)) ->
  exists operator operation operand_value operand',
    node' = ast.UnaryOp l c (ast.UnaryResolved operation) operand'
    /\ TypeAnalyser.get_operator op = Some operator
    /\ snd (snd (visit self operand)) = Returns operand_value
    /\ In operation UnaryOp_table
    /\ UnaryOperation.operator operation = operator
    /\ (exists op_type,
          TypeAnalyser.get_type self operand_value = Returns op_type
          /\ UnaryOperation.validate_type operation [op_type] = true)
    /\ UnaryOperation.is_supported operation = true
    /\ v = VType (UnaryOperation.result operation)
    /\ self' = self.
Proof.
  intros H.
  apply UnaryOp_returns_inv in H
    as (operator & operation & operand_value & Hop & Ho & Hget & Hsup & -> & -> & ->).
  apply get_un_op_returns in Hget as (op_type & Hot & Hin & Hoperator & Hval).
  exists operator, operation, operand_value, (fst (visit self operand)).
  rewrite Ho. repeat split; trivial.
  now exists op_type.
Qed.

(** When [visit_Compare] returns, nothing was logged, there are as many
    comparators as operators, every slot of [compare.ops] holds a supported
    operation of the binary table, and the value returned is the result
    type of the operation in the last slot, [None] for a comparison without
    operators. *)
Theorem Compare_returns_supported_operations self l c lhs ops comparators
  node' self' v :
  visit self (ast.Compare l c lhs ops comparators) = (node', (self', Returns v)) ->
  exists lhs' ops' comparators',
    node' = ast.Compare l c lhs' ops' comparators'
    /\ List.length comparators = List.length ops
    /\ List.length ops' = List.length ops
    /\ List.length comparators' = List.length comparators
    /\ Forall (resolved_supported BinaryOp_table) ops'
    /\ v = match last ops' ast.NoneSlot with
           | ast.BinaryResolved operation => VType (BinaryOperation.result operation)
           | _ => VNone
           end
    /\ self' = self.
Proof.
  intros H.
  apply Compare_returns_inv in H
    as (ops' & l_operand & Hlen & Hl & Hret & -> & Hall & Hlen' & -> & ->).
  eexists _, ops', _. repeat split; trivial.
  now rewrite length_map.
Qed.

(** ** The walk overwrites operator slots and nothing else *)

Lemma loop_Compare_shape comparators :
  Forall (fun e => forall self, without_slots (fst (visit self e)) = without_slots e)
    comparators ->
  forall ops self line col l_operand return_type,
    let '(ops', comparators', _, _) :=
      TypeAnalyser.loop_Compare BinaryOp_table visit ops comparators self line col
        l_operand return_type in
    List.length ops' = List.length ops
    /\ map without_slots comparators' = map without_slots comparators.
Proof.
  induction 1 as [|comparator rest Hhead _ IH]; intros ops self line col l_operand rt;
    unfold TypeAnalyser.loop_Compare;
    fold (TypeAnalyser.loop_Compare BinaryOp_table visit).
  - destruct ops; now split.
  - destruct ops as [|op ops]; [now split|].
    specialize (Hhead self).
    destruct (visit self comparator) as [comparator' [self1 [r_operand|e]]];
      cbn [fst] in Hhead.
    + destruct (TypeAnalyser.resolve_Compare _ _ _ _ _ _ _)
        as [op' [self2 [rt'|e]]].
      * specialize (IH ops self2 (ast.lineno comparator) (ast.col_offset comparator)
                      r_operand rt').
        destruct (TypeAnalyser.loop_Compare _ _ ops rest _ _ _ _ _)
          as [[[ops_rest' rest'] position'] o].
        destruct IH as [IH1 IH2]. cbn [map List.length].
        now rewrite IH1, IH2, Hhead.
      * cbn [map List.length]. now rewrite Hhead.
    + cbn [map List.length]. now rewrite Hhead.
Qed.

Lemma loop_BoolOp_shape operator operands :
  Forall (fun e => forall self, without_slots (fst (visit self e)) = without_slots e)
    operands ->
  forall self line col l_operand return_type bool_operation,
    let '(operands', _, _, _) :=
      TypeAnalyser.loop_BoolOp BinaryOp_table visit operator operands self line col
        l_operand return_type bool_operation in
    map without_slots operands' = map without_slots operands.
Proof.
  induction 1 as [|operand rest Hhead _ IH];
    intros self line col l_operand rt bo;
    unfold TypeAnalyser.loop_BoolOp;
    fold (TypeAnalyser.loop_BoolOp BinaryOp_table visit operator); [reflexivity|].
  specialize (Hhead self).
  destruct (visit self operand) as [operand' [self1 [r_operand|e]]];
    cbn [fst] in Hhead.
  - destruct (get_bin_op self1 operator r_operand l_operand) as [operation|e].
    + destruct (TypeAnalyser.record_BoolOp rt bo operation) as [rt' bo'].
      specialize (IH self1 (ast.lineno operand) (ast.col_offset operand) r_operand
                    rt' bo').
      destruct (TypeAnalyser.loop_BoolOp _ _ _ rest _ _ _ _ _ _)
        as [[[rest' position'] recorded'] o].
      cbn [map]. now rewrite IH, Hhead.
    + cbn [map]. now rewrite Hhead.
  - cbn [map]. now rewrite Hhead.
Qed.

Lemma map_const_length {A B : Type} (b : B) (l l' : list A) :
  List.length l = List.length l' -> map (fun _ => b) l = map (fun _ => b) l'.
Proof.
  revert l'. induction l as [|x l IH]; intros [|x' l'] H; try discriminate; trivial.
  injection H as H. cbn [map]. now rewrite (IH l' H).
Qed.

Lemma visit_shape node :
  forall self, without_slots (fst (visit self node)) = without_slots node.
Proof.
  induction node as
    [ l c n | l c s | l c v | l c id | l c elts
    | l c v i IHv IHi | l c test body orelse IHtest
    | l c lhs op rhs IHl IHr | l c op operand IHo
    | l c lhs ops comparators IHl IHcs | l c op values IHvs ]
    using expr_nested_ind; intros self; cbn [TypeAnalyser.visit]; try reflexivity.
  - (* Subscript *)
    specialize (IHv self).
    destruct (visit self v) as [v' [self1 [value_|e]]]; cbn [fst] in *.
    + specialize (IHi self1).
      destruct (visit self1 i) as [i' [self2 [index|e]]]; cbn [fst] in *;
        cbn [without_slots]; now rewrite IHv, IHi.
    + cbn [without_slots]. now rewrite IHv.
  - (* IfExp *)
    specialize (IHtest self).
    destruct (visit self test) as [test' [self1 [test_value|e]]]; cbn [fst] in *;
      cbn [without_slots]; now rewrite IHtest.
  - (* BinOp *)
    specialize (IHr self).
    destruct (visit self rhs) as [rhs' [self1 [r_operand|e]]]; cbn [fst] in *.
    + specialize (IHl self1).
      destruct (visit self1 lhs) as [lhs' [self2 [l_operand|e]]]; cbn [fst] in *.
      * destruct (TypeAnalyser.resolve_BinOp _ _ _ _ _ _ _ _) as [op' o].
        cbn [fst without_slots]. now rewrite IHl, IHr.
      * cbn [without_slots]. now rewrite IHl, IHr.
    + cbn [without_slots]. now rewrite IHr.
  - (* UnaryOp *)
    specialize (IHo self).
    destruct (visit self operand) as [operand' [self1 [operand_value|e]]];
      cbn [fst] in *.
    + destruct (TypeAnalyser.resolve_UnaryOp _ _ _ _ _ _ _) as [op' o].
      cbn [fst without_slots]. now rewrite IHo.
    + cbn [without_slots]. now rewrite IHo.
  - (* Compare *)
    destruct (negb _); [reflexivity|].
    specialize (IHl self).
    destruct (visit self lhs) as [lhs' [self1 [l_operand|e]]]; cbn [fst] in *.
    + pose proof (loop_Compare_shape comparators IHcs ops self1 l c l_operand VNone)
        as H.
      destruct (TypeAnalyser.loop_Compare _ _ _ _ _ _ _ _ _)
        as [[[ops' comparators'] [line col]] o].
      destruct H as [H1 H2]. cbn [fst without_slots].
      now rewrite IHl, H2, (map_const_length ast.NoneSlot ops' ops H1).
    + cbn [without_slots]. now rewrite IHl.
  - (* BoolOp *)
    destruct (TypeAnalyser.get_operator op) as [operator|]; [|reflexivity].
    destruct values as [|first rest]; [reflexivity|].
    inversion IHvs as [|? ? IHfirst IHrest]; subst.
    specialize (IHfirst self).
    destruct (visit self first) as [first' [self1 [l_operand|e]]]; cbn [fst] in *.
    + pose proof (loop_BoolOp_shape operator rest IHrest self1 l c l_operand
                    VNone None) as H.
      destruct (TypeAnalyser.loop_BoolOp _ _ _ _ _ _ _ _ _ _)
        as [[[rest' [line col]] recorded] [self2 [rt|e]]];
        cbn [fst without_slots map]; now rewrite IHfirst, H.
    + cbn [without_slots map]. now rewrite IHfirst.
Qed.

Lemma visit_each_shape {N : Type} (f : TypeAnalyser.t -> N -> N * TypeAnalyser.outcome)
  (g : N -> N) (nodes : list N) :
  Forall (fun n => forall self, g (fst (f self n)) = g n) nodes ->
  forall self, map g (fst (TypeAnalyser.visit_each f self nodes)) = map g nodes.
Proof.
  induction 1 as [|node rest Hhead _ IH]; intros self; simpl; [reflexivity|].
  specialize (Hhead self).
  destruct (f self node) as [node' [self1 [v|e]]]; cbn [fst] in Hhead.
  - specialize (IH self1).
    destruct (TypeAnalyser.visit_each f self1 rest) as [rest' o].
    cbn [fst map] in *. now rewrite Hhead, IH.
  - cbn [fst map]. now rewrite Hhead.
Qed.

Lemma visit_arg_shape arg self :
  without_slots_arg (fst (visit_arg self arg)) = without_slots_arg arg.
Proof.
  unfold TypeAnalyser.visit_arg, without_slots_arg.
  destruct arg as [l c name [annotation|]]; cbn [ast.annotation]; [|reflexivity].
  pose proof (visit_shape annotation self) as H.
  destruct (visit self annotation) as [annotation' o]. cbn [fst] in *.
  cbn. now rewrite H.
Qed.

Lemma visit_arguments_shape args self :
  map without_slots_arg (fst (visit_arguments self args)) = map without_slots_arg args.
Proof.
  unfold TypeAnalyser.visit_arguments.
  pose proof (visit_each_shape visit_arg without_slots_arg args
                (proj2 (Forall_forall _ _) (fun a _ => visit_arg_shape a)) self) as H1.
  destruct (TypeAnalyser.visit_each visit_arg self args) as [args' [self1 [v|e]]];
    cbn [fst] in *; [|exact H1].
  rewrite <- H1.
  apply visit_each_shape, Forall_forall. intros a _. apply visit_arg_shape.
Qed.

Lemma visit_stmt_shape node :
  forall self, without_slots_stmt (fst (visit_stmt self node)) = without_slots_stmt node.
Proof.
  induction node as
    [ l c name args body IHbody | l c v | l c targets v
    | l c test body orelse IHbody IHorelse
    | l c test body orelse IHbody IHorelse | v | | | ]
    using stmt_nested_ind; intros self; cbn [TypeAnalyser.visit_stmt];
    try reflexivity.
  - (* FunctionDef *)
    pose proof (visit_arguments_shape args self) as Hargs.
    destruct (visit_arguments self args) as [args' [self1 [v|e]]]; cbn [fst] in *.
    + destruct (dict_get (TypeAnalyser.symbols self1) name) as [method|];
        cbn [fst without_slots_stmt]; try now rewrite Hargs.
      pose proof (visit_each_shape visit_stmt without_slots_stmt body IHbody
                    (TypeAnalyser.set_current_method self1 (Some method))) as Hbody.
      destruct (TypeAnalyser.visit_each _ _ body) as [body' [self3 [v'|e]]];
        cbn [fst without_slots_stmt] in *; now rewrite Hargs, Hbody.
    + cbn [without_slots_stmt]. now rewrite Hargs.
  - (* Return *)
    destruct v as [value_|].
    + destruct (ast.is_Tuple value_); [reflexivity|].
      destruct (TypeAnalyser.current_return_type self) as [return_type|]; [|reflexivity].
      destruct (IType_eqb _ _); [reflexivity|].
      pose proof (visit_shape value_ self) as H.
      destruct (visit self value_) as [value' o]. cbn [fst] in *.
      cbn [without_slots_stmt option_map]. now rewrite H.
    + destruct (TypeAnalyser.current_return_type self) as [return_type|]; [|reflexivity].
      now destruct (negb _).
  - (* Assign *)
    destruct (Nat.ltb _ _); [reflexivity|].
    destruct targets as [|target rest]; [reflexivity|].
    destruct (ast.is_Tuple target); [reflexivity|].
    pose proof (visit_each_shape visit without_slots (target :: rest)
                  (proj2 (Forall_forall _ _) (fun e _ => visit_shape e)) self)
      as Htargets.
    destruct (TypeAnalyser.visit_each visit self (target :: rest))
      as [targets' [self1 [v1|e]]]; cbn [fst] in *.
    + pose proof (visit_shape v self1) as Hv.
      destruct (visit self1 v) as [v' o]. cbn [fst] in *.
      cbn [without_slots_stmt]. now rewrite Htargets, Hv.
    + cbn [without_slots_stmt]. now rewrite Htargets.
  - (* While *)
    pose proof (visit_shape test self) as Htest.
    destruct (visit self test) as [test' [self1 [test_value|e]]]; cbn [fst] in *;
      [|cbn [without_slots_stmt]; now rewrite Htest].
    destruct (TypeAnalyser.check_test self1 l c test_value) as [self2 [u|e]];
      [|cbn [fst without_slots_stmt]; now rewrite Htest].
    pose proof (visit_each_shape visit_stmt without_slots_stmt body IHbody self2)
      as Hbody.
    destruct (TypeAnalyser.visit_each visit_stmt self2 body) as [body' [self3 [u'|e]]];
      cbn [fst] in *; [|cbn [without_slots_stmt]; now rewrite Htest, Hbody].
    pose proof (visit_each_shape visit_stmt without_slots_stmt orelse IHorelse self3)
      as Horelse.
    destruct (TypeAnalyser.visit_each visit_stmt self3 orelse) as [orelse' o].
    cbn [fst without_slots_stmt] in *. now rewrite Htest, Hbody, Horelse.
  - (* If *)
    pose proof (visit_shape test self) as Htest.
    destruct (visit self test) as [test' [self1 [test_value|e]]]; cbn [fst] in *;
      [|cbn [without_slots_stmt]; now rewrite Htest].
    destruct (TypeAnalyser.check_test self1 l c test_value) as [self2 [u|e]];
      [|cbn [fst without_slots_stmt]; now rewrite Htest].
    pose proof (visit_each_shape visit_stmt without_slots_stmt body IHbody self2)
      as Hbody.
    destruct (TypeAnalyser.visit_each visit_stmt self2 body) as [body' [self3 [u'|e]]];
      cbn [fst] in *; [|cbn [without_slots_stmt]; now rewrite Htest, Hbody].
    destruct (_ && _); [cbn [fst without_slots_stmt]; now rewrite Htest, Hbody|].
    pose proof (visit_each_shape visit_stmt without_slots_stmt orelse IHorelse self3)
      as Horelse.
    destruct (TypeAnalyser.visit_each visit_stmt self3 orelse) as [orelse' o].
    cbn [fst without_slots_stmt] in *. now rewrite Htest, Hbody, Horelse.
  - (* Expr *)
    pose proof (visit_shape v self) as H.
    destruct (visit self v) as [v' o]. cbn [fst] in *.
    cbn [without_slots_stmt]. now rewrite H.
Qed.

(** Whatever the outcome, the walk changes the tree in operator slots
    only: lines, columns, literals, names, the number of operators and of
    operands, the statements and their order are as before, and so are the
    elements of tuples and the branches of conditional expressions, slots
    included.  This holds for an expression, a statement and a module. *)
Theorem walk_overwrites_slots_only :
  (forall self node, without_slots (fst (visit self node)) = without_slots node)
  /\ (forall self node,
        without_slots_stmt (fst (visit_stmt self node)) = without_slots_stmt node)
  /\ (forall ast_tree symbol_table,
        map without_slots_stmt
          (fst (TypeAnalyser.analyse BinaryOp_table UnaryOp_table ast_tree symbol_table))
        = map without_slots_stmt ast_tree).
Proof.
  split; [|split].
  - intros self node. apply visit_shape.
  - intros self node. apply visit_stmt_shape.
  - intros ast_tree symbol_table.
    apply visit_each_shape, Forall_forall. intros s _ self. apply visit_stmt_shape.
Qed.

(** ** A raised compiler error is the last diagnostic logged *)

Lemma raised_log_error self error :
  raised_is_logged (TypeAnalyser._log_error self error).
Proof. now exists (TypeAnalyser.errors self). Qed.

Lemma raised_weaken o : raised_is_logged o -> raised_or_mismatch o.
Proof. destruct o as [self [v|[error|e]]]; simpl; auto. Qed.

Lemma raised_except line col o :
  raised_or_mismatch o ->
  raised_is_logged (TypeAnalyser.except_MismatchedTypes line col o).
Proof.
  unfold TypeAnalyser.except_MismatchedTypes.
  destruct o as [self [v|[error|e]]]; simpl; trivial.
  intros [H|(l & c & expected & actual & a0 & a1 & args & ->)].
  - destruct error; trivial.
    destruct args as [|a0 [|a1 args]]; simpl; trivial.
    apply raised_log_error.
  - apply raised_log_error.
Qed.

Lemma raised_discard o : raised_is_logged o -> raised_is_logged (TypeAnalyser.discard o).
Proof. destruct o as [self [v|e]]; trivial. Qed.

Lemma raised_get_bin_op self operator right_ left_ e :
  get_bin_op self operator right_ left_ = Raises e ->
  raised_or_mismatch (self, Raises e).
Proof.
  unfold TypeAnalyser.get_bin_op.
  destruct (TypeAnalyser.get_type self left_) as [l_type|e'] eqn:Hl;
    [|intros [= <-]; now rewrite (get_type_raises _ _ _ Hl)].
  destruct (TypeAnalyser.get_type self right_) as [r_type|e'] eqn:Hr;
    [|intros [= <-]; now rewrite (get_type_raises _ _ _ Hr)].
  destruct (BinaryOp.validate_type _ _ _ _); [discriminate|].
  destruct (BinaryOp.get_operation_by_operator _ _); intros H; injection H as <-.
  - right. now eexists _, _, _, _, _, _, _.
  - exact I.
Qed.

Lemma raised_get_un_op self operator operand e :
  get_un_op self operator operand = Raises e ->
  raised_or_mismatch (self, Raises e).
Proof.
  unfold TypeAnalyser.get_un_op.
  destruct (TypeAnalyser.get_type self operand) as [op_type|e'] eqn:Ho;
    [|intros [= <-]; now rewrite (get_type_raises _ _ _ Ho)].
  destruct (UnaryOp.validate_type _ _ _); [discriminate|].
  destruct (UnaryOp.get_operation_by_operator _ _); intros H; injection H as <-.
  - right. now eexists _, _, _, _, _, _, _.
  - exact I.
Qed.

Lemma raised_resolve_BinOp self l c op operator r_operand l_operand :
  raised_is_logged
    (snd (TypeAnalyser.resolve_BinOp BinaryOp_table self l c op operator
            r_operand l_operand)).
Proof.
  unfold TypeAnalyser.resolve_BinOp.
  destruct operator as [operator|]; cbn [snd]; [|apply raised_log_error].
  destruct (get_bin_op self operator r_operand l_operand) as [operation|e] eqn:Hop.
  - destruct (negb _); cbn [snd]; apply raised_except.
    + apply raised_weaken, raised_log_error.
    + exact I.
  - cbn [snd]. apply raised_except. eapply raised_get_bin_op, Hop.
Qed.

Lemma raised_resolve_UnaryOp self l c op operator operand :
  raised_is_logged
    (snd (TypeAnalyser.resolve_UnaryOp UnaryOp_table self l c op operator operand)).
Proof.
  unfold TypeAnalyser.resolve_UnaryOp.
  destruct operator as [operator|]; cbn [snd]; [|apply raised_log_error].
  destruct (get_un_op self operator operand) as [operation|e] eqn:Hop.
  - destruct (negb _); cbn [snd]; apply raised_except.
    + apply raised_weaken, raised_log_error.
    + exact I.
  - cbn [snd]. apply raised_except. eapply raised_get_un_op, Hop.
Qed.

Lemma raised_resolve_Compare self l c op r_operand l_operand :
  raised_or_mismatch
    (snd (TypeAnalyser.resolve_Compare BinaryOp_table self l c op r_operand l_operand)).
Proof.
  unfold TypeAnalyser.resolve_Compare.
  destruct (TypeAnalyser.get_operator op) as [operator|]; cbn [snd];
    [|apply raised_weaken, raised_log_error].
  destruct (get_bin_op self operator r_operand l_operand) as [operation|e] eqn:Hop.
  - destruct (negb _); cbn [snd]; [apply raised_weaken, raised_log_error | exact I].
  - cbn [snd]. eapply raised_get_bin_op, Hop.
Qed.

Lemma raised_check_Subscript self l c v i :
  raised_is_logged (TypeAnalyser.check_Subscript self l c v i).
Proof.
  unfold TypeAnalyser.check_Subscript.
  destruct (TypeAnalyser.symbol_of_Name self v) as [v'|e] eqn:Hv;
    [|now rewrite (symbol_of_Name_raises _ _ _ Hv)].
  destruct (TypeAnalyser.symbol_of_Name self i) as [i'|e] eqn:Hi;
    [|now rewrite (symbol_of_Name_raises _ _ _ Hi)].
  destruct (TypeAnalyser.is_IType v' && TypeAnalyser.is_IType i'); [exact I|].
  destruct (TypeAnalyser.get_type self v') as [symbol_type|e] eqn:Hst;
    [|now rewrite (get_type_raises _ _ _ Hst)].
  destruct (TypeAnalyser.get_type self i') as [index_type|e] eqn:Hit;
    [|now rewrite (get_type_raises _ _ _ Hit)].
  destruct symbol_type; try apply raised_log_error.
  destruct (negb _); [apply raised_log_error | exact I].
Qed.

Lemma raised_check_test self l c v :
  raised_is_logged (TypeAnalyser.check_test self l c v).
Proof.
  unfold TypeAnalyser.check_test.
  destruct (TypeAnalyser.get_type self v) as [test_type|e] eqn:Ht.
  - destruct (negb _); [apply raised_log_error | exact I].
  - now rewrite (get_type_raises _ _ _ Ht).
Qed.

Lemma raised_loop_Compare comparators :
  Forall (fun e => forall self, raised_is_logged (snd (visit self e))) comparators ->
  forall ops self line col l_operand return_type,
    raised_or_mismatch
      (snd (TypeAnalyser.loop_Compare BinaryOp_table visit ops comparators self
              line col l_operand return_type)).
Proof.
  induction 1 as [|comparator rest Hhead _ IH]; intros ops self line col l_operand rt;
    unfold TypeAnalyser.loop_Compare;
    fold (TypeAnalyser.loop_Compare BinaryOp_table visit).
  - destruct ops; exact I.
  - destruct ops as [|op ops]; [exact I|].
    specialize (Hhead self).
    destruct (visit self comparator) as [comparator' [self1 [r_operand|e]]];
      cbn [snd] in *; [|now apply raised_weaken].
    pose proof (raised_resolve_Compare self1 line col op r_operand l_operand) as Hstep.
    destruct (TypeAnalyser.resolve_Compare _ _ _ _ _ _ _)
      as [op' [self2 [return_type'|e]]]; cbn [snd] in *; [|exact Hstep].
    specialize (IH ops self2 (ast.lineno comparator) (ast.col_offset comparator)
                  r_operand return_type').
    destruct (TypeAnalyser.loop_Compare _ _ ops rest _ _ _ _ _) as [[[? ?] ?] ?].
    exact IH.
Qed.

Lemma raised_loop_BoolOp operator operands :
  Forall (fun e => forall self, raised_is_logged (snd (visit self e))) operands ->
  forall self line col l_operand return_type bool_operation,
    raised_or_mismatch
      (snd (TypeAnalyser.loop_BoolOp BinaryOp_table visit operator operands self
              line col l_operand return_type bool_operation)).
Proof.
  induction 1 as [|operand rest Hhead _ IH];
    intros self line col l_operand rt bo;
    unfold TypeAnalyser.loop_BoolOp;
    fold (TypeAnalyser.loop_BoolOp BinaryOp_table visit operator); [exact I|].
  specialize (Hhead self).
  destruct (visit self operand) as [operand' [self1 [r_operand|e]]];
    cbn [snd] in *; [|now apply raised_weaken].
  destruct (get_bin_op self1 operator r_operand l_operand) as [operation|e] eqn:Hop;
    [|cbn [snd]; eapply raised_get_bin_op, Hop].
  destruct (TypeAnalyser.record_BoolOp rt bo operation) as [rt' bo'].
  specialize (IH self1 (ast.lineno operand) (ast.col_offset operand) r_operand rt' bo').
  destruct (TypeAnalyser.loop_BoolOp _ _ _ rest _ _ _ _ _ _) as [[[? ?] ?] ?].
  exact IH.
Qed.

Lemma visit_raised node : forall self, raised_is_logged (snd (visit self node)).
Proof.
  induction node as
    [ l c n | l c s | l c v | l c id | l c elts
    | l c v i IHv IHi | l c test body orelse IHtest
    | l c lhs op rhs IHl IHr | l c op operand IHo
    | l c lhs ops comparators IHl IHcs | l c op values IHvs ]
    using expr_nested_ind; intros self; cbn [TypeAnalyser.visit snd];
    try exact I.
  - (* Num *)
    destruct n; unfold TypeAnalyser.visit_Num;
      first [exact I | apply raised_log_error].
  - (* Subscript *)
    specialize (IHv self).
    destruct (visit self v) as [v' [self1 [value_|e]]]; cbn [snd] in *;
      [|exact IHv].
    specialize (IHi self1).
    destruct (visit self1 i) as [i' [self2 [index|e]]]; cbn [snd] in *;
      [|exact IHi].
    apply raised_check_Subscript.
  - (* IfExp *)
    specialize (IHtest self).
    destruct (visit self test) as [test' [self1 [test_value|e]]]; cbn [snd] in *;
      [|exact IHtest].
    apply raised_check_test.
  - (* BinOp *)
    specialize (IHr self).
    destruct (visit self rhs) as [rhs' [self1 [r_operand|e]]]; cbn [snd] in *;
      [|exact IHr].
    specialize (IHl self1).
    destruct (visit self1 lhs) as [lhs' [self2 [l_operand|e]]]; cbn [snd] in *;
      [|exact IHl].
    pose proof (raised_resolve_BinOp self2 l c op (TypeAnalyser.get_operator op)
                  r_operand l_operand) as H.
    destruct (TypeAnalyser.resolve_BinOp _ _ _ _ _ _ _ _) as [op' o]. exact H.
  - (* UnaryOp *)
    specialize (IHo self).
    destruct (visit self operand) as [operand' [self1 [operand_value|e]]];
      cbn [snd] in *; [|exact IHo].
    pose proof (raised_resolve_UnaryOp self1 l c op (TypeAnalyser.get_operator op)
                  operand_value) as H.
    destruct (TypeAnalyser.resolve_UnaryOp _ _ _ _ _ _ _) as [op' o]. exact H.
  - (* Compare *)
    destruct (negb _); cbn [snd]; [apply raised_log_error|].
    specialize (IHl self).
    destruct (visit self lhs) as [lhs' [self1 [l_operand|e]]]; cbn [snd] in *.
    + pose proof (raised_loop_Compare comparators IHcs ops self1 l c l_operand VNone)
        as H.
      destruct (TypeAnalyser.loop_Compare _ _ _ _ _ _ _ _ _)
        as [[[ops' comparators'] [line col]] o].
      cbn [snd] in *. now apply raised_except.
    + apply raised_except. now apply raised_weaken.
  - (* BoolOp *)
    destruct (TypeAnalyser.get_operator op) as [operator|]; cbn [snd];
      [|apply raised_except, raised_weaken, raised_log_error].
    destruct values as [|first rest]; cbn [snd]; [exact I|].
    inversion IHvs as [|? ? IHfirst IHrest]; subst.
    specialize (IHfirst self).
    destruct (visit self first) as [first' [self1 [l_operand|e]]]; cbn [snd] in *.
    + pose proof (raised_loop_BoolOp operator rest IHrest self1 l c l_operand
                    VNone None) as H.
      destruct (TypeAnalyser.loop_BoolOp _ _ _ _ _ _ _ _ _ _)
        as [[[rest' [line col]] recorded] [self2 [rt|e]]];
        cbn [snd] in *; [exact I|].
      now apply (raised_except line col (self2, Raises e)).
    + apply raised_except. now apply raised_weaken.
Qed.

Lemma visit_each_raised {N : Type} (f : TypeAnalyser.t -> N -> N * TypeAnalyser.outcome)
  (nodes : list N) :
  Forall (fun n => forall self, raised_is_logged (snd (f self n))) nodes ->
  forall self, raised_is_logged (snd (TypeAnalyser.visit_each f self nodes)).
Proof.
  induction 1 as [|node rest Hhead _ IH]; intros self; simpl; [exact I|].
  specialize (Hhead self).
  destruct (f self node) as [node' [self1 [v|e]]]; cbn [snd] in *; [|exact Hhead].
  specialize (IH self1).
  now destruct (TypeAnalyser.visit_each f self1 rest).
Qed.

Lemma visit_arg_raised arg self : raised_is_logged (snd (visit_arg self arg)).
Proof.
  unfold TypeAnalyser.visit_arg.
  destruct (ast.annotation arg) as [annotation|]; cbn [snd];
    [|apply raised_log_error].
  pose proof (visit_raised annotation self) as H.
  destruct (visit self annotation) as [annotation' o]. cbn [snd] in *.
  now apply raised_discard.
Qed.

Lemma visit_arguments_raised args self :
  raised_is_logged (snd (visit_arguments self args)).
Proof.
  unfold TypeAnalyser.visit_arguments.
  pose proof (visit_each_raised visit_arg args
                (proj2 (Forall_forall _ _) (fun a _ => visit_arg_raised a)) self) as H1.
  destruct (TypeAnalyser.visit_each visit_arg self args) as [args' [self1 [v|e]]];
    cbn [snd] in *; [|exact H1].
  apply visit_each_raised, Forall_forall. intros a _. apply visit_arg_raised.
Qed.

Lemma visit_stmt_raised node :
  forall self, raised_is_logged (snd (visit_stmt self node)).
Proof.
  induction node as
    [ l c name args body IHbody | l c v | l c targets v
    | l c test body orelse IHbody IHorelse
    | l c test body orelse IHbody IHorelse | v | | | ]
    using stmt_nested_ind; intros self; cbn [TypeAnalyser.visit_stmt];
    try exact I.
  - (* FunctionDef *)
    pose proof (visit_arguments_raised args self) as Hargs.
    destruct (visit_arguments self args) as [args' [self1 [v|e]]]; cbn [snd] in *;
      [|exact Hargs].
    destruct (dict_get (TypeAnalyser.symbols self1) name) as [method|];
      cbn [snd]; try exact I.
    pose proof (visit_each_raised visit_stmt body IHbody
                  (TypeAnalyser.set_current_method self1 (Some method))) as Hbody.
    destruct (TypeAnalyser.visit_each _ _ body) as [body' [self3 [v'|e]]];
      cbn [snd] in *; [exact I | exact Hbody].
  - (* Return *)
    destruct v as [value_|].
    + destruct (ast.is_Tuple value_); cbn [snd]; [apply raised_log_error|].
      destruct (TypeAnalyser.current_return_type self) as [return_type|]; cbn [snd];
        [|exact I].
      destruct (IType_eqb _ _); cbn [snd]; [apply raised_log_error|].
      pose proof (visit_raised value_ self) as H.
      destruct (visit self value_) as [value' o]. cbn [snd] in *.
      now apply raised_discard.
    + destruct (TypeAnalyser.current_return_type self) as [return_type|]; cbn [snd];
        [|exact I].
      destruct (negb _); cbn [snd]; [apply raised_log_error | exact I].
  - (* Assign *)
    destruct (Nat.ltb _ _); cbn [snd]; [apply raised_log_error|].
    destruct targets as [|target rest]; cbn [snd]; [exact I|].
    destruct (ast.is_Tuple target); cbn [snd]; [apply raised_log_error|].
    pose proof (visit_each_raised visit (target :: rest)
                  (proj2 (Forall_forall _ _) (fun e _ => visit_raised e)) self)
      as Htargets.
    destruct (TypeAnalyser.visit_each visit self (target :: rest))
      as [targets' [self1 [v1|e]]]; cbn [snd] in *; [|exact Htargets].
    pose proof (visit_raised v self1) as Hv.
    destruct (visit self1 v) as [v' o]. cbn [snd] in *. now apply raised_discard.
  - (* While *)
    pose proof (visit_raised test self) as Htest.
    destruct (visit self test) as [test' [self1 [test_value|e]]]; cbn [snd] in *;
      [|exact Htest].
    pose proof (raised_check_test self1 l c test_value) as Hcheck.
    destruct (TypeAnalyser.check_test self1 l c test_value) as [self2 [u|e]];
      cbn [snd] in *; [|exact Hcheck].
    pose proof (visit_each_raised visit_stmt body IHbody self2) as Hbody.
    destruct (TypeAnalyser.visit_each visit_stmt self2 body) as [body' [self3 [u'|e]]];
      cbn [snd] in *; [|exact Hbody].
    pose proof (visit_each_raised visit_stmt orelse IHorelse self3) as Horelse.
    destruct (TypeAnalyser.visit_each visit_stmt self3 orelse) as [orelse' o].
    exact Horelse.
  - (* If *)
    pose proof (visit_raised test self) as Htest.
    destruct (visit self test) as [test' [self1 [test_value|e]]]; cbn [snd] in *;
      [|exact Htest].
    pose proof (raised_check_test self1 l c test_value) as Hcheck.
    destruct (TypeAnalyser.check_test self1 l c test_value) as [self2 [u|e]];
      cbn [snd] in *; [|exact Hcheck].
    pose proof (visit_each_raised visit_stmt body IHbody self2) as Hbody.
    destruct (TypeAnalyser.visit_each visit_stmt self2 body) as [body' [self3 [u'|e]]];
      cbn [snd] in *; [|exact Hbody].
    destruct (_ && _); cbn [snd]; [exact I|].
    pose proof (visit_each_raised visit_stmt orelse IHorelse self3) as Horelse.
    destruct (TypeAnalyser.visit_each visit_stmt self3 orelse) as [orelse' o].
    exact Horelse.
  - (* Expr *)
    pose proof (visit_raised v self) as H.
    destruct (visit self v) as [v' o]. cbn [snd] in *. now apply raised_discard.
Qed.

(** ** The tables of the analyser are never written *)

Lemma tables_kept_refl self r :
  match r with Returns _ => True | Raises _ => True end ->
  tables_kept self (self, r).
Proof. intros _. repeat split. destruct r; auto. Qed.

Lemma tables_kept_extends self self' r : extends self self' -> tables_kept self (self', r).
Proof.
  intros [new ->]. repeat split. destruct r; auto.
Qed.

Lemma tables_kept_expr self node : tables_kept self (snd (visit self node)).
Proof.
  pose proof (visit_walked BinaryOp_table UnaryOp_table node self) as H.
  destruct (visit self node) as [node' [self' r]]. cbn [snd] in *.
  apply tables_kept_extends. eapply walked_extends, H.
Qed.

Lemma tables_kept_trans self self1 v o :
  tables_kept self (self1, Returns v) -> tables_kept self1 o -> tables_kept self o.
Proof.
  destruct o as [self2 r]. intros (Hm & Hs & Hc) (Hm' & Hs' & Hc').
  repeat split; try congruence.
  destruct r; trivial.
  destruct Hc' as [Hc'|Hc']; [|now right].
  rewrite Hc'. exact Hc.
Qed.

Lemma tables_kept_raise self self1 e e' :
  tables_kept self (self1, Raises e) -> tables_kept self (self1, Raises e').
Proof. intros (Hm & Hs & _). now repeat split. Qed.

Lemma tables_kept_discard self o :
  tables_kept self o -> tables_kept self (TypeAnalyser.discard o).
Proof. destruct o as [self' [v|e]]; trivial. Qed.

Lemma visit_each_tables {N : Type} (f : TypeAnalyser.t -> N -> N * TypeAnalyser.outcome)
  (nodes : list N) :
  Forall (fun n => forall self, tables_kept self (snd (f self n))) nodes ->
  forall self, tables_kept self (snd (TypeAnalyser.visit_each f self nodes)).
Proof.
  induction 1 as [|node rest Hhead _ IH]; intros self; simpl.
  - repeat split. now left.
  - specialize (Hhead self).
    destruct (f self node) as [node' [self1 [v|e]]]; cbn [snd] in *; [|exact Hhead].
    specialize (IH self1).
    destruct (TypeAnalyser.visit_each f self1 rest) as [rest' o]. cbn [snd] in *.
    eapply tables_kept_trans; eassumption.
Qed.

Lemma visit_arg_tables arg self : tables_kept self (snd (visit_arg self arg)).
Proof.
  unfold TypeAnalyser.visit_arg.
  destruct (ast.annotation arg) as [annotation|]; cbn [snd].
  - pose proof (tables_kept_expr self annotation) as H.
    destruct (visit self annotation) as [annotation' o]. cbn [snd] in *.
    now apply tables_kept_discard.
  - apply tables_kept_extends, extends_log.
Qed.

Lemma visit_arguments_tables args self :
  tables_kept self (snd (visit_arguments self args)).
Proof.
  unfold TypeAnalyser.visit_arguments.
  pose proof (visit_each_tables visit_arg args
                (proj2 (Forall_forall _ _) (fun a _ => visit_arg_tables a)) self) as H1.
  destruct (TypeAnalyser.visit_each visit_arg self args) as [args' [self1 [v|e]]];
    cbn [snd] in *; [|exact H1].
  eapply tables_kept_trans; [exact H1|].
  apply visit_each_tables, Forall_forall. intros a _. apply visit_arg_tables.
Qed.

Lemma check_test_tables self l c v :
  tables_kept self (TypeAnalyser.check_test self l c v).
Proof.
  unfold TypeAnalyser.check_test.
  destruct (TypeAnalyser.get_type self v) as [test_type|e];
    [destruct (negb _)|].
  - apply tables_kept_extends, extends_log.
  - repeat split. now left.
  - apply tables_kept_extends, extends_refl.
Qed.

Lemma visit_stmt_tables node :
  forall self, tables_kept self (snd (visit_stmt self node)).
Proof.
  induction node as
    [ l c name args body IHbody | l c v | l c targets v
    | l c test body orelse IHbody IHorelse
    | l c test body orelse IHbody IHorelse | v | | | ]
    using stmt_nested_ind; intros self; cbn [TypeAnalyser.visit_stmt];
    try (apply tables_kept_extends, extends_refl).
  - (* FunctionDef *)
    pose proof (visit_arguments_tables args self) as Hargs.
    destruct (visit_arguments self args) as [args' [self1 [v|e]]]; cbn [snd] in *;
      [|exact Hargs].
    destruct (dict_get (TypeAnalyser.symbols self1) name) as [method|];
      cbn [snd]; try (eapply tables_kept_trans; [exact Hargs|];
                     apply tables_kept_extends, extends_refl).
    pose proof (visit_each_tables visit_stmt body IHbody
                  (TypeAnalyser.set_current_method self1 (Some method))) as Hbody.
    destruct Hargs as (Hm & Hs & _).
    destruct (TypeAnalyser.visit_each _ _ body) as [body' [self3 [v'|e]]];
      cbn [snd] in *; destruct Hbody as (Hm' & Hs' & _);
      cbn in Hm', Hs'; repeat split; cbn; try congruence.
    now right.
  - (* Return *)
    destruct v as [value_|].
    + destruct (ast.is_Tuple value_); cbn [snd];
        [apply tables_kept_extends, extends_log|].
      destruct (TypeAnalyser.current_return_type self) as [return_type|] eqn:Hcm; cbn [snd];
        [|apply tables_kept_extends, extends_refl].
      destruct (IType_eqb _ _); cbn [snd];
        [apply tables_kept_extends, extends_log|].
      pose proof (tables_kept_expr self value_) as H.
      destruct (visit self value_) as [value' o]. cbn [snd] in *.
      now apply tables_kept_discard.
    + destruct (TypeAnalyser.current_return_type self) as [return_type|] eqn:Hcm; cbn [snd];
        [|apply tables_kept_extends, extends_refl].
      destruct (negb _); cbn [snd];
        [apply tables_kept_extends, extends_log
        |apply tables_kept_extends, extends_refl].
  - (* Assign *)
    destruct (Nat.ltb _ _); cbn [snd]; [apply tables_kept_extends, extends_log|].
    destruct targets as [|target rest]; cbn [snd];
      [apply tables_kept_extends, extends_refl|].
    destruct (ast.is_Tuple target); cbn [snd];
      [apply tables_kept_extends, extends_log|].
    pose proof (visit_each_tables visit (target :: rest)
                  (proj2 (Forall_forall _ _) (fun e _ self => tables_kept_expr self e))
                  self) as Htargets.
    destruct (TypeAnalyser.visit_each visit self (target :: rest))
      as [targets' [self1 [v1|e]]]; cbn [snd] in *; [|exact Htargets].
    pose proof (tables_kept_expr self1 v) as Hv.
    destruct (visit self1 v) as [v' o]. cbn [snd] in *.
    eapply tables_kept_trans; [exact Htargets|]. now apply tables_kept_discard.
  - (* While *)
    pose proof (tables_kept_expr self test) as Htest.
    destruct (visit self test) as [test' [self1 [test_value|e]]]; cbn [snd] in *;
      [|exact Htest].
    pose proof (check_test_tables self1 l c test_value) as Hcheck.
    destruct (TypeAnalyser.check_test self1 l c test_value) as [self2 [u|e]];
      cbn [snd] in *;
      [|eapply tables_kept_trans; [exact Htest | exact Hcheck]].
    pose proof (visit_each_tables visit_stmt body IHbody self2) as Hbody.
    destruct (TypeAnalyser.visit_each visit_stmt self2 body) as [body' [self3 [u'|e]]];
      cbn [snd] in *;
      [|eapply tables_kept_trans; [exact Htest|];
        eapply tables_kept_trans; [exact Hcheck | exact Hbody]].
    pose proof (visit_each_tables visit_stmt orelse IHorelse self3) as Horelse.
    destruct (TypeAnalyser.visit_each visit_stmt self3 orelse) as [orelse' o].
    cbn [snd] in *.
    eapply tables_kept_trans; [exact Htest|].
    eapply tables_kept_trans; [exact Hcheck|].
    eapply tables_kept_trans; [exact Hbody | exact Horelse].
  - (* If *)
    pose proof (tables_kept_expr self test) as Htest.
    destruct (visit self test) as [test' [self1 [test_value|e]]]; cbn [snd] in *;
      [|exact Htest].
    pose proof (check_test_tables self1 l c test_value) as Hcheck.
    destruct (TypeAnalyser.check_test self1 l c test_value) as [self2 [u|e]];
      cbn [snd] in *;
      [|eapply tables_kept_trans; [exact Htest | exact Hcheck]].
    pose proof (visit_each_tables visit_stmt body IHbody self2) as Hbody.
    destruct (TypeAnalyser.visit_each visit_stmt self2 body) as [body' [self3 [u'|e]]];
      cbn [snd] in *;
      [|eapply tables_kept_trans; [exact Htest|];
        eapply tables_kept_trans; [exact Hcheck | exact Hbody]].
    destruct (_ && _); cbn [snd].
    + eapply tables_kept_trans; [exact Htest|].
      eapply tables_kept_trans; [exact Hcheck|].
      eapply tables_kept_raise with (e := Builtin NotImplementedError).
      destruct Hbody as (Hm & Hs & _). now repeat split.
    + pose proof (visit_each_tables visit_stmt orelse IHorelse self3) as Horelse.
      destruct (TypeAnalyser.visit_each visit_stmt self3 orelse) as [orelse' o].
      cbn [snd] in *.
      eapply tables_kept_trans; [exact Htest|].
      eapply tables_kept_trans; [exact Hcheck|].
      eapply tables_kept_trans; [exact Hbody | exact Horelse].
  - (* Expr *)
    pose proof (tables_kept_expr self v) as H.
    destruct (visit self v) as [v' o]. cbn [snd] in *.
    now apply tables_kept_discard.
Qed.

(** ** The analyser after the walk of a module *)

(** An analysis that returns has logged nothing and leaves the analyser as
    [__init__] set it up: no error, no module, the symbol table it was
    given and no current method; [has_errors] is false. *)
Theorem analyse_returns_fresh ast_tree symbol_table tree' self' v :
  TypeAnalyser.analyse BinaryOp_table UnaryOp_table ast_tree symbol_table
  = (tree', (self', Returns v)) ->
  self' = TypeAnalyser.init symbol_table
  /\ TypeAnalyser.has_errors self' = false.
Proof.
  unfold TypeAnalyser.analyse, TypeAnalyser.visit_Module. intros H.
  pose proof (visit_each_logged visit_stmt ast_tree
                (proj2 (Forall_forall _ _)
                   (fun s _ => visit_stmt_logged BinaryOp_table UnaryOp_table s))
                (TypeAnalyser.init symbol_table)) as Hlog.
  pose proof (visit_each_tables visit_stmt ast_tree
                (proj2 (Forall_forall _ _) (fun s _ => visit_stmt_tables s))
                (TypeAnalyser.init symbol_table)) as Htab.
  rewrite H in Hlog, Htab. cbn in Hlog, Htab.
  destruct Htab as (Hm & Hs & Hc).
  assert (Hc' : TypeAnalyser.current_method self' = None) by now destruct Hc.
  destruct self' as [errors modules symbols current_method]. cbn in *.
  subst. now split.
Qed.

(** A compiler error raised by the walk of an expression, of a statement
    or of a module is the last diagnostic of [errors]: no compiler error
    leaves the analyser without being logged, and [has_errors] is then
    true. *)
Theorem raised_error_is_last_diagnostic :
  (forall self node node' self' error,
     visit self node = (node', (self', Raises (CompilerErr error))) ->
     exists before, TypeAnalyser.errors self' = before ++ [error])
  /\ (forall self node node' self' error,
        visit_stmt self node = (node', (self', Raises (CompilerErr error))) ->
        exists before, TypeAnalyser.errors self' = before ++ [error])
  /\ (forall ast_tree symbol_table tree' self' error,
        TypeAnalyser.analyse BinaryOp_table UnaryOp_table ast_tree symbol_table
        = (tree', (self', Raises (CompilerErr error))) ->
        (exists before, TypeAnalyser.errors self' = before ++ [error])
        /\ TypeAnalyser.has_errors self' = true).
Proof.
  split; [|split].
  - intros self node node' self' error H.
    pose proof (visit_raised node self) as Hr. now rewrite H in Hr.
  - intros self node node' self' error H.
    pose proof (visit_stmt_raised node self) as Hr. now rewrite H in Hr.
  - intros ast_tree symbol_table tree' self' error H.
    unfold TypeAnalyser.analyse, TypeAnalyser.visit_Module in H.
    pose proof (visit_each_raised visit_stmt ast_tree
                  (proj2 (Forall_forall _ _) (fun s _ => visit_stmt_raised s))
                  (TypeAnalyser.init symbol_table)) as Hr.
    rewrite H in Hr. cbn in Hr. split; [exact Hr|].
    destruct Hr as [before Hb]. unfold TypeAnalyser.has_errors. rewrite Hb.
    rewrite length_app. apply Nat.ltb_lt. cbn. lia.
Qed.

(** ** One diagnostic outside comparisons and boolean operations *)

Lemma once_log_error self error :
  logs_at_most_once self (TypeAnalyser._log_error self error).
Proof. reflexivity. Qed.

Lemma once_check_Subscript self l c v i :
  logs_at_most_once self (TypeAnalyser.check_Subscript self l c v i).
Proof.
  unfold TypeAnalyser.check_Subscript.
  destruct (TypeAnalyser.symbol_of_Name self v) as [v'|e] eqn:Hv;
    [|now rewrite (symbol_of_Name_raises _ _ _ Hv)].
  destruct (TypeAnalyser.symbol_of_Name self i) as [i'|e] eqn:Hi;
    [|now rewrite (symbol_of_Name_raises _ _ _ Hi)].
  destruct (TypeAnalyser.is_IType v' && TypeAnalyser.is_IType i'); [reflexivity|].
  destruct (TypeAnalyser.get_type self v') as [symbol_type|e] eqn:Hst;
    [|now rewrite (get_type_raises _ _ _ Hst)].
  destruct (TypeAnalyser.get_type self i') as [index_type|e] eqn:Hit;
    [|now rewrite (get_type_raises _ _ _ Hit)].
  destruct symbol_type; try reflexivity.
  now destruct (negb _).
Qed.

Lemma once_check_test self l c v :
  logs_at_most_once self (TypeAnalyser.check_test self l c v).
Proof.
  unfold TypeAnalyser.check_test.
  destruct (TypeAnalyser.get_type self v) as [test_type|e] eqn:Ht.
  - now destruct (negb _).
  - now rewrite (get_type_raises _ _ _ Ht).
Qed.

Lemma once_resolve_BinOp self l c op operator r_operand l_operand :
  logs_at_most_once self
    (snd (TypeAnalyser.resolve_BinOp BinaryOp_table self l c op operator
            r_operand l_operand)).
Proof.
  unfold TypeAnalyser.resolve_BinOp, TypeAnalyser.get_bin_op.
  destruct operator as [operator|]; [|reflexivity].
  destruct (TypeAnalyser.get_type self l_operand) as [l_type|e] eqn:Hl;
    [|now rewrite (get_type_raises _ _ _ Hl)].
  destruct (TypeAnalyser.get_type self r_operand) as [r_type|e] eqn:Hr;
    [|now rewrite (get_type_raises _ _ _ Hr)].
  destruct (BinaryOp.validate_type _ _ _ _) as [operation|].
  - now destruct (negb _).
  - now destruct (BinaryOp.get_operation_by_operator _ _).
Qed.

Lemma once_resolve_UnaryOp self l c op operator operand :
  logs_at_most_once self
    (snd (TypeAnalyser.resolve_UnaryOp UnaryOp_table self l c op operator operand)).
Proof.
  unfold TypeAnalyser.resolve_UnaryOp, TypeAnalyser.get_un_op.
  destruct operator as [operator|]; [|reflexivity].
  destruct (TypeAnalyser.get_type self operand) as [op_type|e] eqn:Ho;
    [|now rewrite (get_type_raises _ _ _ Ho)].
  destruct (UnaryOp.validate_type _ _ _) as [operation|].
  - now destruct (negb _).
  - now destruct (UnaryOp.get_operation_by_operator _ _).
Qed.

(** The walk of an expression with no comparison and no boolean operation
    on its way logs at most one diagnostic: it returns or raises a built-in
    exception with nothing logged, or raises a compiler error with exactly
    that error appended. *)
Theorem handler_free_logs_at_most_once node :
  handler_free node = true ->
  forall self, logs_at_most_once self (snd (visit self node)).
Proof.
  induction node as
    [ l c n | l c s | l c v | l c id | l c elts
    | l c v i IHv IHi | l c test body orelse IHtest
    | l c lhs op rhs IHl IHr | l c op operand IHo
    | l c lhs ops comparators IHl IHcs | l c op values IHvs ]
    using expr_nested_ind; cbn [handler_free]; intros Hfree self;
    try discriminate Hfree; cbn [TypeAnalyser.visit snd]; try reflexivity.
  - (* Num *)
    now destruct n.
  - (* Subscript *)
    apply andb_prop in Hfree as [Hv Hi].
    specialize (IHv Hv self).
    destruct (visit self v) as [v' [self1 [value_|e]]]; cbn [snd] in *;
      [cbn in IHv; subst self1 | exact IHv].
    specialize (IHi Hi self).
    destruct (visit self i) as [i' [self2 [index|e]]]; cbn [snd] in *;
      [cbn in IHi; subst self2 | exact IHi].
    apply once_check_Subscript.
  - (* IfExp *)
    specialize (IHtest Hfree self).
    destruct (visit self test) as [test' [self1 [test_value|e]]]; cbn [snd] in *;
      [cbn in IHtest; subst self1 | exact IHtest].
    apply once_check_test.
  - (* BinOp *)
    apply andb_prop in Hfree as [Hl Hr].
    specialize (IHr Hr self).
    destruct (visit self rhs) as [rhs' [self1 [r_operand|e]]]; cbn [snd] in *;
      [cbn in IHr; subst self1 | exact IHr].
    specialize (IHl Hl self).
    destruct (visit self lhs) as [lhs' [self2 [l_operand|e]]]; cbn [snd] in *;
      [cbn in IHl; subst self2 | exact IHl].
    pose proof (once_resolve_BinOp self l c op (TypeAnalyser.get_operator op)
                  r_operand l_operand) as H.
    destruct (TypeAnalyser.resolve_BinOp _ _ _ _ _ _ _ _) as [op' o]. exact H.
  - (* UnaryOp *)
    specialize (IHo Hfree self).
    destruct (visit self operand) as [operand' [self1 [operand_value|e]]];
      cbn [snd] in *; [cbn in IHo; subst self1 | exact IHo].
    pose proof (once_resolve_UnaryOp self l c op (TypeAnalyser.get_operator op)
                  operand_value) as H.
    destruct (TypeAnalyser.resolve_UnaryOp _ _ _ _ _ _ _) as [op' o]. exact H.
Qed.

(** ** A second walk of a rewritten tree *)

Lemma get_operator_of_recorded recorded :
  TypeAnalyser.get_operator (TypeAnalyser.slot_of_operation recorded) = None.
Proof. now destruct recorded. Qed.

Lemma log_error_raises self error :
  exists e, snd (TypeAnalyser._log_error self error) = Raises e.
Proof. now eexists. Qed.

Lemma except_keeps_raising line col o :
  (exists e, snd o = Raises e) ->
  exists e, snd (TypeAnalyser.except_MismatchedTypes line col o) = Raises e.
Proof.
  destruct o as [self r]. intros [e He]. cbn in He. subst r.
  destruct (except_raises line col self e) as (self' & e' & H).
  rewrite H. now exists e'.
Qed.

(** When a walk returns from an expression in which it reached a node
    with an operator, a walk of the tree it left never returns, whatever
    the analyser it starts from: the slots now hold operations, which
    [get_operator] does not know. *)
Theorem rewritten_tree_is_rejected node :
  walks_operator node = true ->
  forall self node' self' v,
    visit self node = (node', (self', Returns v)) ->
    forall self2, exists e, snd (snd (visit self2 node')) = Raises e.
Proof.
  induction node as
    [ l c n | l c s | l c v | l c id | l c elts
    | l c v i IHv IHi | l c test body orelse IHtest
    | l c lhs op rhs IHl IHr | l c op operand IHo
    | l c lhs ops comparators IHl IHcs | l c op values IHvs ]
    using expr_nested_ind; cbn [walks_operator]; intros Hwalks self node' self' val H;
    try discriminate Hwalks.
  - (* Subscript *)
    cbn [TypeAnalyser.visit] in H.
    destruct (visit self v) as [v' [self1 [value_|e]]] eqn:Hv; [|discriminate].
    destruct (visit self1 i) as [i' [self2' [index|e]]] eqn:Hi; [|discriminate].
    injection H as <- _. intros self2. cbn [TypeAnalyser.visit].
    destruct (walks_operator v) eqn:Wv.
    + destruct (IHv eq_refl _ _ _ _ Hv self2) as [e He].
      destruct (visit self2 v') as [v'' [s [x|x]]]; cbn [snd] in *;
        [discriminate | now exists x].
    + cbn in Hwalks.
      destruct (visit self2 v') as [v'' [s [x|x]]]; cbn [snd]; [|now exists x].
      destruct (IHi Hwalks _ _ _ _ Hi s) as [e He].
      destruct (visit s i') as [i'' [s' [y|y]]]; cbn [snd] in *;
        [discriminate | now exists y].
  - (* IfExp *)
    cbn [TypeAnalyser.visit] in H.
    destruct (visit self test) as [test' [self1 [test_value|e]]] eqn:Ht;
      [|discriminate].
    injection H as <- _. intros self2. cbn [TypeAnalyser.visit].
    destruct (IHtest Hwalks _ _ _ _ Ht self2) as [e He].
    destruct (visit self2 test') as [t'' [s [x|x]]]; cbn [snd] in *;
      [discriminate | now exists x].
  - (* BinOp *)
    apply BinOp_returns_inv in H
      as (operator & operation & r_operand & l_operand & _ & _ & _ & _ & _ & -> & _).
    intros self2. cbn [TypeAnalyser.visit].
    destruct (visit self2 (fst (visit self rhs))) as [r'' [s [x|x]]]; cbn [snd];
      [|now exists x].
    destruct (visit s (fst (visit self lhs))) as [l'' [s' [y|y]]]; cbn [snd];
      [|now exists y].
    now eexists.
  - (* UnaryOp *)
    apply UnaryOp_returns_inv in H
      as (operator & operation & operand_value & _ & _ & _ & _ & -> & _).
    intros self2. cbn [TypeAnalyser.visit].
    destruct (visit self2 (fst (visit self operand))) as [o'' [s [x|x]]]; cbn [snd];
      [|now exists x].
    now eexists.
  - (* Compare *)
    pose proof H as H0.
    apply Compare_returns_inv in H
      as (ops' & l_operand & Hlen & Hl & _ & -> & Hall & Hlen' & _).
    intros self2. cbn [TypeAnalyser.visit].
    rewrite length_map, Hlen, Hlen', Nat.eqb_refl. cbn [negb].
    destruct (visit self2 (fst (visit self lhs))) as [l'' [s [x|x]]] eqn:Hl2;
      cbn [snd].
    + destruct ops as [|op ops].
      * destruct (IHl Hwalks _ _ _ _ Hl self2) as [e He].
        rewrite Hl2 in He. discriminate.
      * destruct comparators as [|comparator rest]; [discriminate|].
        destruct ops' as [|op' ops']; [discriminate|].
        inversion Hall as [|? ? (operation & -> & _) _]; subst.
        unfold TypeAnalyser.loop_Compare. cbn [map].
        destruct (visit s (fst (visit self comparator))) as [c'' [s' [y|y]]];
          cbn [snd].
        -- apply (except_keeps_raising l c). now eexists.
        -- apply (except_keeps_raising l c). now eexists.
    + apply (except_keeps_raising l c (s, Raises x)). now eexists.
  - (* BoolOp *)
    apply BoolOp_returns_inv in H as (operator & recorded & _ & _ & _ & -> & _).
    intros self2. cbn [TypeAnalyser.visit].
    rewrite get_operator_of_recorded. cbn [snd].
    apply except_keeps_raising, log_error_raises.
Qed.

(** ** Statements and subscripts that are accepted or rejected *)

(** An [if] whose [else] branch is a single [if] (an [elif]) is never
    accepted: its walk raises, whatever the test and the body, and the
    [elif] is left as it was, not walked. *)
Theorem If_with_elif_never_returns self l c test body l2 c2 test2 body2 orelse2 :
  exists test' body' self' e,
    visit_stmt self (ast.If l c test body [ast.If l2 c2 test2 body2 orelse2])
    = (ast.If l c test' body' [ast.If l2 c2 test2 body2 orelse2], (self', Raises e)).
Proof.
  cbn [TypeAnalyser.visit_stmt].
  destruct (visit self test) as [test' [self1 [test_value|e]]];
    [|now eexists _, _, _, _].
  destruct (TypeAnalyser.check_test self1 l c test_value) as [self2 [u|e]];
    [|now eexists _, _, _, _].
  destruct (TypeAnalyser.visit_each visit_stmt self2 body) as [body' [self3 [u'|e]]];
    now eexists _, _, _, _.
Qed.

(** An assignment whose walk returns has exactly one target, which is not
    a tuple, and has logged nothing. *)
Theorem Assign_returns_single_target self l c targets value_ node' self' v :
  visit_stmt self (ast.Assign l c targets value_) = (node', (self', Returns v)) ->
  exists target,
    targets = [target]
    /\ ast.is_Tuple target = false
    /\ TypeAnalyser.errors self' = TypeAnalyser.errors self.
Proof.
  intros H.
  pose proof (visit_stmt_logged BinaryOp_table UnaryOp_table
                (ast.Assign l c targets value_) self) as Hlog.
  rewrite H in Hlog. cbn in Hlog.
  cbn [TypeAnalyser.visit_stmt] in H.
  destruct targets as [|target [|target2 rest]]; try discriminate H.
  cbn in H. destruct (ast.is_Tuple target) eqn:Htuple; [discriminate|].
  now exists target.
Qed.

(** A [while], an [if] and a conditional expression whose walk returns have
    a test whose walk returned a value of type [Type.bool]. *)
Theorem accepted_test_is_bool self l c test :
  (forall body orelse node' self' v,
     visit_stmt self (ast.While l c test body orelse) = (node', (self', Returns v)) ->
     exists test_value,
       snd (snd (visit self test)) = Returns test_value
       /\ TypeAnalyser.get_type self test_value = Returns Type_bool)
  /\ (forall body orelse node' self' v,
        visit_stmt self (ast.If l c test body orelse) = (node', (self', Returns v)) ->
        exists test_value,
          snd (snd (visit self test)) = Returns test_value
          /\ TypeAnalyser.get_type self test_value = Returns Type_bool)
  /\ (forall body orelse node' self' v,
        visit self (ast.IfExp l c test body orelse) = (node', (self', Returns v)) ->
        exists test_value,
          snd (snd (visit self test)) = Returns test_value
          /\ TypeAnalyser.get_type self test_value = Returns Type_bool).
Proof.
  assert (Hcheck : forall self1 test_value self2 u,
             TypeAnalyser.check_test self1 l c test_value = (self2, Returns u) ->
             TypeAnalyser.get_type self1 test_value = Returns Type_bool).
  { unfold TypeAnalyser.check_test, IType_eqb. intros self1 test_value self2 u.
    destruct (TypeAnalyser.get_type self1 test_value) as [test_type|e];
      [|discriminate].
    destruct (IType_eq_dec _ Type_bool) as [->|]; [trivial | discriminate]. }
  split; [|split]; intros body orelse node' self' v H;
    [cbn [TypeAnalyser.visit_stmt] in H
    |cbn [TypeAnalyser.visit_stmt] in H
    |cbn [TypeAnalyser.visit] in H];
    destruct (visit self test) as [test' [self1 [test_value|e]]] eqn:Ht;
    try discriminate H;
    pose proof (visit_returns_unchanged _ _ _ _ _ Ht) as ->;
    exists test_value; (split; [reflexivity|]);
    destruct (TypeAnalyser.check_test self l c test_value) as [self2 [u|e]] eqn:Hc;
    try discriminate H; eapply Hcheck, Hc.
Qed.

(** A function definition with an argument without annotation, after
    arguments whose walk returns, logs [TypeHintMissing] for that argument
    and raises: the body is left as it was and the symbol table is not
    consulted. *)
Theorem FunctionDef_unannotated_argument self l c name args_before arg args_after
  body :
  ast.annotation arg = None ->
  Forall (fun a => exists v, snd (snd (visit_arg self a)) = Returns v) args_before ->
  visit_stmt self (ast.FunctionDef l c name (args_before ++ arg :: args_after) body)
  = (ast.FunctionDef l c name
       (map (fun a => fst (visit_arg self a)) args_before ++ arg :: args_after) body,
     TypeAnalyser._log_error self
       (CompilerError.TypeHintMissing (ast.arg_lineno arg) (ast.arg_col_offset arg)
          (Some (ast.arg_name arg)))).
Proof.
  intros Hann Hbefore.
  assert (Hpre : TypeAnalyser.visit_each visit_arg self args_before
                 = (map (fun a => fst (visit_arg self a)) args_before,
                    (self, Returns VNone))).
  { induction Hbefore as [|a rest [v Hv] _ IH]; [reflexivity|].
    cbn [TypeAnalyser.visit_each map].
    assert (Ha : visit_arg self a = (fst (visit_arg self a), (self, Returns v))).
    { revert Hv. unfold TypeAnalyser.visit_arg.
      destruct (ast.annotation a) as [annotation|]; [|discriminate].
      destruct (visit self annotation) as [annotation' [self1 [x|x]]] eqn:Hx;
        [|discriminate].
      pose proof (visit_returns_unchanged _ _ _ _ _ Hx) as ->.
      cbn. now intros [= <-]. }
    rewrite Ha. fold (@TypeAnalyser.visit_each ast.arg visit_arg). now rewrite IH. }
  assert (Harg : TypeAnalyser.visit_each visit_arg self (arg :: args_after)
                 = (arg :: args_after,
                    TypeAnalyser._log_error self
                      (CompilerError.TypeHintMissing (ast.arg_lineno arg)
                         (ast.arg_col_offset arg) (Some (ast.arg_name arg))))).
  { cbn [TypeAnalyser.visit_each]. unfold TypeAnalyser.visit_arg.
    rewrite Hann. reflexivity. }
  cbn [TypeAnalyser.visit_stmt]. unfold TypeAnalyser.visit_arguments.
  rewrite (visit_each_app visit_arg args_before (arg :: args_after) self _ self VNone Hpre).
  rewrite Harg. reflexivity.
Qed.

(** After a function definition whose walk returned, the analyser has no
    current method, also when the definition was walked inside the body of
    another method: a return statement walked next is not checked but
    raises [AttributeError], unless it returns a tuple. *)
Theorem after_FunctionDef_no_current_method self l c name args body node' self' v :
  visit_stmt self (ast.FunctionDef l c name args body) = (node', (self', Returns v)) ->
  TypeAnalyser.current_method self' = None
  /\ TypeAnalyser.errors self' = TypeAnalyser.errors self
  /\ (forall l2 c2 ret_value,
        match ret_value with Some e => ast.is_Tuple e = false | None => True end ->
        visit_stmt self' (ast.Return l2 c2 ret_value)
        = (ast.Return l2 c2 ret_value, (self', Raises (Builtin AttributeError)))).
Proof.
  intros H.
  pose proof (visit_stmt_logged BinaryOp_table UnaryOp_table
                (ast.FunctionDef l c name args body) self) as Hlog.
  rewrite H in Hlog. cbn in Hlog.
  assert (Hcm : TypeAnalyser.current_method self' = None).
  { cbn [TypeAnalyser.visit_stmt] in H.
    destruct (visit_arguments self args) as [args' [self1 [x|x]]]; [|discriminate].
    destruct (dict_get (TypeAnalyser.symbols self1) name) as [method|];
      try discriminate.
    destruct (TypeAnalyser.visit_each _ _ body) as [body' [self3 [y|y]]];
      [|discriminate].
    now injection H as _ <- _. }
  repeat split; trivial.
  intros l2 c2 [e|] Hret; cbn [TypeAnalyser.visit_stmt];
    unfold TypeAnalyser.current_return_type; rewrite Hcm;
    [now rewrite Hret | reflexivity].
Qed.

(** When [visit_Subscript] returns, nothing was logged and either both
    walked sides are types, the type-hint form, and the outer type is
    returned as it is, or the type of the value is a sequence type, the
    type of the index is its key type, and the value type of the sequence
    is returned. *)
Theorem Subscript_returns_cases self l c value_ index node' self' v :
  visit self (ast.Subscript l c value_ index) = (node', (self', Returns v)) ->
  self' = self
  /\ exists walked_value walked_index value_symbol index_symbol,
       snd (snd (visit self value_)) = Returns walked_value
       /\ snd (snd (visit self index)) = Returns walked_index
       /\ TypeAnalyser.symbol_of_Name self walked_value = Returns value_symbol
       /\ TypeAnalyser.symbol_of_Name self walked_index = Returns index_symbol
       /\ ((exists t t', value_symbol = VType t
                         /\ index_symbol = VType t' /\ v = VType t)
           \/ (exists id value_type valid_key,
                 TypeAnalyser.get_type self value_symbol
                 = Returns (SequenceType id value_type valid_key)
                 /\ TypeAnalyser.get_type self index_symbol = Returns valid_key
                 /\ v = VType value_type)).
Proof.
  intros H.
  pose proof (visit_returns_unchanged _ _ _ _ _ H) as ->.
  split; [reflexivity|].
  cbn [TypeAnalyser.visit] in H.
  destruct (visit self value_) as [value' [self1 [wv|e]]] eqn:Hv; [|discriminate].
  pose proof (visit_returns_unchanged _ _ _ _ _ Hv) as ->.
  destruct (visit self index) as [index' [self2 [wi|e]]] eqn:Hi; [|discriminate].
  pose proof (visit_returns_unchanged _ _ _ _ _ Hi) as ->.
  injection H as _ H. unfold TypeAnalyser.check_Subscript in H.
  destruct (TypeAnalyser.symbol_of_Name self wv) as [rv|e] eqn:Hrv0;
    [|discriminate H].
  destruct (TypeAnalyser.symbol_of_Name self wi) as [ri|e] eqn:Hri0;
    [|discriminate H].
  exists wv, wi, rv, ri.
  split; [reflexivity|]. split; [reflexivity|].
  split; [exact Hrv0|]. split; [exact Hri0|].
  destruct (TypeAnalyser.is_IType rv && TypeAnalyser.is_IType ri) eqn:Htypes.
  - left. apply andb_prop in Htypes as [Hrv Hri].
    destruct rv as [| | | | | | | |[t| | |]]; try discriminate Hrv.
    destruct ri as [| | | | | | | |[t'| | |]]; try discriminate Hri.
    exists t, t'. repeat split. now injection H as <-.
  - right.
    destruct (TypeAnalyser.get_type self rv) as [symbol_type|e]; [|discriminate H].
    destruct (TypeAnalyser.get_type self ri) as [index_type|e]; [|discriminate H].
    destruct symbol_type as [| | | |id value_type valid_key];
      try discriminate H.
    unfold is_valid_key, IType_eqb in H.
    destruct (IType_eq_dec index_type valid_key) as [Heq|];
      [|discriminate H].
    exists id, value_type, valid_key. subst index_type. repeat split; trivial.
    cbn in H. now injection H as <-.
Qed.

End Coverage.

(** * The further properties on concrete programs *)

Lemma BinOp_returns_supported_operation_witness :
  exists operation,
    fst (Sample.visit (TypeAnalyser.init []) (Programs.int_sum (ast.Token ast.Add)))
    = Programs.int_sum (ast.BinaryResolved operation)
    /\ In operation Sample.BinaryOp_table
    /\ BinaryOperation.is_supported operation = true.
Proof.
  destruct (BinOp_returns_supported_operation Sample.BinaryOp_table
              Sample.UnaryOp_table (TypeAnalyser.init []) 1 0
              (ast.Num 1 0 (ast.NInt 1)) (ast.Token ast.Add) (ast.Num 1 4 (ast.NInt 2))
              _ _ _ eq_refl)
    as (operator & operation & r & l & lhs' & rhs' & Hnode & _ & _ & _ & Hin & _ & _
        & Hsup & _).
  exists operation. injection Hnode as <- <- <-. repeat split; assumption.
Defined.

Lemma UnaryOp_returns_supported_operation_witness :
  exists operation,
    In operation Sample.UnaryOp_table
    /\ UnaryOperation.is_supported operation = true
    /\ snd (snd (Sample.visit (TypeAnalyser.init []) Programs.negation))
       = Returns (VType (UnaryOperation.result operation)).
Proof.
  destruct (UnaryOp_returns_supported_operation Sample.BinaryOp_table
              Sample.UnaryOp_table (TypeAnalyser.init []) 1 0 (ast.Token ast.USub)
              (ast.Num 1 1 (ast.NInt 1)) _ _ _ eq_refl)
    as (operator & operation & ov & operand' & _ & _ & _ & Hin & _ & _ & Hsup & Hv & _).
  exists operation. repeat split; try assumption.
  injection Hv as <-. reflexivity.
Defined.

Lemma Compare_returns_supported_operations_witness :
  exists ops',
    Forall (resolved_supported Sample.BinaryOp_table) ops'
    /\ List.length ops' = 1%nat.
Proof.
  destruct (Compare_returns_supported_operations Sample.BinaryOp_table
              Sample.UnaryOp_table (TypeAnalyser.init []) 1 0
              (ast.Num 1 0 (ast.NInt 1)) [ast.Token ast.Lt] [ast.Num 1 4 (ast.NInt 2)]
              _ _ _ eq_refl)
    as (lhs' & ops' & comparators' & _ & _ & Hlen & _ & Hall & _).
  exists ops'. split; assumption.
Defined.

Lemma analyse_returns_fresh_witness :
  fst (snd (Sample.analyse [ast.Expr (Programs.int_sum (ast.Token ast.Add))] []))
  = TypeAnalyser.init []
  /\ TypeAnalyser.has_errors
       (fst (snd (Sample.analyse [ast.Expr (Programs.int_sum (ast.Token ast.Add))] [])))
     = false.
Proof.
  exact (analyse_returns_fresh Sample.BinaryOp_table Sample.UnaryOp_table
           [ast.Expr (Programs.int_sum (ast.Token ast.Add))] [] _ _ _ eq_refl).
Defined.

Lemma handler_free_logs_at_most_once_witness :
  logs_at_most_once (TypeAnalyser.init [])
    (snd (Sample.visit (TypeAnalyser.init []) Programs.float_sum)).
Proof.
  exact (handler_free_logs_at_most_once Sample.BinaryOp_table Sample.UnaryOp_table
           Programs.float_sum eq_refl (TypeAnalyser.init [])).
Defined.

Lemma rewritten_tree_is_rejected_witness :
  exists e,
    snd (snd (Sample.visit Programs.inside_f_int
                (Programs.int_sum (ast.BinaryResolved Sample.Addition))))
    = Raises e.
Proof.
  exact (rewritten_tree_is_rejected Sample.BinaryOp_table Sample.UnaryOp_table
           (Programs.int_sum (ast.Token ast.Add)) eq_refl (TypeAnalyser.init [])
           _ _ _ eq_refl Programs.inside_f_int).
Defined.

Lemma Assign_returns_single_target_witness :
  exists target,
    [ast.Name 1 0 "a"] = [target] /\ ast.is_Tuple target = false.
Proof.
  destruct (Assign_returns_single_target Sample.BinaryOp_table Sample.UnaryOp_table
              (TypeAnalyser.init []) 1 0 [ast.Name 1 0 "a"] (ast.Num 1 4 (ast.NInt 1))
              _ _ _ eq_refl)
    as (target & Htargets & Htuple & _).
  exists target. split; assumption.
Defined.

Lemma FunctionDef_unannotated_argument_witness :
  Sample.visit_stmt (TypeAnalyser.init [])
    (ast.FunctionDef 1 0 "f" [Programs.arg_a; Programs.arg_b] [ast.Pass])
  = (ast.FunctionDef 1 0 "f" [Programs.arg_a; Programs.arg_b] [ast.Pass],
     TypeAnalyser._log_error (TypeAnalyser.init [])
       (CompilerError.TypeHintMissing 1 14 (Some "b"))).
Proof.
  pose proof (FunctionDef_unannotated_argument Sample.BinaryOp_table
                Sample.UnaryOp_table (TypeAnalyser.init []) 1 0 "f" [Programs.arg_a]
                Programs.arg_b [] [ast.Pass] eq_refl) as H.
  apply H. constructor; [now exists VNone | constructor].
Defined.

Lemma after_FunctionDef_no_current_method_witness :
  Sample.visit_stmt (TypeAnalyser.init Programs.symbols_f_int) (ast.Return 2 0 None)
  = (ast.Return 2 0 None,
     (TypeAnalyser.init Programs.symbols_f_int, Raises (Builtin AttributeError))).
Proof.
  destruct (after_FunctionDef_no_current_method Sample.BinaryOp_table
              Sample.UnaryOp_table (TypeAnalyser.init Programs.symbols_f_int)
              1 0 "f" [] [ast.Pass] _ _ _ eq_refl)
    as (_ & _ & H).
  exact (H 2 0 None I).
Defined.

Lemma Subscript_returns_cases_witness :
  snd (snd (Sample.visit Programs.with_xs Programs.xs_at_0))
  = Returns (VType Type_int)
  /\ exists walked_value, 
       snd (snd (Sample.visit Programs.with_xs (ast.Name 1 0 "xs")))
       = Returns walked_value.
Proof.
  destruct (Subscript_returns_cases Sample.BinaryOp_table Sample.UnaryOp_table
              Programs.with_xs 1 0 (ast.Name 1 0 "xs") (ast.Num 1 3 (ast.NInt 0))
              _ _ _ eq_refl)
    as (_ & wv & wi & rv & ri & Hv & _).
  split; [reflexivity | now exists wv].
Defined.

(** * The tables of the analyser and the symbols of the modules *)

Lemma dict_get_In {V : Type} (d : dict V) key v :
  dict_get d key = Some v -> In (key, v) d.
Proof.
  induction d as [|[k v0] d IH]; simpl; [discriminate|].
  destruct (String.eqb_spec k key) as [->|_].
  - intros [= ->]. now left.
  - intros H. right. now apply IH.
Qed.

Lemma dict_get_None {V : Type} (d : dict V) key :
  dict_get d key = None <-> ~ In key (map fst d).
Proof.
  induction d as [|[k v0] d IH]; simpl; [tauto|].
  destruct (String.eqb_spec k key) as [->|Hne].
  - split; [discriminate | intros H; exfalso; apply H; now left].
  - rewrite IH. tauto.
Qed.

Lemma dict_get_unique {V : Type} (d : dict V) key v :
  NoDup (map fst d) -> In (key, v) d -> dict_get d key = Some v.
Proof.
  induction d as [|[k v0] d IH]; simpl; [contradiction|].
  intros Hnd [H|H]; inversion Hnd as [|? ? Hnotin Hnd']; subst.
  - injection H as -> ->. now rewrite String.eqb_refl.
  - destruct (String.eqb_spec k key) as [->|_]; [|now apply IH].
    exfalso. apply Hnotin. apply (in_map fst) in H. exact H.
Qed.

(** In a dictionary, where keys are unique, the order of the entries does
    not matter to a lookup. *)
Lemma dict_get_rev {V : Type} (d : dict V) key :
  NoDup (map fst d) -> dict_get (rev d) key = dict_get d key.
Proof.
  intros Hnd.
  destruct (dict_get d key) as [v|] eqn:Hd.
  - apply dict_get_unique.
    + rewrite map_rev. now apply NoDup_rev.
    + apply in_rev. rewrite rev_involutive. now apply dict_get_In.
  - apply dict_get_None. rewrite map_rev, <- in_rev. now apply dict_get_None.
Qed.

Lemma dict_get_app {V : Type} (d d' : dict V) key :
  dict_get (d ++ d') key
  = match dict_get d key with Some v => Some v | None => dict_get d' key end.
Proof.
  induction d as [|[k v0] d IH]; simpl; [reflexivity|].
  now destruct (String.eqb k key).
Qed.

(** Lookup after an assignment. *)
Lemma dict_get_set {V : Type} (d : dict V) key v key' :
  dict_get (dict_set d key v) key'
  = if String.eqb key key' then Some v else dict_get d key'.
Proof.
  induction d as [|[k v0] d IH]; simpl; [reflexivity|].
  destruct (String.eqb_spec k key) as [->|Hne]; simpl.
  - now destruct (String.eqb key key').
  - rewrite IH. destruct (String.eqb_spec k key') as [->|_]; [|reflexivity].
    destruct (String.eqb_spec key key') as [->|_]; [contradiction | reflexivity].
Qed.

(** Lookup after [update]: the entries of the other dictionary win. *)
Lemma dict_get_update {V : Type} (other d : dict V) key :
  dict_get (dict_update d other) key
  = match dict_get (rev other) key with
    | Some v => Some v
    | None => dict_get d key
    end.
Proof.
  unfold dict_update. revert d.
  induction other as [|[k v0] other IH]; intros d; simpl; [reflexivity|].
  rewrite IH, dict_get_app, dict_get_set. simpl.
  destruct (dict_get (rev other) key); [reflexivity|].
  now destruct (String.eqb k key).
Qed.

(** [__modules_symbols] merges the symbols of the modules in their order:
    a symbol of the last module wins over the same identifier in the
    modules before it, an identifier the last module does not define is
    looked up in the merge of the modules before, and without modules
    there is no symbol. *)
Theorem modules_symbols_last_module_wins (self : TypeAnalyser.t)
  (modules_before : dict Module_) (name : string) (last_module : Module_)
  (symbol_id : string) :
  TypeAnalyser.modules self = modules_before ++ [(name, last_module)] ->
  NoDup (map fst (Module_symbols last_module)) ->
  dict_get (TypeAnalyser.__modules_symbols self) symbol_id
  = match dict_get (Module_symbols last_module) symbol_id with
    | Some s => Some s
    | None =>
        dict_get
          (TypeAnalyser.__modules_symbols
             (TypeAnalyser.Build (TypeAnalyser.errors self) modules_before
                (TypeAnalyser.symbols self) (TypeAnalyser.current_method self)))
          symbol_id
    end.
Proof.
  intros Hmodules Hnd. unfold TypeAnalyser.__modules_symbols, dict_values.
  rewrite Hmodules. cbn [TypeAnalyser.modules].
  rewrite map_app, fold_left_app. cbn [map fold_left snd].
  rewrite dict_get_update. now rewrite (dict_get_rev _ _ Hnd).
Qed.

Lemma modules_symbols_last_module_wins_witness :
  dict_get (TypeAnalyser.__modules_symbols Programs.with_modules) "x"
  = Some (SymExpression 4 Type_bool)
  /\ dict_get (TypeAnalyser.__modules_symbols Programs.with_modules) "y"
     = Some (SymExpression 2 Type_str).
Proof.
  assert (Hnd : NoDup (map fst (Module_symbols Programs.module_b))).
  { repeat constructor. intros []. }
  split.
  - exact (modules_symbols_last_module_wins Programs.with_modules
             [("a", Programs.module_a)] "b" Programs.module_b "x" eq_refl Hnd).
  - exact (modules_symbols_last_module_wins Programs.with_modules
             [("a", Programs.module_a)] "b" Programs.module_b "y" eq_refl Hnd).
Defined.

(** Whatever the outcome of an analysis, the analyser it leaves holds no
    module and the symbol table it was given: the walk never writes
    [modules] or [symbols], so [__modules_symbols] is empty and
    [get_symbol] finds an identifier among the symbols of the current
    method or in the symbol table only, and fails only where reading the
    symbols of the current method fails. *)
Theorem analyse_keeps_tables (BinaryOp_table : list BinaryOperation.t)
  (UnaryOp_table : list UnaryOperation.t) (ast_tree : ast.Module)
  (symbol_table : dict Symbol) :
  let self' :=
    fst (snd (TypeAnalyser.analyse BinaryOp_table UnaryOp_table ast_tree symbol_table)) in
  TypeAnalyser.modules self' = []
  /\ TypeAnalyser.symbols self' = symbol_table
  /\ TypeAnalyser.__modules_symbols self' = []
  /\ forall symbol_id,
       TypeAnalyser.get_symbol self' symbol_id
       = match local_symbol self' symbol_id with
         | Returns (Some s) => Returns (Some s)
         | Returns None => Returns (dict_get symbol_table symbol_id)
         | Raises e => Raises e
         end.
Proof.
  unfold TypeAnalyser.analyse, TypeAnalyser.visit_Module.
  pose proof (visit_each_tables
                (TypeAnalyser.visit_stmt BinaryOp_table UnaryOp_table) ast_tree
                (proj2 (Forall_forall _ _)
                   (fun s _ => visit_stmt_tables BinaryOp_table UnaryOp_table s))
                (TypeAnalyser.init symbol_table)) as H.
  destruct (TypeAnalyser.visit_each _ _ ast_tree) as [tree' [self' r]].
  destruct H as (Hm & Hs & _). cbn in Hm, Hs. cbn [fst snd].
  repeat split; trivial.
  - unfold TypeAnalyser.__modules_symbols. now rewrite Hm.
  - intros symbol_id. unfold TypeAnalyser.get_symbol, local_symbol, dict_contains.
    rewrite Hm, Hs. cbn [dict_get].
    destruct (TypeAnalyser.current_method self') as [current|].
    + destruct (Symbol_symbols current) as [local|]; [|reflexivity].
      destruct (dict_get local symbol_id); [reflexivity|].
      now destruct (dict_get symbol_table symbol_id).
    + now destruct (dict_get symbol_table symbol_id).
Qed.

(** * What an accepted boolean operation and function definition hold *)

Section Acceptance.

Variable BinaryOp_table : list BinaryOperation.t.
Variable UnaryOp_table : list UnaryOperation.t.

Local Abbreviation visit := (TypeAnalyser.visit BinaryOp_table UnaryOp_table).
Local Abbreviation visit_stmt := (TypeAnalyser.visit_stmt BinaryOp_table UnaryOp_table).
Local Abbreviation visit_arg := (TypeAnalyser.visit_arg BinaryOp_table UnaryOp_table).
Local Abbreviation get_bin_op := (TypeAnalyser.get_bin_op BinaryOp_table).

#[local] Arguments TypeAnalyser._log_error : simpl never.
#[local] Arguments TypeAnalyser.except_MismatchedTypes : simpl never.
#[local] Arguments TypeAnalyser.loop_BoolOp : simpl never.
#[local] Arguments TypeAnalyser.get_operator : simpl never.
#[local] Arguments TypeAnalyser.get_bin_op : simpl never.

(** Once an operation is recorded, a loop of [visit_BoolOp] that returns
    still has it recorded, with the result type recorded with it. *)
Lemma loop_BoolOp_recorded operator operands :
  forall self line col l_operand return_type recorded operands' position
         recorded' self' v,
    TypeAnalyser.loop_BoolOp BinaryOp_table visit operator operands self line col
      l_operand return_type (Some recorded)
    = (operands', position, recorded', (self', Returns v)) ->
    recorded' = Some recorded /\ v = return_type.
Proof.
  induction operands as [|operand rest IH];
    intros self line col l_operand rt recorded operands' position recorded' self' v H;
    unfold TypeAnalyser.loop_BoolOp in H.
  - now injection H as _ _ <- _ <-.
  - fold (TypeAnalyser.loop_BoolOp BinaryOp_table visit operator) in H.
    destruct (visit self operand) as [operand' [self1 [r_operand|e]]];
      [|discriminate].
    destruct (get_bin_op self1 operator r_operand l_operand) as [operation|e];
      [|discriminate].
    cbn [TypeAnalyser.record_BoolOp] in H.
    destruct (TypeAnalyser.loop_BoolOp _ _ _ rest _ _ _ _ _ _)
      as [[[rest' position'] recorded''] o] eqn:Hloop.
    injection H as _ _ <- ->.
    eapply IH, Hloop.
Qed.

(** When [visit_BoolOp] returns, nothing was logged.  With one value the
    slot [bool_op.op] is set to [None] and [None] is returned.  With two
    values or more the slot holds an operation of the binary table that is
    registered under the operator of the node and accepts the types of the
    first two values, and its result type is returned. *)
Theorem BoolOp_returns_registered_operation self l c op values node' self' v :
  visit self (ast.BoolOp l c op values) = (node', (self', Returns v)) ->
  self' = self
  /\ exists operator first rest values',
       TypeAnalyser.get_operator op = Some operator
       /\ values = first :: rest
       /\ List.length values' = List.length values
       /\ match rest with
          | [] => node' = ast.BoolOp l c ast.NoneSlot values' /\ v = VNone
          | second :: _ =>
              exists operation l_operand r_operand,
                node' = ast.BoolOp l c (ast.BinaryResolved operation) values'
                /\ snd (snd (visit self first)) = Returns l_operand
                /\ snd (snd (visit self second)) = Returns r_operand
                /\ In operation BinaryOp_table
                /\ BinaryOperation.operator operation = operator
                /\ (exists l_type r_type,
                      TypeAnalyser.get_type self l_operand = Returns l_type
                      /\ TypeAnalyser.get_type self r_operand = Returns r_type
                      /\ BinaryOperation.validate_type operation [l_type; r_type]
                         = true)
                /\ v = VType (BinaryOperation.result operation)
          end.
Proof.
  intros H.
  pose proof (visit_returns_unchanged BinaryOp_table UnaryOp_table _ _ _ _ _ H) as ->.
  split; [reflexivity|].
  cbn [TypeAnalyser.visit] in H.
  destruct (TypeAnalyser.get_operator op) as [operator|]; [|discriminate].
  destruct values as [|first rest]; [discriminate|].
  destruct (visit self first) as [first' [self1 [l_operand|e]]] eqn:Hf.
  2:{ injection H as _ H. apply except_returns_inv in H. discriminate. }
  pose proof (visit_returns_unchanged BinaryOp_table UnaryOp_table _ _ _ _ _ Hf) as ->.
  destruct (TypeAnalyser.loop_BoolOp _ _ _ _ _ _ _ _ _ _)
    as [[[rest' [line col]] recorded] [self2 [rt|e]]] eqn:Hloop.
  2:{ injection H as _ H. apply except_returns_inv in H. discriminate. }
  injection H as <- _ <-.
  pose proof (loop_BoolOp_returns BinaryOp_table UnaryOp_table _ _ _ _ _ _ _ _ _ _ _
                _ _ Hloop) as (_ & Hrest' & _).
  exists operator, first, rest, (first' :: rest').
  repeat split.
  { cbn. now rewrite Hrest', length_map. }
  destruct rest as [|second rest].
  - unfold TypeAnalyser.loop_BoolOp in Hloop.
    injection Hloop as _ _ _ <- _ <-. now split.
  - unfold TypeAnalyser.loop_BoolOp in Hloop.
    fold (TypeAnalyser.loop_BoolOp BinaryOp_table visit operator) in Hloop.
    destruct (visit self second) as [second' [self1 [r_operand|e]]] eqn:Hs;
      [|discriminate].
    pose proof (visit_returns_unchanged BinaryOp_table UnaryOp_table _ _ _ _ _ Hs)
      as ->.
    destruct (get_bin_op self operator r_operand l_operand) as [operation|e] eqn:Hop;
      [|discriminate].
    cbn [TypeAnalyser.record_BoolOp] in Hloop.
    destruct (TypeAnalyser.loop_BoolOp _ _ _ rest _ _ _ _ _ _)
      as [[[rest2 position2] recorded2] o2] eqn:Hloop2.
    injection Hloop as _ _ Hrecorded Ho. subst o2 recorded.
    apply loop_BoolOp_recorded in Hloop2 as [-> ->].
    apply get_bin_op_returns in Hop
      as (l_type & r_type & Hlt & Hrt & Hin & Hoperator & Hval).
    exists operation, l_operand, r_operand. rewrite Hf. repeat split; trivial.
    now exists l_type, r_type.
Qed.

Lemma visit_each_arg_returns args :
  forall self args' self' v,
    TypeAnalyser.visit_each visit_arg self args = (args', (self', Returns v)) ->
    Forall (fun a => ast.annotation a <> None) args.
Proof.
  induction args as [|arg rest IH]; intros self args' self' v H; [constructor|].
  cbn [TypeAnalyser.visit_each] in H.
  destruct (visit_arg self arg) as [arg' [self1 [x|x]]] eqn:Ha; [|discriminate].
  destruct (TypeAnalyser.visit_each visit_arg self1 rest) as [rest' [self2 r]] eqn:Hr.
  injection H as _ _ ->.
  constructor; [|eapply IH, Hr].
  unfold TypeAnalyser.visit_arg in Ha.
  destruct (ast.annotation arg); [discriminate | discriminate Ha].
Qed.

(** A function definition whose walk returns has an annotation on every
    argument, and its name is a key of the symbol table, whatever the kind
    of the symbol bound to it; the walk has logged nothing. *)
Theorem FunctionDef_returns_annotated self l c name args body node' self' v :
  visit_stmt self (ast.FunctionDef l c name args body) = (node', (self', Returns v)) ->
  Forall (fun a => ast.annotation a <> None) args
  /\ (exists symbol, dict_get (TypeAnalyser.symbols self) name = Some symbol)
  /\ TypeAnalyser.errors self' = TypeAnalyser.errors self.
Proof.
  intros H.
  pose proof (visit_stmt_logged BinaryOp_table UnaryOp_table
                (ast.FunctionDef l c name args body) self) as Hlog.
  rewrite H in Hlog. cbn in Hlog.
  cbn [TypeAnalyser.visit_stmt] in H.
  pose proof (visit_arguments_tables BinaryOp_table UnaryOp_table args self) as Htab.
  destruct (TypeAnalyser.visit_arguments _ _ self args) as [args' [self1 [x|x]]] eqn:Ha;
    [|discriminate].
  destruct Htab as (_ & Hs & _). rewrite Hs in H.
  destruct (dict_get (TypeAnalyser.symbols self) name) as [method|];
    try discriminate.
  repeat split; [|now exists method | exact Hlog].
  unfold TypeAnalyser.visit_arguments in Ha.
  destruct (TypeAnalyser.visit_each visit_arg self args) as [args1 [self0 [y|y]]] eqn:H1.
  - eapply visit_each_arg_returns, H1.
  - discriminate.
Qed.

End Acceptance.

Lemma BoolOp_returns_registered_operation_witness :
  exists operation,
    fst (Sample.visit (TypeAnalyser.init []) (Programs.bool_chain (ast.Token ast.And)))
    = Programs.bool_chain (ast.BinaryResolved operation)
    /\ In operation Sample.BinaryOp_table
    /\ BinaryOperation.operator operation = Operator.And.
Proof.
  destruct (BoolOp_returns_registered_operation Sample.BinaryOp_table
              Sample.UnaryOp_table (TypeAnalyser.init []) 1 0 (ast.Token ast.And)
              [ast.NameConstant 1 0 ast.CTrue; ast.NameConstant 1 9 ast.CFalse;
               ast.NameConstant 1 19 ast.CTrue] _ _ _ eq_refl)
    as (_ & operator & first & rest & values' & Hop & Hvalues & _ & H).
  injection Hvalues as <- <-. injection Hop as <-.
  destruct H as (operation & l_operand & r_operand & Hnode & _ & _ & Hin & Hoperator & _).
  exists operation. injection Hnode as <- <-. repeat split; assumption.
Defined.

Lemma FunctionDef_returns_annotated_witness :
  Forall (fun a => ast.annotation a <> None) [Programs.arg_a]
  /\ exists symbol, dict_get Programs.symbols_f_type "f" = Some symbol.
Proof.
  destruct (FunctionDef_returns_annotated Sample.BinaryOp_table Sample.UnaryOp_table
              (TypeAnalyser.init Programs.symbols_f_type) 1 0 "f" [Programs.arg_a]
              [ast.Pass] _ _ _ eq_refl)
    as (Hargs & Hsymbol & _).
  split; assumption.
Defined.

Lemma raised_error_is_last_diagnostic_witness :
  exists before,
    TypeAnalyser.errors
      (fst (snd (Sample.visit (TypeAnalyser.init []) Programs.compare_of_mismatched_sum)))
    = before
      ++ [CompilerError.MismatchedTypes_positional 1 0 "int', 'int" "int', 'str"].
Proof.
  destruct (raised_error_is_last_diagnostic Sample.BinaryOp_table Sample.UnaryOp_table)
    as (H & _).
  exact (H (TypeAnalyser.init []) Programs.compare_of_mismatched_sum _ _ _ eq_refl).
Defined.

Lemma accepted_test_is_bool_witness :
  exists test_value,
    snd (snd (Sample.visit (TypeAnalyser.init []) (ast.NameConstant 1 6 ast.CTrue)))
    = Returns test_value
    /\ TypeAnalyser.get_type (TypeAnalyser.init []) test_value = Returns Type_bool.
Proof.
  destruct (accepted_test_is_bool Sample.BinaryOp_table Sample.UnaryOp_table
              (TypeAnalyser.init []) 1 0 (ast.NameConstant 1 6 ast.CTrue))
    as (H & _).
  exact (H [ast.Pass] [] _ _ _ eq_refl).
Defined.
